(** * Childcare survey analytics: the aggregators of [utils.py]

    A shallow embedding of the data-loading step and of the metric
    aggregators of [src/utils.py], and the properties the specification
    states about them.

    Conventions of the model.
    - A pandas [DataFrame] is a row count and a finite map from column
      names to columns; a column is a list of cells; a cell is a text, a
      number, a timestamp or the missing value NaN.
    - The functions of [utils.py] receive a reference to a mutable frame.
      Each one is a computation in the monad [Py]: it takes the frame,
      returns a value or raises, and hands back the frame as it has left it.
    - A float64 is an exact rational, one of the two infinities, or NaN:
      the rounding error of binary floating point is not modelled, the
      special values are. The square root of a correlation is kept
      symbolic.
    - [pd.to_datetime] is a function of the runtime on a whole column:
      which texts it reads, with which format, is left to the library.
    - pandas is modelled at version 2.1 or later (no silent dropping of
      text columns; [mean] of a text column raises [TypeError]). *)

From Stdlib Require Import QArith Qround Lqa Ascii String.
From stdpp Require Import gmap strings list fin_maps sorting.

#[local] Set Warnings "-clear-no-such-hyp".

Local Open Scope string_scope.

(** ** Python values *)

Module PyVal.

Inductive exn := KeyError | ValueError | TypeError | AttributeError.

Inductive res (A : Type) :=
| Ok (a : A)
| Raise (e : exn).
Arguments Ok {A} a.
Arguments Raise {A} e.

(** A float64: a finite value, a signed infinity or NaN. *)
Inductive f64 :=
| Fin (q : Q)
| Inf (neg : bool)
| NaN.

Definition Qneg (q : Q) : bool := (Qnum q <? 0)%Z.
Definition Qzero (q : Q) : bool := (Qnum q =? 0)%Z.

(** [a / b] of a NumPy int64 by an integer: true division, which yields
    NaN for 0/0 and an infinity for x/0 (with a RuntimeWarning) and does
    not raise. *)
Definition np_divide (a b : Z) : f64 :=
  if (b =? 0)%Z then
    if (a =? 0)%Z then NaN else Inf (a <? 0)%Z
  else Fin (inject_Z a / inject_Z b)%Q.

Definition fmul (x y : f64) : f64 :=
  match x, y with
  | NaN, _ | _, NaN => NaN
  | Fin a, Fin b => Fin (a * b)%Q
  | Inf s, Fin b | Fin b, Inf s => if Qzero b then NaN else Inf (xorb s (Qneg b))
  | Inf s, Inf t => Inf (xorb s t)
  end.

Definition fsub (x y : f64) : f64 :=
  match x, y with
  | NaN, _ | _, NaN => NaN
  | Fin a, Fin b => Fin (a - b)%Q
  | Inf s, Fin _ => Inf s
  | Fin _, Inf t => Inf (negb t)
  | Inf s, Inf t => if Bool.eqb s t then NaN else Inf s
  end.

(** Round half to even, the rule of [numpy.rint]. *)
Definition rint (q : Q) : Z :=
  let f := Qfloor q in
  match ((q - inject_Z f) ?= (1 # 2))%Q with
  | Lt => f
  | Gt => (f + 1)%Z
  | Eq => if Z.even f then f else (f + 1)%Z
  end.

(** [round(x, ndigits)] of a NumPy float and [DataFrame.round(ndigits)]:
    scale by [10^ndigits], round half to even, scale back. The scaling
    is exact here; in binary floating point the scaled value carries a
    rounding error of its own, so a value next to a tie may fall on the
    other side. The NPS score is therefore compared with the difference
    of the two percentages up to a margin, not by a closed form. *)
Definition Qround_digits (ndigits : nat) (q : Q) : Q :=
  let s := inject_Z (10 ^ Z.of_nat ndigits) in
  (inject_Z (rint (q * s)) / s)%Q.

Definition round (x : f64) (ndigits : nat) : f64 :=
  match x with
  | Fin q => Fin (Qround_digits ndigits q)
  | _ => x
  end.

(** Equality of floats as numbers: rationals are compared by value. *)
Definition feq (x y : f64) : Prop :=
  match x, y with
  | Fin a, Fin b => (a == b)%Q
  | Inf s, Inf t => s = t
  | NaN, NaN => True
  | _, _ => False
  end.

End PyVal.
Export PyVal.

(** ** Python strings

    A [str] is modelled as a string of code points below 128. *)

Module PyStr.

Definition dquote : ascii := "034"%char.
Definition comma : ascii := ","%char.

(** The code points [str.strip()] removes: tab to carriage return, the
    four separators 28..31 and the space. *)
Definition is_space (c : ascii) : bool :=
  let n := nat_of_ascii c in
  ((9 <=? n) && (n <=? 13) || (28 <=? n) && (n <=? 32))%nat.

Definition is_dquote (c : ascii) : bool := Ascii.eqb c dquote.

Definition is_empty (s : string) : bool :=
  match s with
  | EmptyString => true
  | String _ _ => false
  end.

Fixpoint lstrip (p : ascii -> bool) (s : string) : string :=
  match s with
  | EmptyString => EmptyString
  | String c s' => if p c then lstrip p s' else s
  end.

Fixpoint rstrip (p : ascii -> bool) (s : string) : string :=
  match s with
  | EmptyString => EmptyString
  | String c s' =>
      let r := rstrip p s' in
      if p c && is_empty r then EmptyString else String c r
  end.

(** [s.strip()] is [strip is_space s]; stripping the double quote
    character, as the aggregators do, is [strip is_dquote s]. *)
Definition strip (p : ascii -> bool) (s : string) : string :=
  rstrip p (lstrip p s).

(** [s.split(sep)] for a one-character separator: never an empty list. *)
Fixpoint split (sep : ascii) (s : string) : list string :=
  match s with
  | EmptyString => [EmptyString]
  | String c s' =>
      if Ascii.eqb c sep then EmptyString :: split sep s'
      else match split sep s' with
           | h :: t => String c h :: t
           | [] => [String c EmptyString]
           end
  end.

Definition lower_char (c : ascii) : ascii :=
  let n := nat_of_ascii c in
  if ((65 <=? n) && (n <=? 90))%nat then ascii_of_nat (n + 32) else c.

(** [s.lower()] *)
Fixpoint lower (s : string) : string :=
  match s with
  | EmptyString => EmptyString
  | String c s' => String (lower_char c) (lower s')
  end.

(** A text between double quotes. *)
Definition quoted (s : string) : string :=
  String dquote (s ++ String dquote EmptyString).

End PyStr.
Export PyStr.

(** ** Tables *)

(** A cell of a column: text, a number, a timestamp (nanoseconds since
    1970-01-01) or the missing value (NaN, or NaT among timestamps). *)
Inductive cell :=
| CStr (s : string)
| CNum (q : Q)
| CTime (t : Z)
| CNaN.

Abbreviation Series := (list cell).

#[global] Instance Q_eq_dec : EqDecision Q.
Proof. solve_decision. Defined.

#[global] Instance cell_eq_dec : EqDecision cell.
Proof. solve_decision. Defined.

Record DataFrame := mkDataFrame {
  nrows : nat;
  columns : gmap string Series
}.

(** The invariant pandas keeps: every column is as long as the index. *)
Definition wf (df : DataFrame) : Prop :=
  map_Forall (fun _ v => length v = nrows df) (columns df).

#[global] Instance wf_dec df : Decision (wf df).
Proof. unfold wf. apply _. Defined.

(** What the model takes from the Python runtime without defining it:
    the conversions between text and numbers or dates. *)
Class Runtime := {
  (** [float(s)]; [None] where it raises [ValueError]. *)
  py_float : string -> option f64;
  (** [str(x)] of a number or a timestamp. *)
  py_repr : cell -> string;
  (** What [pd.to_datetime] reads in a column: the timestamp of each
      place, nothing where the date is missing (NaT), or the exception
      it raises. pandas reads a column as a whole (it guesses one format
      from the first text and reads the other texts by it, and it
      refuses a number out of range), so what is read is a function of
      the column, not of its cells one by one. *)
  read_dates : Series -> res (list (option Z));
  (** The column read is as long as the column given. *)
  read_dates_length : forall v d, read_dates v = Ok d -> length d = length v
}.

(** ** The monad of the aggregators: a mutable frame and exceptions *)

Definition Py (A : Type) : Type := DataFrame -> res A * DataFrame.

Definition ret {A} (a : A) : Py A := fun df => (Ok a, df).
Definition throw {A} (e : exn) : Py A := fun df => (Raise e, df).
Definition bind {A B} (m : Py A) (k : A -> Py B) : Py B :=
  fun df =>
    match m df with
    | (Ok a, df') => k a df'
    | (Raise e, df') => (Raise e, df')
    end.

(** A step that cannot touch the frame: it returns or raises. *)
Definition lift {A} (r : res A) : Py A := fun df => (r, df).

Declare Scope py_scope.
Delimit Scope py_scope with py.
Notation "x <- m ;; k" := (bind m (fun x => k))
  (at level 100, m at next level, right associativity) : py_scope.
Notation "m ;; k" := (bind m (fun _ => k))
  (at level 100, right associativity) : py_scope.
Local Open Scope py_scope.

(** [for x in l: acc = body x acc] *)
Fixpoint for_each {A S} (l : list A) (body : A -> S -> Py S) (acc : S) : Py S :=
  match l with
  | [] => ret acc
  | x :: l' => acc' <- body x acc ;; for_each l' body acc'
  end.

(** The frame itself. *)
Definition self : Py DataFrame := fun df => (Ok df, df).

(** [len(df)] *)
Definition len : Py nat := fun df => (Ok (nrows df), df).

(** [df[col]]: the column, or [KeyError]. *)
Definition getitem (col : string) : Py Series :=
  fun df =>
    match columns df !! col with
    | Some v => (Ok v, df)
    | None => (Raise KeyError, df)
    end.

(** [df[col] = v]: the column is replaced (or added) in the frame itself. *)
Definition setitem (col : string) (v : Series) : Py unit :=
  fun df => (Ok tt, mkDataFrame (nrows df) (<[col := v]> (columns df))).

(** [df[cols]] for a list of names: the columns in that order, or
    [KeyError] when one is missing. *)
Fixpoint getitems (cols : list string) : Py (list (string * Series)) :=
  match cols with
  | [] => ret []
  | c :: cols' =>
      v <- getitem c ;;
      rest <- getitems cols' ;;
      ret ((c, v) :: rest)
  end.

(** The value and the frame a computation ends with. *)
Definition value {A} (r : res A * DataFrame) : res A := fst r.
Definition frame {A} (r : res A * DataFrame) : DataFrame := snd r.

(** Exceptions alone. *)
Fixpoint mapM {A B} (f : A -> res B) (l : list A) : res (list B) :=
  match l with
  | [] => Ok []
  | x :: l' =>
      match f x with
      | Raise e => Raise e
      | Ok y =>
          match mapM f l' with
          | Raise e => Raise e
          | Ok ys => Ok (y :: ys)
          end
      end
  end.

Definition res_map {A B} (f : A -> B) (r : res A) : res B :=
  match r with
  | Ok a => Ok (f a)
  | Raise e => Raise e
  end.

(** ** Series operations *)

(** [series == text], element by element. *)
Definition cell_eq_str (s : string) (c : cell) : bool :=
  match c with
  | CStr t => String.eqb t s
  | _ => false
  end.

Definition series_eq (v : Series) (s : string) : list bool :=
  map (cell_eq_str s) v.

(** [.sum()] of a boolean series: an int64 count. *)
Definition bool_sum (b : list bool) : Z :=
  Z.of_nat (count_occ Bool.bool_dec b true).

(** [.mean()] of a boolean series; NaN when the series is empty. *)
Definition bool_mean (b : list bool) : f64 :=
  np_divide (bool_sum b) (Z.of_nat (length b)).

Definition isna (c : cell) : bool :=
  match c with
  | CNaN => true
  | _ => false
  end.

(** [series.fillna(text)] *)
Definition fillna (s : string) (v : Series) : Series :=
  map (fun c => if isna c then CStr s else c) v.

(** [d.get(c)] for a dict [d] with text keys, as [series.map(d)] applies
    it: a value that is not a key of [d], text or not, becomes NaN. *)
Definition dict_get (d : gmap string Z) (c : cell) : cell :=
  match c with
  | CStr s =>
      match d !! s with
      | Some n => CNum (inject_Z n)
      | None => CNaN
      end
  | _ => CNaN
  end.

(** [series.map(d)] *)
Definition series_map (d : gmap string Z) (v : Series) : Series :=
  map (dict_get d) v.

(** ** Loading *)

Definition date_columns : list string :=
  ["Survey Response Date [GMT]"; "Survey Sent Date [GMT]"; "Start Date"].

Definition rating_columns : list string :=
  ["Ambience And Atmosphere"; "Curriculum and Activities";
   "Environment And Facilities"; "Information and Experience";
   "Questions"; "Nutritious Meals"; "Value For Money"].

Definition rating_map : gmap string Z :=
  list_to_map
    [("5. Strongly Agree", 5%Z);
     ("4. Agree", 4%Z);
     ("3. Neither Agree nor Disagree", 3%Z);
     ("2. Disagree", 2%Z);
     ("1. Strongly Disagree", 1%Z)].

Definition score_column (col : string) : string := col ++ "_Score".

(** The score of one rating text. *)
Definition normalize (c : cell) : cell := dict_get rating_map c.

(** The five phrases of the rating scale. *)
Definition canonical_ratings : list string :=
  ["5. Strongly Agree"; "4. Agree"; "3. Neither Agree nor Disagree";
   "2. Disagree"; "1. Strongly Disagree"].

Section Loading.
Context {rt : Runtime}.

(** A place of a column of dates (dtype datetime64): a timestamp, or
    the missing value. *)
Definition date_cell (o : option Z) : cell :=
  match o with
  | Some t => CTime t
  | None => CNaN
  end.

(** [pd.to_datetime(series)]: the column of the dates read, or the
    exception raised. *)
Definition to_datetime (v : Series) : res Series :=
  res_map (map date_cell) (read_dates v).

(** Line 15, the body of the loop over the date columns. *)
Definition date_step (col : string) (_ : unit) : Py unit :=
  v <- getitem col ;;
  d <- lift (to_datetime v) ;;
  setitem col d.

Definition convert_dates : Py unit := for_each date_columns date_step tt.

(** Line 31, the body of the loop over the rating columns: a score
    column next to the rating column. *)
Definition score_step (col : string) (_ : unit) : Py unit :=
  v <- getitem col ;;
  setitem (score_column col) (series_map rating_map v).

Definition add_scores : Py unit := for_each rating_columns score_step tt.

(** [load_and_process_data], from the frame [pd.read_csv] has produced;
    the frame it returns is the one it leaves. *)
Definition load_and_process_data : Py unit :=
  convert_dates ;;
  add_scores.

End Loading.

(** ** NPS distribution and score *)

Record NpsDistribution := mkDist {
  Promoters : f64;
  Passives : f64;
  Detractors : f64
}.

Definition get_nps_distribution : Py NpsDistribution :=
  total <- len ;;
  label <- getitem "NPS Label" ;;
  let promoters := bool_sum (series_eq label "Promoter") in
  label <- getitem "NPS Label" ;;
  let passives := bool_sum (series_eq label "Neutral") in
  label <- getitem "NPS Label" ;;
  let detractors := bool_sum (series_eq label "Detractor") in
  ret {| Promoters := fmul (np_divide promoters (Z.of_nat total)) (Fin 100);
         Passives := fmul (np_divide passives (Z.of_nat total)) (Fin 100);
         Detractors := fmul (np_divide detractors (Z.of_nat total)) (Fin 100) |}.

Definition calculate_nps_score : Py f64 :=
  label <- getitem "NPS Label" ;;
  let promoters := bool_mean (series_eq label "Promoter") in
  label <- getitem "NPS Label" ;;
  let detractors := bool_mean (series_eq label "Detractor") in
  let nps_score := fmul (fsub promoters detractors) (Fin 100) in
  ret (round nps_score 1).

(** ** Category tags *)

(** [pd.Series(l).value_counts()]: one entry per distinct text with the
    number of its occurrences, the larger count first, and among equal
    counts the text that appeared first. *)
Fixpoint count_add (s : string) (t : list (string * nat)) : list (string * nat) :=
  match t with
  | [] => [(s, 1)]
  | (k, n) :: t' =>
      if String.eqb k s then (k, S n) :: t' else (k, n) :: count_add s t'
  end.

Definition tally (l : list string) : list (string * nat) :=
  fold_left (fun t s => count_add s t) l [].

Fixpoint insert_desc (x : string * nat) (l : list (string * nat)) : list (string * nat) :=
  match l with
  | [] => [x]
  | y :: l' => if (snd x <? snd y)%nat then y :: insert_desc x l' else x :: l
  end.

Definition value_counts (l : list string) : list (string * nat) :=
  foldr insert_desc [] (tally l).

(** The count of a text in a frequency table; 0 when it has no entry. *)
Definition count_of (s : string) (t : list (string * nat)) : nat :=
  match List.find (fun kv => String.eqb (fst kv) s) t with
  | Some kv => snd kv
  | None => 0
  end.

(** [if row]: the truth value of a cell. *)
Definition truthy (c : cell) : bool :=
  match c with
  | CStr s => negb (is_empty s)
  | CNum q => negb (Qzero q)
  | CTime _ => true
  | CNaN => true
  end.

Section Categories.
Context {rt : Runtime}.

(** [str(row)] *)
Definition py_str (c : cell) : string :=
  match c with
  | CStr s => s
  | CNaN => "nan"
  | _ => py_repr c
  end.

(** The tokens [analyze_feedback_categories] takes from one row: the
    comprehension of lines 110 to 113 for a single [row]. The test keeps
    a token whose whitespace-stripped text is not empty and whose
    lower-cased text, not stripped, is not "nan"; the token kept is
    stripped of double quotes only. *)
Definition row_categories (row : cell) : list string :=
  if truthy row then
    map (strip is_dquote)
      (List.filter
         (fun cat => negb (is_empty (strip is_space cat))
                     && negb (String.eqb (lower cat) "nan"))
         (split comma (py_str row)))
  else [].

Definition feedback_columns : list string :=
  ["NPS Feedback Categories"; "Improvement Feedback Categories"].

(** Lines 109 to 113, the body of the loop over the two tag columns: the
    column is filled in the frame, then read again for its tokens. *)
Definition collect_categories (col : string) (categories : list string)
  : Py (list string) :=
  v <- getitem col ;;
  setitem col (fillna "" v) ;;
  v <- getitem col ;;
  ret (categories ++ flat_map row_categories v)%list.

(** Lines 107 to 118 of [analyze_feedback_categories]: the frequency
    table behind the chart. *)
Definition feedback_category_counts : Py (list (string * nat)) :=
  categories <- for_each feedback_columns collect_categories [] ;;
  let category_counts := value_counts categories in
  let category_counts :=
    List.filter (fun kv => negb (String.eqb (fst kv) "nan")) category_counts in
  ret category_counts.

(** The bar chart: the first ten entries of the table. *)
Definition analyze_feedback_categories : Py (list (string * nat)) :=
  category_counts <- feedback_category_counts ;;
  ret (firstn 10 category_counts).

End Categories.

(** The tokens [get_top_concerns] takes from one text: split on commas,
    keep what is not empty once stripped of whitespace, strip whitespace
    and then double quotes. *)
Definition concern_tokens (x : string) : list string :=
  map (fun c => strip is_dquote (strip is_space c))
    (List.filter (fun c => negb (is_empty (strip is_space c))) (split comma x)).

(** [.str.strip(dquote).apply(...)] on one value: a value that is not
    text has no [split] and the call raises [AttributeError]. *)
Definition concerns_of_cell (c : cell) : res (list string) :=
  match c with
  | CStr s => Ok (concern_tokens (strip is_dquote s))
  | _ => Raise AttributeError
  end.

Definition get_top_concerns : Py (list (string * nat)) :=
  v <- getitem "Improvement Feedback Categories" ;;
  all_concerns <- lift (mapM concerns_of_cell (fillna "" v)) ;;
  let concern_counts := value_counts (concat all_concerns) in
  ret concern_counts.

(** ** Grouping by month *)

(** The order of group keys: numbers before timestamps before texts, each
    kind by value (texts by code point, which is chronological for
    "YYYY-MM"). *)
Definition kind (c : cell) : nat :=
  match c with
  | CNum _ => 0
  | CTime _ => 1
  | CStr _ => 2
  | CNaN => 3
  end.

Definition key_compare (a b : cell) : comparison :=
  match a, b with
  | CNum x, CNum y => (x ?= y)%Q
  | CTime x, CTime y => (x ?= y)%Z
  | CStr x, CStr y => String.compare x y
  | _, _ => Nat.compare (kind a) (kind b)
  end.

Definition key_eqb (a b : cell) : bool :=
  match key_compare a b with
  | Eq => true
  | _ => false
  end.

Fixpoint insert_key (k : cell) (l : list cell) : list cell :=
  match l with
  | [] => [k]
  | h :: t =>
      match key_compare k h with
      | Lt => k :: l
      | Eq => l
      | Gt => h :: insert_key k t
      end
  end.

(** The keys of [groupby]: the distinct values in ascending order, the
    missing ones dropped. *)
Definition group_keys (keys : Series) : list cell :=
  fold_left (fun acc k => if isna k then acc else insert_key k acc) keys [].

(** The values of a column in the rows of one group. *)
Definition group_of (k : cell) (keys vals : Series) : Series :=
  map snd (List.filter (fun kv => key_eqb k (fst kv)) (combine keys vals)).

Definition numbers (v : Series) : list Q :=
  flat_map (fun c => match c with CNum q => [q] | _ => [] end) v.

Definition Qsum (l : list Q) : Q := fold_right Qplus 0%Q l.

(** The mean of the values present; NaN when there is none. *)
Definition nanmean (xs : list Q) : cell :=
  match xs with
  | [] => CNaN
  | _ => CNum (Qsum xs / inject_Z (Z.of_nat (length xs)))%Q
  end.

Definition is_num_or_na (c : cell) : bool :=
  match c with
  | CNum _ | CNaN => true
  | _ => false
  end.

(** [.mean()] of a series or of one group: missing values are skipped;
    a text among the values raises [TypeError]. (pandas gives a column
    of timestamps a mean, a timestamp; no column averaged here is one,
    and the model raises [TypeError] for it too.) *)
Definition series_mean (v : Series) : res cell :=
  if forallb is_num_or_na v then Ok (nanmean (numbers v)) else Raise TypeError.

(** [.round(ndigits)] of a cell of a frame. *)
Definition round_cell (ndigits : nat) (c : cell) : cell :=
  match c with
  | CNum q => CNum (Qround_digits ndigits q)
  | _ => c
  end.

(** [groupby(by).agg({m: 'mean' for m in metrics}).round(2)] from the
    key column and the metric columns: one row per key, in key order. *)
Definition groupby_mean_round (keys : Series) (cols : list (string * Series))
  : res (list (cell * list (string * cell))) :=
  mapM (fun k =>
          res_map (pair k)
            (mapM (fun mv : string * Series =>
                     res_map (fun x => (fst mv, round_cell 2 x))
                       (series_mean (group_of k keys (snd mv))))
               cols))
    (group_keys keys).

Definition trend_metrics : list string :=
  ["NPS"; "Ambience And Atmosphere"; "Curriculum and Activities"; "Value For Money"].

(** Lines 150 to 155 of [create_monthly_trends]: the table the traces
    of the chart are read from. *)
Definition create_monthly_trends : Py (list (cell * list (string * cell))) :=
  keys <- getitem "Response Month (YYYY-MM)" ;;
  cols <- getitems trend_metrics ;;
  monthly_trends <- lift (groupby_mean_round keys cols) ;;
  ret monthly_trends.

(** [create_satisfaction_heatmap]: the mean of each score column. *)
Definition create_satisfaction_heatmap : Py (list (string * cell)) :=
  for_each rating_columns
    (fun metric avg_scores =>
       scores <- getitem (score_column metric) ;;
       m <- lift (series_mean scores) ;;
       ret (avg_scores ++ [(metric, m)])%list) [].

(** [create_nps_distribution_chart]: the labels and values of the pie. *)
Definition create_nps_distribution_chart : Py (list (string * f64)) :=
  dist <- get_nps_distribution ;;
  ret [("Promoters", Promoters dist); ("Passives", Passives dist);
       ("Detractors", Detractors dist)].

(** The frame [groupby(...).apply] hands to its function for one group. *)
Definition sub_frame (df : DataFrame) (keys : Series) (k : cell) : DataFrame :=
  mkDataFrame (length (group_of k keys keys)) (group_of k keys <$> columns df).

(** [create_nps_trend]: the NPS score of each month. The function
    applied to a group receives a frame of its own. *)
Definition create_nps_trend : Py (list (cell * f64)) :=
  df <- self ;;
  keys <- getitem "Response Month (YYYY-MM)" ;;
  monthly_nps <-
    lift (mapM (fun k =>
                  res_map (pair k) (value (calculate_nps_score (sub_frame df keys k))))
            (group_keys keys)) ;;
  ret monthly_nps.

(** ** Correlation *)

(** An entry of the correlation matrix. The square root of the float
    computation is not taken: an entry keeps the three sums it is made
    of, and [Corr c sx sy] stands for [c / sqrt (sx * sy)]. *)
Inductive corr_entry :=
| CorrNaN
| Corr (covxy ssqdm_x ssqdm_y : Q).

(** The entry is the number 1. *)
Definition corr_is_one (e : corr_entry) : Prop :=
  match e with
  | CorrNaN => False
  | Corr c sx sy => (0 < c)%Q /\ (c * c == sx * sy)%Q
  end.

Record welford := mkWelford {
  nobs : Z;
  meanx : Q;
  meany : Q;
  ssqdm_x : Q;
  ssqdm_y : Q;
  covxy : Q
}.

(** One row of the inner loop of pandas' [nancorr]: a row counts when
    both values are present. *)
Definition welford_step (st : welford) (row : option Q * option Q) : welford :=
  match row with
  | (Some vx, Some vy) =>
      let n := (nobs st + 1)%Z in
      let dx := (vx - meanx st)%Q in
      let dy := (vy - meany st)%Q in
      let mx := (meanx st + (1 / inject_Z n) * dx)%Q in
      let my := (meany st + (1 / inject_Z n) * dy)%Q in
      mkWelford n mx my
        (ssqdm_x st + (vx - mx) * dx)%Q
        (ssqdm_y st + (vy - my) * dy)%Q
        (covxy st + (vx - mx) * dy)%Q
  | _ => st
  end.

(** The correlation of two columns over the rows where both are present
    ([min_periods] is 1): NaN with no such row or with a zero divisor. *)
Definition pearson (x y : list (option Q)) : corr_entry :=
  let st := fold_left welford_step (combine x y) (mkWelford 0 0 0 0 0 0) in
  if (nobs st <? 1)%Z then CorrNaN
  else if Qzero (ssqdm_x st * ssqdm_y st) then CorrNaN
  else Corr (covxy st) (ssqdm_x st) (ssqdm_y st).

(** [nancorr]: the entry of row [xi] and column [yi] is computed once,
    for [yi <= xi], and written to both places. *)
Definition nancorr (mat : list (list (option Q))) : list (list corr_entry) :=
  imap (fun xi cx =>
          imap (fun yi cy => if (yi <=? xi)%nat then pearson cx cy else pearson cy cx) mat)
    mat.

Definition heatmap_metrics : list string :=
  ["NPS"; "Ambience And Atmosphere"; "Curriculum and Activities";
   "Environment And Facilities"; "Information and Experience";
   "Questions"; "Nutritious Meals"; "Value For Money"].

Section Correlation.
Context {rt : Runtime}.

(** [to_numpy(dtype=float)] on one value: a text goes through [float],
    which raises [ValueError] on a text that is no numeral; a missing or
    infinite value is masked in the matrix. *)
Definition to_float (c : cell) : res (option Q) :=
  match c with
  | CStr s =>
      match py_float s with
      | Some (Fin q) => Ok (Some q)
      | Some _ => Ok None
      | None => Raise ValueError
      end
  | CNum q => Ok (Some q)
  | CTime _ => Raise TypeError
  | CNaN => Ok None
  end.

(** [DataFrame.corr()] *)
Definition corr (cols : list (string * Series)) : res (list (list corr_entry)) :=
  res_map nancorr (mapM (fun cv => mapM to_float (snd cv)) cols).

(** Lines 66 to 71 of [create_correlation_heatmap]: the matrix shown. *)
Definition create_correlation_heatmap : Py (list (list corr_entry)) :=
  sel <- getitems heatmap_metrics ;;
  corr_matrix <- lift (corr sel) ;;
  ret corr_matrix.

End Correlation.

(** ** Weekly response counts *)

Definition day_ns : Z := 86400 * 10 ^ 9.

(** The day number of a timestamp, day 0 being Thursday 1970-01-01. *)
Definition day_of (t : Z) : Z := (t / day_ns)%Z.

(** The Sunday that ends the week of a day (day 3 is a Sunday). *)
Definition week_end (d : Z) : Z := (d + (3 - d) mod 7)%Z.

Definition timestamps (v : Series) : list Z :=
  flat_map (fun c => match c with CTime t => [t] | _ => [] end) v.

Definition is_time_or_na (c : cell) : bool :=
  match c with
  | CTime _ | CNaN => true
  | _ => false
  end.

Definition Zmin_list (x : Z) (l : list Z) : Z := fold_left Z.min l x.
Definition Zmax_list (x : Z) (l : list Z) : Z := fold_left Z.max l x.

(** [resample('W').size()] over the days of the responses: one entry per
    week from the first week with a response to the last, labelled by the
    timestamp of its Sunday, weeks without a response included. *)
Definition weekly_size (days : list Z) : list (Z * nat) :=
  match days with
  | [] => []
  | d :: ds =>
      let first := week_end (Zmin_list d ds) in
      let last := week_end (Zmax_list d ds) in
      map (fun i =>
             let w := (first + 7 * Z.of_nat i)%Z in
             ((w * day_ns)%Z,
              length (List.filter (fun x => (week_end x =? w)%Z) days)))
        (seq 0 (Z.to_nat ((last - first) / 7) + 1))
  end.

(** Line 136 of [calculate_weekly_response_rate]: resampling is only
    valid on timestamps, and missing dates fall in no week. *)
Definition calculate_weekly_response_rate : Py (list (Z * nat)) :=
  v <- getitem "Survey Response Date [GMT]" ;;
  if forallb is_time_or_na v
  then ret (weekly_size (map day_of (timestamps v)))
  else throw TypeError.

(** ** The filters of the dashboard *)

(** [series.dt.date]: the day of each timestamp, a missing date staying
    missing; a column that does not hold dates has no [.dt] and the
    access raises [AttributeError]. *)
Definition dt_date (v : Series) : res (list (option Z)) :=
  if forallb is_time_or_na v
  then Ok (map (fun c => match c with CTime t => Some (day_of t) | _ => None end) v)
  else Raise AttributeError.

(** [dates >= d] and [dates <= d], element by element: a missing date
    compares false. *)
Definition date_ge (d : Z) (x : option Z) : bool :=
  match x with
  | Some y => (d <=? y)%Z
  | None => false
  end.

Definition date_le (d : Z) (x : option Z) : bool :=
  match x with
  | Some y => (y <=? d)%Z
  | None => false
  end.

(** [series.isin(values)] *)
Definition isin (values : list cell) (v : Series) : list bool :=
  map (fun c => existsb (key_eqb c) values) v.

(** The elements of a list where the mask holds. *)
Definition select {A} (mask : list bool) (l : list A) : list A :=
  map snd (List.filter fst (combine mask l)).

(** [df = df[mask]]: the rows where the mask holds, in every column. *)
Definition boolean_index (mask : list bool) : Py unit :=
  fun df =>
    (Ok tt, mkDataFrame (length (List.filter id mask)) (select mask <$> columns df)).

(** Lines 55 to 59 of [main.py]: the filter on the dates, applied when
    the range has its two dates (days, counted as [day_of] does). *)
Definition filter_dates (date_range : list Z) : Py unit :=
  if (length date_range =? 2)%nat then
    d <- getitem "Survey Response Date [GMT]" ;;
    from <- lift (res_map (map (date_ge (nth 0 date_range 0%Z))) (dt_date d)) ;;
    d <- getitem "Survey Response Date [GMT]" ;;
    to <- lift (res_map (map (date_le (nth 1 date_range 0%Z))) (dt_date d)) ;;
    boolean_index (zip_with andb from to)
  else ret tt.

(** Lines 60 and 61: the filter on the cities, applied when a city is
    selected. *)
Definition filter_cities (selected_cities : list cell) : Py unit :=
  match selected_cities with
  | [] => ret tt
  | _ =>
      city <- getitem "City" ;;
      boolean_index (isin selected_cities city)
  end.

(** The two filters on the copy of the loaded table; the frame left is
    [filtered_df], which the aggregators are given. *)
Definition apply_filters (date_range : list Z) (selected_cities : list cell)
  : Py unit :=
  filter_dates date_range ;; filter_cities selected_cities.

(** * Notions and sample tables for the properties *)

(** The number of rows whose label is exactly the text [s]. *)
Definition occurrences (s : string) (v : Series) : nat :=
  length (filter (fun c => c = CStr s) v).

(** A label the distribution has a bucket for. *)
Definition recognized (c : cell) : Prop :=
  c = CStr "Promoter" \/ c = CStr "Neutral" \/ c = CStr "Detractor".

(** [c / t] of two counts, as a rational. *)
Definition ratio (c t : nat) : Q :=
  (inject_Z (Z.of_nat c) / inject_Z (Z.of_nat t))%Q.

(** Two rows, one of them with a label that has no bucket. *)
Definition labels_with_unknown : DataFrame :=
  mkDataFrame 2 {[ "NPS Label" := [CStr "Promoter"; CStr "Passive"] ]}.

(** Three rows: one promoter and two neutrals. *)
Definition labels_one_in_three : DataFrame :=
  mkDataFrame 3 {[ "NPS Label" := [CStr "Promoter"; CStr "Neutral"; CStr "Neutral"] ]}.

(** A table with the label column and no row. *)
Definition labels_no_rows : DataFrame :=
  mkDataFrame 0 {[ "NPS Label" := [] ]}.




(** The rows of the specification's example: "a, b" and a quoted c in
    the first tag column, "nan" and the empty text in the second. *)
Definition tags_example : DataFrame :=
  mkDataFrame 2
    {[ "NPS Feedback Categories" := [CStr "a, b"; CStr (quoted "c")];
       "Improvement Feedback Categories" := [CStr "nan"; CStr ""] ]}.

(** Tags that are "nan" but for a space, a quote or the case, and a tag
    of two quotes. *)
Definition tags_nan_variants : DataFrame :=
  mkDataFrame 3
    {[ "NPS Feedback Categories" :=
         [CStr "Fees, nan"; CStr (quoted "NaN"); CStr ("Food," ++ quoted "")];
       "Improvement Feedback Categories" := [CStr ""; CStr ""; CStr ""] ]}.

(** One improvement text with the tag "nan" after a real tag. *)
Definition concerns_example : DataFrame :=
  mkDataFrame 1 {[ "Improvement Feedback Categories" := [CStr "Fees, nan"] ]}.

(** An improvement text with a tag of two quotes. *)
Definition concerns_empty_tag : DataFrame :=
  mkDataFrame 1
    {[ "Improvement Feedback Categories" := [CStr ("Fees," ++ quoted "" ++ ",Food")] ]}.

(** Midnight of 2024-01-15, in nanoseconds. *)
Definition jan15 : Z := 1705276800 * 10 ^ 9.

(** The dates of the examples: the one text they use is read, any
    other text is refused; a number counts nanoseconds and is refused
    out of the range of a timestamp; a timestamp and a missing value
    stay what they are. *)
Definition example_read_date (c : cell) : res (option Z) :=
  match c with
  | CStr s => if String.eqb s "2024-01-15" then Ok (Some jan15) else Raise ValueError
  | CNum q =>
      if ((- 2 ^ 63 <? Qfloor q) && (Qfloor q <? 2 ^ 63))%Z
      then Ok (Some (Qfloor q)) else Raise ValueError
  | CTime t => Ok (Some t)
  | CNaN => Ok None
  end.

(** A runtime for the examples: it reads the one date they use and no
    text as a number. *)
Definition example_runtime : Runtime.
Proof.
  refine {| py_float := fun _ => None;
            py_repr := fun _ => "";
            read_dates := mapM example_read_date |}.
  intros v. induction v as [|c v IH]; intros d; simpl.
  - by intros [= <-].
  - destruct (example_read_date c); [|done].
    destruct (mapM example_read_date v) as [ys|]; [|done].
    intros [= <-]. simpl. by rewrite (IH ys).
Defined.

(** One survey response as [pd.read_csv] delivers it: every rating is
    the text "5. Strongly Agree". *)
Definition one_response_csv : DataFrame :=
  mkDataFrame 1
    (list_to_map
       [("Survey Response Date [GMT]", [CStr "2024-01-15"]);
        ("Survey Sent Date [GMT]", [CStr "2024-01-15"]);
        ("Start Date", [CStr "2024-01-15"]);
        ("City", [CStr "Pune"]);
        ("NPS", [CNum 8]);
        ("NPS Label", [CStr "Neutral"]);
        ("NPS Feedback Categories", [CStr "Teachers"]);
        ("Improvement Feedback Categories", [CNaN]);
        ("Response Month (YYYY-MM)", [CStr "2024-01"]);
        ("Ambience And Atmosphere", [CStr "5. Strongly Agree"]);
        ("Curriculum and Activities", [CStr "5. Strongly Agree"]);
        ("Environment And Facilities", [CStr "5. Strongly Agree"]);
        ("Information and Experience", [CStr "5. Strongly Agree"]);
        ("Questions", [CStr "5. Strongly Agree"]);
        ("Nutritious Meals", [CStr "5. Strongly Agree"]);
        ("Value For Money", [CStr "5. Strongly Agree"])]).


(** The same response once loaded: dates as timestamps, and a score
    column of 5 next to each rating column. *)
Definition one_response : DataFrame :=
  mkDataFrame 1
    (list_to_map
       [("Survey Response Date [GMT]", [CTime jan15]);
        ("Survey Sent Date [GMT]", [CTime jan15]);
        ("Start Date", [CTime jan15]);
        ("City", [CStr "Pune"]);
        ("NPS", [CNum 8]);
        ("NPS Label", [CStr "Neutral"]);
        ("NPS Feedback Categories", [CStr "Teachers"]);
        ("Improvement Feedback Categories", [CNaN]);
        ("Response Month (YYYY-MM)", [CStr "2024-01"]);
        ("Ambience And Atmosphere", [CStr "5. Strongly Agree"]);
        ("Curriculum and Activities", [CStr "5. Strongly Agree"]);
        ("Environment And Facilities", [CStr "5. Strongly Agree"]);
        ("Information and Experience", [CStr "5. Strongly Agree"]);
        ("Questions", [CStr "5. Strongly Agree"]);
        ("Nutritious Meals", [CStr "5. Strongly Agree"]);
        ("Value For Money", [CStr "5. Strongly Agree"]);
        ("Ambience And Atmosphere_Score", [CNum 5]);
        ("Curriculum and Activities_Score", [CNum 5]);
        ("Environment And Facilities_Score", [CNum 5]);
        ("Information and Experience_Score", [CNum 5]);
        ("Questions_Score", [CNum 5]);
        ("Nutritious Meals_Score", [CNum 5]);
        ("Value For Money_Score", [CNum 5])]).

(** The months of the specification's example, with the NPS values 8, 10
    and 6 and no rating at all. *)
Definition three_months : DataFrame :=
  mkDataFrame 3
    (list_to_map
       [("Response Month (YYYY-MM)", [CStr "2024-01"; CStr "2024-01"; CStr "2024-02"]);
        ("NPS", [CNum 8; CNum 10; CNum 6]);
        ("Ambience And Atmosphere", [CNaN; CNaN; CNaN]);
        ("Curriculum and Activities", [CNaN; CNaN; CNaN]);
        ("Value For Money", [CNaN; CNaN; CNaN])]).

(** The response of a parent who gave no rating, as read: the rating
    columns hold nothing. *)
Definition unrated_response_csv : DataFrame :=
  mkDataFrame 1
    (foldr (fun col m => <[col := [CNaN]]> m) (columns one_response_csv)
       rating_columns).

(** The same response once loaded: the score columns hold nothing
    either. *)
Definition unrated_response : DataFrame :=
  mkDataFrame 1
    (foldr (fun col m => <[col := [CNaN]]> (<[score_column col := [CNaN]]> m))
       (columns one_response) rating_columns).

(** One response in a table whose rating columns hold the number 5, next
    to score columns that hold it too. *)
Definition one_numeric_response : DataFrame :=
  mkDataFrame 1
    (foldr (fun col m => <[col := [CNum 5]]> m) (columns one_response)
       rating_columns).

(** Three responses whose eight correlated columns hold numbers, one
    value missing. *)
Definition numeric_responses : DataFrame :=
  mkDataFrame 3
    (list_to_map
       [("NPS", [CNum 8; CNum 10; CNum 6]);
        ("Ambience And Atmosphere", [CNum 4; CNum 5; CNum 3]);
        ("Curriculum and Activities", [CNum 4; CNum 5; CNaN]);
        ("Environment And Facilities", [CNum 5; CNum 5; CNum 5]);
        ("Information and Experience", [CNum 3; CNum 4; CNum 5]);
        ("Questions", [CNum 2; CNum 5; CNum 1]);
        ("Nutritious Meals", [CNum 4; CNum 4; CNum 2]);
        ("Value For Money", [CNum 1; CNum 5; CNum 3])]).

(** The number a cell of a numeric column stands for in the matrix that
    [corr] works on; nothing for a missing value. *)
Definition present (c : cell) : option Q :=
  match c with
  | CNum q => Some q
  | _ => None
  end.

(** The columns named exist and hold numbers or missing values only. *)
Definition numeric_columns (cols : list string) (df : DataFrame) : bool :=
  forallb (fun c =>
             match columns df !! c with
             | Some v => forallb is_num_or_na v
             | None => false
             end) cols.

(** The rows of two columns in which both values are present. *)
Definition complete_pairs (x y : list (option Q)) : list (Q * Q) :=
  flat_map (fun p => match p with (Some a, Some b) => [(a, b)] | _ => [] end)
    (combine x y).

(** Strictly before, in the order of group keys. *)
Definition key_lt (a b : cell) : Prop := key_compare a b = Lt.

(** The mean of one month in one column, as the table shows it. *)
Definition month_mean (k : cell) (keys v : Series) : cell :=
  round_cell 2 (nanmean (numbers (group_of k keys v))).

Section PearsonSums.
Local Open Scope Q_scope.

(** The sums of a list of complete rows. *)
Definition sum_x (ps : list (Q * Q)) : Q := Qsum (map fst ps).
Definition sum_y (ps : list (Q * Q)) : Q := Qsum (map snd ps).
Definition sum_xx (ps : list (Q * Q)) : Q := Qsum (map (fun p => fst p * fst p) ps).
Definition sum_yy (ps : list (Q * Q)) : Q := Qsum (map (fun p => snd p * snd p) ps).
Definition sum_xy (ps : list (Q * Q)) : Q := Qsum (map (fun p => fst p * snd p) ps).

(** The sum of the products of the deviations from [a] and from [b]. *)
Definition sum_dev (a b : Q) (ps : list (Q * Q)) : Q :=
  Qsum (map (fun p => (fst p - a) * (snd p - b)) ps).

Definition count (ps : list (Q * Q)) : Q := inject_Z (Z.of_nat (length ps)).

(** The textbook quantities of Pearson's correlation of complete rows:
    the means, and the sums of squared and mixed deviations from them. *)
Definition mean_x (ps : list (Q * Q)) : Q := sum_x ps / count ps.
Definition mean_y (ps : list (Q * Q)) : Q := sum_y ps / count ps.
Definition dev_xx (ps : list (Q * Q)) : Q :=
  Qsum (map (fun p => (fst p - mean_x ps) * (fst p - mean_x ps)) ps).
Definition dev_yy (ps : list (Q * Q)) : Q :=
  Qsum (map (fun p => (snd p - mean_y ps) * (snd p - mean_y ps)) ps).
Definition dev_xy (ps : list (Q * Q)) : Q :=
  Qsum (map (fun p => (fst p - mean_x ps) * (snd p - mean_y ps)) ps).

Definition some_pair (p : Q * Q) : option Q * option Q := (Some (fst p), Some (snd p)).

(** What the running sums of Welford's method stand for. *)
Definition welford_sums (st : welford) (ps : list (Q * Q)) : Prop :=
  nobs st = Z.of_nat (length ps) /\
  count ps * meanx st == sum_x ps /\
  count ps * meany st == sum_y ps /\
  ssqdm_x st == sum_xx ps - meanx st * sum_x ps /\
  ssqdm_y st == sum_yy ps - meany st * sum_y ps /\
  covxy st == sum_xy ps - meanx st * sum_y ps.

End PearsonSums.

(** A computation that hands back the frame it was given. *)
Definition readonly {A} (m : Py A) : Prop := forall df, frame (m df) = df.

(** On the diagonal the two columns are one: the three sums agree and
    are not negative. *)
Definition diagonal_state (st : welford) : Prop :=
  meanx st = meany st /\ ssqdm_x st = ssqdm_y st /\ covxy st = ssqdm_x st /\
  (0 <= nobs st)%Z /\ (0 <= ssqdm_x st)%Q.

(** ** Notions for the loader, the weeks, the tags and the filters *)

(** The day [d] is in the week that ends on the Sunday [w]. *)
Definition in_week (w d : Z) : bool := ((w - 6 <=? d) && (d <=? w))%Z.

(** The average score of a rating column as read: the mean of the scores
    of its recognized ratings. *)
Definition mean_score (v : Series) : cell := nanmean (numbers (map normalize v)).

(** The NPS score of a column of labels. *)
Definition nps_of_labels (label : Series) : Q :=
  Qround_digits 1
    ((ratio (occurrences "Promoter" label) (length label)
      - ratio (occurrences "Detractor" label) (length label)) * 100)%Q.

(** The number of times the text [s] is in a list of tokens. *)
Definition token_count (s : string) (l : list string) : nat :=
  length (filter (fun x => x = s) l).

(** The order of a frequency table: the larger count first. *)
Definition count_ge (a b : string * nat) : Prop := (snd b <= snd a)%nat.

(** The tags [get_top_concerns] counts in a column: those of its texts. *)
Definition concerns_in (v : Series) : list string :=
  flat_map (fun c => match c with
                     | CStr s => concern_tokens (strip is_dquote s)
                     | _ => []
                     end) v.

Definition is_text_or_na (c : cell) : bool :=
  match c with
  | CStr _ | CNaN => true
  | _ => false
  end.

Section CategoryTokens.
Context {rt : Runtime}.

(** The tokens [analyze_feedback_categories] collects from the two tag
    columns. *)
Definition categories_in (v1 v2 : Series) : list string :=
  (flat_map row_categories (fillna "" v1) ++ flat_map row_categories (fillna "" v2))%list.

End CategoryTokens.

(** The character is in the text. *)
Fixpoint has_char (c : ascii) (s : string) : bool :=
  match s with
  | EmptyString => false
  | String a s' => Ascii.eqb a c || has_char c s'
  end.

(** The first and the last character of a text, tested. *)
Definition starts_with (p : ascii -> bool) (s : string) : bool :=
  match s with
  | EmptyString => false
  | String c _ => p c
  end.

Fixpoint ends_with (p : ascii -> bool) (s : string) : bool :=
  match s with
  | EmptyString => false
  | String c EmptyString => p c
  | String _ s' => ends_with p s'
  end.

(** A tag as the aggregators keep it: no comma in it and no double quote
    around it. *)
Definition trimmed_tag (s : string) : Prop :=
  has_char comma s = false /\
  starts_with is_dquote s = false /\ ends_with is_dquote s = false.

(** The rows of a table: row [i] has the cell of each column at [i]. *)
Definition row (cols : gmap string Series) (i : nat) : gmap string cell :=
  omap (fun v : Series => v !! i) cols.

Definition rows (df : DataFrame) : list (gmap string cell) :=
  map (row (columns df)) (seq 0 (nrows df)).

(** The date test of the filter on one cell. *)
Definition date_cell_in (from to : Z) (c : cell) : bool :=
  match c with
  | CTime t => (from <=? day_of t)%Z && (day_of t <=? to)%Z
  | _ => false
  end.

(** A response is in the date range: it has a date, and its day is
    between the two dates of the range. A range that is not two dates
    excludes nothing. *)
Definition in_date_range (date_range : list Z) (r : gmap string cell) : bool :=
  match date_range with
  | [from; to] =>
      match r !! "Survey Response Date [GMT]" with
      | Some c => date_cell_in from to c
      | None => false
      end
  | _ => true
  end.

(** A response is of a selected city; an empty selection excludes
    nothing. *)
Definition in_cities (selected_cities : list cell) (r : gmap string cell) : bool :=
  match selected_cities with
  | [] => true
  | _ =>
      match r !! "City" with
      | Some c => existsb (key_eqb c) selected_cities
      | None => false
      end
  end.

(** Four responses over two months and two cities, one of them without
    a response date: a Monday, the Wednesday of the week after, and a
    day a month later. *)
Definition four_dates : Series :=
  [CTime jan15; CTime (jan15 + 9 * day_ns); CNaN; CTime (jan15 + 30 * day_ns)].

Definition four_months : Series :=
  [CStr "2024-01"; CStr "2024-01"; CStr "2024-01"; CStr "2024-02"].

Definition four_labels : Series :=
  [CStr "Promoter"; CStr "Detractor"; CStr "Neutral"; CStr "Promoter"].

Definition four_nps_tags : Series :=
  [CStr "Teachers, Food"; CStr "Fees"; CNaN; CStr "Teachers"].

Definition four_improvement_tags : Series :=
  [CStr "Fees, Food"; CNaN; CStr "Fees"; CStr ""].

Definition four_responses : DataFrame :=
  mkDataFrame 4
    (list_to_map
       [("Survey Response Date [GMT]", four_dates);
        ("City", [CStr "Pune"; CStr "Mumbai"; CStr "Pune"; CStr "Pune"]);
        ("NPS Label", four_labels);
        ("Response Month (YYYY-MM)", four_months);
        ("NPS Feedback Categories", four_nps_tags);
        ("Improvement Feedback Categories", four_improvement_tags)]).

(** The day of 2024-01-15. *)
Definition jan15_day : Z := 19737.

(** The weeks of the four responses: the Sundays from 2024-01-21 to
    2024-02-18, two of them without a response. *)
Definition four_weeks : list (Z * nat) :=
  [((19743 * day_ns)%Z, 1%nat); ((19750 * day_ns)%Z, 1%nat); ((19757 * day_ns)%Z, 0%nat);
   ((19764 * day_ns)%Z, 0%nat); ((19771 * day_ns)%Z, 1%nat)].

(** * Properties *)

(** ** Running a computation *)

Lemma getitem_some (df : DataFrame) col v :
  columns df !! col = Some v -> getitem col df = (Ok v, df).
Proof. intros H. unfold getitem. by rewrite H. Qed.

Lemma getitem_none (df : DataFrame) col :
  columns df !! col = None -> getitem col df = (Raise KeyError, df).
Proof. intros H. unfold getitem. by rewrite H. Qed.

Lemma getitem_frame (df : DataFrame) col : frame (getitem col df) = df.
Proof. unfold getitem. by destruct (columns df !! col). Qed.

(** ** Counting labels *)

Lemma cell_eq_str_spec s c : cell_eq_str s c = true <-> c = CStr s.
Proof.
  destruct c as [t| | |]; simpl; try (split; [discriminate | discriminate]).
  rewrite String.eqb_eq. split; [by intros -> | by intros [= ->]].
Qed.

Lemma bool_sum_occurrences v s :
  bool_sum (series_eq v s) = Z.of_nat (occurrences s v).
Proof.
  unfold bool_sum, series_eq, occurrences. f_equal.
  induction v as [|c v IH]; [done|].
  rewrite filter_cons. simpl.
  destruct (cell_eq_str s c) eqn:E.
  - apply cell_eq_str_spec in E. rewrite decide_True by done.
    destruct (Bool.bool_dec true true); [|done]. simpl. by rewrite IH.
  - assert (c <> CStr s) as Hne.
    { intros Hc. apply cell_eq_str_spec in Hc. congruence. }
    rewrite decide_False by done.
    destruct (Bool.bool_dec false true); [done|]. by rewrite IH.
Qed.

Lemma occurrences_le s v : (occurrences s v <= length v)%nat.
Proof. apply length_filter. Qed.

Lemma occurrences_buckets v :
  (occurrences "Promoter" v + occurrences "Neutral" v
   + occurrences "Detractor" v <= length v)%nat.
Proof.
  unfold occurrences. induction v as [|c v IH]; [done|].
  rewrite !filter_cons.
  repeat case_decide; simplify_eq; simpl; lia.
Qed.

Lemma occurrences_all_recognized v :
  Forall recognized v ->
  (occurrences "Promoter" v + occurrences "Neutral" v
   + occurrences "Detractor" v = length v)%nat.
Proof.
  unfold occurrences. induction 1 as [|c v Hc _ IH]; [done|].
  rewrite !filter_cons.
  destruct Hc as [->|[->| ->]]; repeat case_decide; simplify_eq; simpl; lia.
Qed.

Lemma occurrences_unrecognized v :
  Exists (fun c => ~ recognized c) v ->
  (occurrences "Promoter" v + occurrences "Neutral" v
   + occurrences "Detractor" v < length v)%nat.
Proof.
  induction 1 as [c v Hc|c v _ IH].
  - pose proof (occurrences_buckets v) as Hle.
    unfold occurrences in *. rewrite !filter_cons.
    repeat case_decide; simplify_eq; simpl;
      try lia; exfalso; apply Hc; unfold recognized; auto.
  - unfold occurrences in *. rewrite !filter_cons.
    repeat case_decide; simplify_eq; simpl; lia.
Qed.

(** ** Ratios of counts *)

Lemma inject_nat_pos t : (0 < t)%nat -> (0 < inject_Z (Z.of_nat t))%Q.
Proof. intros H. change 0%Q with (inject_Z 0). rewrite <- Zlt_Qlt. lia. Qed.

Lemma ratio_add a b t : (ratio a t + ratio b t == ratio (a + b) t)%Q.
Proof.
  unfold ratio. rewrite Nat2Z.inj_add, inject_Z_plus.
  unfold Qdiv. ring.
Qed.

Lemma ratio_nonneg a t : (0 <= ratio a t)%Q.
Proof.
  unfold ratio, Qdiv. apply Qmult_le_0_compat.
  - change 0%Q with (inject_Z 0). rewrite <- Zle_Qle. lia.
  - apply Qinv_le_0_compat. change 0%Q with (inject_Z 0).
    rewrite <- Zle_Qle. lia.
Qed.

Lemma ratio_le_1 a t : (0 < t)%nat -> (a <= t)%nat -> (ratio a t <= 1)%Q.
Proof.
  intros Ht Ha. unfold ratio. apply Qle_shift_div_r.
  - by apply inject_nat_pos.
  - rewrite Qmult_1_l, <- Zle_Qle. lia.
Qed.

Lemma ratio_lt_1 a t : (a < t)%nat -> (ratio a t < 1)%Q.
Proof.
  intros Ha. unfold ratio. apply Qlt_shift_div_r.
  - apply inject_nat_pos. lia.
  - rewrite Qmult_1_l, <- Zlt_Qlt. lia.
Qed.

Lemma ratio_same t : (0 < t)%nat -> (ratio t t == 1)%Q.
Proof.
  intros Ht. unfold ratio, Qdiv. apply Qmult_inv_r.
  intros H. pose proof (inject_nat_pos t Ht) as Hp. rewrite H in Hp.
  by apply Qlt_irrefl in Hp.
Qed.

Lemma np_divide_ratio a t :
  (0 < t)%nat -> np_divide (Z.of_nat a) (Z.of_nat t) = Fin (ratio a t).
Proof.
  intros Ht. unfold np_divide.
  destruct (Z.eqb_spec (Z.of_nat t) 0) as [E|_]; [lia|done].
Qed.

(** ** The NPS distribution *)

(** What [get_nps_distribution] computes on a frame that has the label
    column and at least one row. *)
Lemma get_nps_distribution_nonempty df label :
  wf df -> (0 < nrows df)%nat ->
  columns df !! "NPS Label" = Some label ->
  get_nps_distribution df =
    (Ok {| Promoters := Fin (ratio (occurrences "Promoter" label) (nrows df) * 100);
           Passives := Fin (ratio (occurrences "Neutral" label) (nrows df) * 100);
           Detractors := Fin (ratio (occurrences "Detractor" label) (nrows df) * 100) |},
     df).
Proof.
  intros Hwf Hn Hl. unfold get_nps_distribution, bind, len, ret.
  rewrite !(getitem_some _ _ _ Hl), !bool_sum_occurrences.
  by rewrite !np_divide_ratio.
Qed.

(** What it computes on a frame that has the label column and no row. *)
Lemma get_nps_distribution_empty df label :
  wf df -> nrows df = 0%nat ->
  columns df !! "NPS Label" = Some label ->
  get_nps_distribution df = (Ok (mkDist NaN NaN NaN), df).
Proof.
  intros Hwf Hn Hl.
  pose proof (Hwf _ _ Hl) as Hlen. simpl in Hlen. rewrite Hn in Hlen.
  apply nil_length_inv in Hlen. subst label.
  unfold get_nps_distribution, bind, len, ret.
  rewrite !(getitem_some _ _ _ Hl), Hn. reflexivity.
Qed.

(** C10. In the NPS distribution aggregator a row whose label is none of
    Promoter, Neutral, Detractor counts in the total but in no bucket: on
    a non-empty record set each percentage is 100 times the count of its
    exact label over the row count, and the three sum to strictly less
    than 100 as soon as one row has an unrecognized label. *)
Theorem nps_distribution_exact_labels df label :
  wf df -> (0 < nrows df)%nat ->
  columns df !! "NPS Label" = Some label ->
  exists p n d : Q,
    value (get_nps_distribution df) = Ok (mkDist (Fin p) (Fin n) (Fin d)) /\
    (p == 100 * ratio (occurrences "Promoter" label) (nrows df))%Q /\
    (n == 100 * ratio (occurrences "Neutral" label) (nrows df))%Q /\
    (d == 100 * ratio (occurrences "Detractor" label) (nrows df))%Q /\
    (Exists (fun c => ~ recognized c) label -> (p + n + d < 100)%Q).
Proof.
  intros Hwf Hn Hl.
  rewrite (get_nps_distribution_nonempty df label Hwf Hn Hl).
  eexists _, _, _. split; [reflexivity|].
  repeat split; try ring.
  intros Hex. apply occurrences_unrecognized in Hex.
  rewrite <- (Hwf _ _ Hl).
  set (a := occurrences "Promoter" label) in *.
  set (b := occurrences "Neutral" label) in *.
  set (c := occurrences "Detractor" label) in *.
  pose proof (ratio_add a b (length label)) as H1.
  pose proof (ratio_add (a + b) c (length label)) as H2.
  pose proof (ratio_lt_1 (a + b + c) (length label) Hex) as H3.
  lra.
Qed.

Ltac solve_wf := apply (@bool_decide_unpack _ (wf_dec _)); vm_compute; exact I.

Lemma nps_distribution_exact_labels_witness :
  exists p n d : Q,
    value (get_nps_distribution labels_with_unknown)
      = Ok (mkDist (Fin p) (Fin n) (Fin d)) /\
    (p == 100 * ratio 1 2)%Q /\ (n == 100 * ratio 0 2)%Q /\
    (d == 100 * ratio 0 2)%Q /\
    (Exists (fun c => ~ recognized c) [CStr "Promoter"; CStr "Passive"] ->
     (p + n + d < 100)%Q).
Proof.
  apply (nps_distribution_exact_labels labels_with_unknown
           [CStr "Promoter"; CStr "Passive"]).
  - solve_wf.
  - simpl. lia.
  - reflexivity.
Defined.

(** C2. On a record set with more than zero rows whose labels are of
    the vocabulary of the label, Promoter, Neutral and Detractor, the
    call succeeds, each of the three percentages is in [0,100] and the
    three sum to 100: exactly so in the arithmetic of the model, which
    leaves out the rounding of floats the claim allows for. *)
Theorem nps_distribution_percentages df label :
  wf df -> (0 < nrows df)%nat ->
  columns df !! "NPS Label" = Some label ->
  Forall recognized label ->
  exists p n d : Q,
    value (get_nps_distribution df) = Ok (mkDist (Fin p) (Fin n) (Fin d)) /\
    (0 <= p <= 100)%Q /\ (0 <= n <= 100)%Q /\ (0 <= d <= 100)%Q /\
    (p + n + d == 100)%Q.
Proof.
  intros Hwf Hn Hl Hall.
  rewrite (get_nps_distribution_nonempty df label Hwf Hn Hl).
  eexists _, _, _. split; [reflexivity|].
  pose proof (Hwf _ _ Hl) as Hlen. simpl in Hlen.
  rewrite <- Hlen in *.
  apply occurrences_all_recognized in Hall.
  set (a := occurrences "Promoter" label) in *.
  set (b := occurrences "Neutral" label) in *.
  set (c := occurrences "Detractor" label) in *.
  pose proof (ratio_nonneg a (length label)).
  pose proof (ratio_nonneg b (length label)).
  pose proof (ratio_nonneg c (length label)).
  pose proof (ratio_le_1 a _ Hn (occurrences_le _ _)).
  pose proof (ratio_le_1 b _ Hn (occurrences_le _ _)).
  pose proof (ratio_le_1 c _ Hn (occurrences_le _ _)).
  pose proof (ratio_add a b (length label)) as Hab.
  pose proof (ratio_add (a + b) c (length label)) as Habc.
  rewrite Hall in Habc.
  pose proof (ratio_same _ Hn).
  repeat split; lra.
Qed.

Lemma nps_distribution_percentages_witness :
  exists p n d : Q,
    value (get_nps_distribution labels_one_in_three)
      = Ok (mkDist (Fin p) (Fin n) (Fin d)) /\
    (0 <= p <= 100)%Q /\ (0 <= n <= 100)%Q /\ (0 <= d <= 100)%Q /\
    (p + n + d == 100)%Q.
Proof.
  apply (nps_distribution_percentages labels_one_in_three
           [CStr "Promoter"; CStr "Neutral"; CStr "Neutral"]).
  - solve_wf.
  - simpl. lia.
  - reflexivity.
  - repeat (constructor; [unfold recognized; auto|]). constructor.
Defined.

(** C3, as the code has it. With zero rows the aggregator does not
    raise and leaves the table alone, and the division by the row count
    is not guarded: each of the three percentages is NaN, which is what
    the division of a zero count by the zero total gives. *)
Theorem nps_distribution_no_rows df label :
  wf df -> nrows df = 0%nat ->
  columns df !! "NPS Label" = Some label ->
  value (get_nps_distribution df) = Ok (mkDist NaN NaN NaN) /\
  frame (get_nps_distribution df) = df /\
  np_divide 0 (Z.of_nat (nrows df)) = NaN.
Proof.
  intros Hwf Hn Hl.
  rewrite (get_nps_distribution_empty df label Hwf Hn Hl), Hn. done.
Qed.

Lemma nps_distribution_no_rows_witness :
  value (get_nps_distribution labels_no_rows) = Ok (mkDist NaN NaN NaN) /\
  frame (get_nps_distribution labels_no_rows) = labels_no_rows /\
  np_divide 0 (Z.of_nat (nrows labels_no_rows)) = NaN.
Proof.
  apply (nps_distribution_no_rows labels_no_rows []).
  - solve_wf.
  - reflexivity.
  - reflexivity.
Defined.

(** C3 as stated fails: on the table without rows no percentage is a
    number, zero or other. *)
Lemma nps_distribution_empty_counterexample :
  nrows labels_no_rows = 0%nat /\
  value (get_nps_distribution labels_no_rows) = Ok (mkDist NaN NaN NaN) /\
  forall p n d : Q,
    value (get_nps_distribution labels_no_rows)
      <> Ok (mkDist (Fin p) (Fin n) (Fin d)).
Proof.
  split; [done|]. split; [by vm_compute|].
  intros p n d H. vm_compute in H. discriminate H.
Qed.

(** ** Rounding *)

#[global] Instance rint_comp : Proper (Qeq ==> eq) rint.
Proof.
  intros q q' H. unfold rint.
  rewrite (Qfloor_comp _ _ H).
  assert ((q - inject_Z (Qfloor q') ?= 1 # 2) = (q' - inject_Z (Qfloor q') ?= 1 # 2))%Q
    as ->; [|done].
  apply Qcompare_comp; [by rewrite H | reflexivity].
Qed.

#[global] Instance Qround_digits_comp n : Proper (Qeq ==> Qeq) (Qround_digits n).
Proof.
  intros q q' H. unfold Qround_digits.
  assert (rint (q * inject_Z (10 ^ Z.of_nat n)) = rint (q' * inject_Z (10 ^ Z.of_nat n)))
    as ->; [|reflexivity].
  apply rint_comp. by rewrite H.
Qed.

Lemma rint_floor_or_next q : rint q = Qfloor q \/ rint q = (Qfloor q + 1)%Z.
Proof.
  unfold rint. destruct (_ ?= _)%Q; [destruct (Z.even _)|..]; auto.
Qed.

(** Rounding does not cross an integer. *)
Lemma rint_ge_int q z : (inject_Z z <= q)%Q -> (z <= rint q)%Z.
Proof.
  intros H. apply Qfloor_resp_le in H. rewrite Qfloor_Z in H.
  destruct (rint_floor_or_next q) as [-> | ->]; lia.
Qed.

Lemma rint_le_int q z : (q <= inject_Z z)%Q -> (rint q <= z)%Z.
Proof.
  intros H.
  pose proof (Qfloor_resp_le _ _ H) as Hf. rewrite Qfloor_Z in Hf.
  unfold rint.
  destruct (q - inject_Z (Qfloor q) ?= 1 # 2)%Q eqn:E; [destruct (Z.even _)|..];
    try lia.
  - apply Qeq_alt in E.
    assert (inject_Z (Qfloor q) < inject_Z z)%Q as Hlt by lra.
    rewrite <- Zlt_Qlt in Hlt. lia.
  - apply Qgt_alt in E.
    assert (inject_Z (Qfloor q) < inject_Z z)%Q as Hlt by lra.
    rewrite <- Zlt_Qlt in Hlt. lia.
Qed.

Lemma Qround_digits_1_bounds q :
  (-100 <= q <= 100)%Q -> (-100 <= Qround_digits 1 q <= 100)%Q.
Proof.
  intros [Hl Hu]. unfold Qround_digits.
  change (inject_Z (10 ^ Z.of_nat 1)) with 10%Q.
  assert (-1000 <= rint (q * 10) <= 1000)%Z as [Hl' Hu'].
  { split; [apply rint_ge_int | apply rint_le_int];
      change (inject_Z (-1000)) with (-1000)%Q;
      change (inject_Z 1000) with 1000%Q; lra. }
  rewrite Zle_Qle in Hl', Hu'.
  change (inject_Z (-1000)) with (-1000)%Q in Hl'.
  change (inject_Z 1000) with 1000%Q in Hu'.
  split.
  - apply Qle_shift_div_l; [reflexivity | lra].
  - apply Qle_shift_div_r; [reflexivity | lra].
Qed.

(** ** The NPS score *)

Lemma series_eq_length v s : length (series_eq v s) = length v.
Proof. apply length_map. Qed.

Lemma calculate_nps_score_run df label :
  columns df !! "NPS Label" = Some label ->
  calculate_nps_score df =
    (Ok (round
           (fmul
              (fsub
                 (np_divide (Z.of_nat (occurrences "Promoter" label))
                    (Z.of_nat (length label)))
                 (np_divide (Z.of_nat (occurrences "Detractor" label))
                    (Z.of_nat (length label))))
              (Fin 100)) 1),
     df).
Proof.
  intros Hl. unfold calculate_nps_score, bind, ret, bool_mean.
  by rewrite !(getitem_some _ _ _ Hl), !bool_sum_occurrences, !series_eq_length.
Qed.







(** ** Loading and the rating scores *)

Lemma rating_map_lookup s n :
  rating_map !! s = Some n ->
  s ∈ canonical_ratings /\ (1 <= n <= 5)%Z.
Proof.
  unfold rating_map, canonical_ratings. simpl.
  intros H.
  repeat (apply lookup_insert_Some in H as [[<- <-]|[_ H]];
          [split; [set_solver | lia]|]).
  by rewrite lookup_empty in H.
Qed.

Lemma normalize_cases c :
  normalize c = CNaN \/
  exists s n, c = CStr s /\ rating_map !! s = Some n /\ normalize c = CNum (inject_Z n).
Proof.
  destruct c as [s| | |]; simpl; auto.
  unfold normalize, dict_get.
  destruct (rating_map !! s) as [n|] eqn:E; [right; eauto | by left].
Qed.

Section LoadingFacts.
Context {rt : Runtime}.

Lemma for_each_scores cols :
  NoDup (cols ++ (score_column <$> cols)) ->
  forall df df',
    for_each cols score_step tt df = (Ok tt, df') ->
    nrows df' = nrows df /\
    (forall k, k ∉ score_column <$> cols -> columns df' !! k = columns df !! k) /\
    (forall c, c ∈ cols ->
       exists v, columns df !! c = Some v /\
                 columns df' !! score_column c = Some (map normalize v)).
Proof.
  induction cols as [|c0 rest IH]; intros Hnd df df' Hrun.
  - simpl in Hrun. injection Hrun as <-.
    split; [done|]. split; [done|]. intros c Hc. by apply elem_of_nil in Hc.
  - simpl in Hrun. unfold bind at 1 in Hrun. unfold score_step at 1 in Hrun.
    unfold bind at 1 in Hrun. unfold getitem at 1 in Hrun.
    destruct (columns df !! c0) as [v0|] eqn:E0; [|done].
    simpl in Hrun.
    rewrite fmap_cons in Hnd.
    apply NoDup_app in Hnd as (H1 & H2 & H3).
    apply NoDup_cons in H1 as [_ H1]. apply NoDup_cons in H3 as [Hfresh H3].
    assert (NoDup (rest ++ (score_column <$> rest))) as Hnd'.
    { apply NoDup_app. repeat split; [done| |done].
      intros x Hx Hx'. apply (H2 x); set_solver. }
    assert (forall c, c ∈ c0 :: rest -> c <> score_column c0) as Hraw.
    { intros c Hc ->. apply (H2 _ Hc). set_solver. }
    destruct (IH Hnd' _ _ Hrun) as (Hn & Hframe & Hscores). simpl in *.
    split; [done|]. split.
    + intros k Hk. rewrite Hframe by set_solver.
      apply lookup_insert_ne. set_solver.
    + intros c Hc. apply elem_of_cons in Hc as [->|Hc].
      * exists v0. split; [done|].
        rewrite Hframe by done. apply lookup_insert_eq.
      * destruct (Hscores c Hc) as (v & Hv & Hs). exists v. split; [|done].
        rewrite lookup_insert_ne in Hv; [done|].
        intros Heq. apply (Hraw c); [set_solver | done].
Qed.

(** The loop of the scores succeeds on any contents: only a missing
    rating column stops it. *)
Lemma for_each_scores_total cols :
  forall df,
    (forall c, c ∈ cols -> is_Some (columns df !! c)) ->
    exists df', for_each cols score_step tt df = (Ok tt, df').
Proof.
  induction cols as [|c0 rest IH]; intros df Hall; [by eexists|].
  simpl. unfold bind at 1. unfold score_step at 1. unfold bind at 1.
  destruct (Hall c0) as [v0 E0]; [set_solver|].
  rewrite (getitem_some _ _ _ E0). simpl.
  apply IH. intros c Hc. simpl.
  destruct (decide (score_column c0 = c)) as [<-|Hne].
  - rewrite lookup_insert_eq. eauto.
  - rewrite lookup_insert_ne by done. apply Hall. set_solver.
Qed.

Lemma for_each_dates cols :
  forall df df',
    for_each cols date_step tt df = (Ok tt, df') ->
    nrows df' = nrows df /\
    (forall k, k ∉ cols -> columns df' !! k = columns df !! k).
Proof.
  induction cols as [|c0 rest IH]; intros df df' Hrun.
  - simpl in Hrun. by injection Hrun as <-.
  - simpl in Hrun. unfold bind at 1 in Hrun. unfold date_step at 1 in Hrun.
    unfold bind at 1 in Hrun. unfold getitem at 1 in Hrun.
    destruct (columns df !! c0) as [v0|] eqn:E0; [|done].
    unfold bind at 1 in Hrun. unfold lift at 1 in Hrun.
    destruct (to_datetime v0) as [d|e]; [|done]. simpl in Hrun.
    destruct (IH _ _ Hrun) as [Hn Hframe]. simpl in *.
    split; [done|]. intros k Hk.
    rewrite Hframe by set_solver. apply lookup_insert_ne. set_solver.
Qed.

(** After a successful load every rating column is as it was read and
    its score column holds the score of each of its values. *)
Lemma load_scores df df' :
  load_and_process_data df = (Ok tt, df') ->
  forall col, col ∈ rating_columns ->
    exists v, columns df !! col = Some v /\
              columns df' !! col = Some v /\
              columns df' !! score_column col = Some (map normalize v).
Proof.
  unfold load_and_process_data. unfold bind at 1.
  destruct (convert_dates df) as [[[]|e] df1] eqn:Hd; [|done].
  intros Hs col Hcol.
  destruct (for_each_dates _ _ _ Hd) as [_ Hframe1].
  assert (NoDup (rating_columns ++ (score_column <$> rating_columns))) as Hnd.
  { apply (bool_decide_unpack _). by vm_compute. }
  destruct (for_each_scores _ Hnd _ _ Hs) as (_ & Hframe2 & Hscores).
  destruct (Hscores col Hcol) as (v & Hv & Hsc).
  assert (col ∉ date_columns) as Hnd1.
  { intros Hin. revert Hcol Hin. unfold rating_columns, date_columns.
    rewrite !elem_of_cons, !elem_of_nil. intros H1 H2.
    repeat (destruct H1 as [->|H1]; [repeat (destruct H2 as [H2|H2]; [done|]); done|]).
    done. }
  assert (col ∉ score_column <$> rating_columns) as Hnd2.
  { intros Hin. apply NoDup_app in Hnd as (_ & H2 & _). by apply (H2 col). }
  exists v. rewrite <- (Hframe1 col Hnd1). split; [done|]. split; [|done].
  by rewrite Hframe2.
Qed.

End LoadingFacts.

(** C6. The rating normalization maps each of the five canonical
    phrases to its score, 5 for "5. Strongly Agree" down to 1 for
    "1. Strongly Disagree", and every other value, the missing value, the
    empty text and "garbage" among them, to the absent value; it is
    defined on every value, it never yields zero, and these are the
    values the loader writes in the score columns, whatever the rating
    columns hold. *)
Theorem rating_normalization :
  normalize (CStr "5. Strongly Agree") = CNum 5 /\
  normalize (CStr "4. Agree") = CNum 4 /\
  normalize (CStr "3. Neither Agree nor Disagree") = CNum 3 /\
  normalize (CStr "2. Disagree") = CNum 2 /\
  normalize (CStr "1. Strongly Disagree") = CNum 1 /\
  normalize CNaN = CNaN /\
  normalize (CStr "") = CNaN /\
  normalize (CStr "garbage") = CNaN /\
  (forall c, (forall s, c = CStr s -> s ∉ canonical_ratings) -> normalize c = CNaN) /\
  (forall c q, normalize c = CNum q -> ~ (q == 0)%Q) /\
  (forall (rt : Runtime) df,
     (forall col, col ∈ rating_columns -> is_Some (columns df !! col)) ->
     exists df', add_scores df = (Ok tt, df')) /\
  (forall (rt : Runtime) df df',
     load_and_process_data df = (Ok tt, df') ->
     forall col, col ∈ rating_columns ->
       exists v, columns df !! col = Some v /\
                 columns df' !! col = Some v /\
                 columns df' !! score_column col = Some (map normalize v)).
Proof.
  repeat (split; [by vm_compute|]).
  split; [|split; [|split]].
  - intros c Hc. destruct (normalize_cases c) as [H|(s & n & -> & Hs & _)]; [done|].
    apply rating_map_lookup in Hs as [Hs _]. by destruct (Hc s eq_refl).
  - intros c q Hq Hz.
    destruct (normalize_cases c) as [H|(s & n & -> & Hs & Hn)]; [congruence|].
    apply rating_map_lookup in Hs as [_ Hs].
    rewrite Hn in Hq. injection Hq as <-.
    unfold Qeq in Hz. simpl in Hz. lia.
  - intros rt df Hall. by apply (for_each_scores_total rating_columns).
  - intros rt df df'. apply load_scores.
Qed.

(** ** Category tags *)

(** C5, the code on the specification's example: the token after the
    comma keeps its leading space, so the table counts " b" and has no
    entry for "b". *)
Theorem feedback_categories_keep_whitespace (rt : Runtime) :
  value (feedback_category_counts tags_example)
    = Ok [("a", 1%nat); (" b", 1%nat); ("c", 1%nat)] /\
  (forall t, value (feedback_category_counts tags_example) = Ok t ->
             count_of "b" t = 0%nat /\ count_of " b" t = 1%nat).
Proof.
  assert (value (feedback_category_counts tags_example)
          = Ok [("a", 1%nat); (" b", 1%nat); ("c", 1%nat)]) as H
    by (by vm_compute).
  split; [done|]. intros t Ht. rewrite H in Ht. injection Ht as <-.
  by vm_compute.
Qed.

(** The test for "nan" is made on the token as split, before any
    stripping, and the last filter compares case: " nan" and "NaN" are
    counted, and so is the empty token left of a pair of quotes. *)
Lemma feedback_categories_count_nan_variants (rt : Runtime) :
  value (feedback_category_counts tags_nan_variants)
    = Ok [("Fees", 1%nat); (" nan", 1%nat); ("NaN", 1%nat); ("Food", 1%nat);
          ("", 1%nat)].
Proof. by vm_compute. Qed.

(** C7, the code on a text that lists "nan" after a real tag: the tag
    "nan" is counted. *)
Theorem top_concerns_count_nan :
  value (get_top_concerns concerns_example)
    = Ok [("Fees", 1%nat); ("nan", 1%nat)] /\
  (forall t, value (get_top_concerns concerns_example) = Ok t ->
             count_of "nan" t = 1%nat).
Proof.
  split; [by vm_compute|]. intros t Ht. vm_compute in Ht.
  injection Ht as <-. by vm_compute.
Qed.

(** The same text goes through the two aggregators differently, and
    [get_top_concerns] counts an empty token too. *)
Lemma top_concerns_other_rule (rt : Runtime) :
  row_categories (CStr "Fees, nan") = ["Fees"; " nan"] /\
  concern_tokens "Fees, nan" = ["Fees"; "nan"] /\
  value (get_top_concerns concerns_empty_tag)
    = Ok [("Fees", 1%nat); ("", 1%nat); ("Food", 1%nat)].
Proof. by vm_compute. Qed.

(** ** A loaded response *)

Lemma one_response_is_loaded :
  @load_and_process_data example_runtime one_response_csv = (Ok tt, one_response).
Proof. by vm_compute. Qed.

Lemma one_response_wf : wf one_response.
Proof. solve_wf. Qed.

(** On the loaded response the means of the score columns are there to
    be taken: [create_satisfaction_heatmap] reads them. *)
Lemma satisfaction_heatmap_reads_scores :
  value (create_satisfaction_heatmap one_response)
    = Ok (map (fun m => (m, CNum 5)) rating_columns).
Proof. by vm_compute. Qed.

(** C4, the code on a loaded response: the four columns averaged are
    NPS and the three rating columns as read, which hold the rating
    texts, not the three score columns, and the mean of a text raises. *)
Theorem monthly_trends_average_rating_texts :
  @load_and_process_data example_runtime one_response_csv = (Ok tt, one_response) /\
  trend_metrics
    = ["NPS"; "Ambience And Atmosphere"; "Curriculum and Activities";
       "Value For Money"] /\
  columns one_response !! "Ambience And Atmosphere"
    = Some [CStr "5. Strongly Agree"] /\
  columns one_response !! score_column "Ambience And Atmosphere" = Some [CNum 5] /\
  value (create_monthly_trends one_response) = Raise TypeError.
Proof. by vm_compute. Qed.

(** Where the three rating columns hold numbers or nothing, the months
    come out in ascending order with the means rounded to two decimals:
    the NPS means of the specification's example are 9 and 6. *)
Lemma monthly_trends_three_months :
  value (create_monthly_trends three_months)
    = Ok [(CStr "2024-01",
           [("NPS", CNum (900 # 100)); ("Ambience And Atmosphere", CNaN);
            ("Curriculum and Activities", CNaN); ("Value For Money", CNaN)]);
          (CStr "2024-02",
           [("NPS", CNum (600 # 100)); ("Ambience And Atmosphere", CNaN);
            ("Curriculum and Activities", CNaN); ("Value For Money", CNaN)])].
Proof. by vm_compute. Qed.

(** ** Monthly trends on numeric columns *)

Lemma ascii_compare_lt_trans a b c :
  Ascii.compare a b = Lt -> Ascii.compare b c = Lt -> Ascii.compare a c = Lt.
Proof.
  unfold Ascii.compare. rewrite !N.compare_lt_iff. lia.
Qed.

Lemma string_compare_lt_trans s1 :
  forall s2 s3,
    String.compare s1 s2 = Lt -> String.compare s2 s3 = Lt ->
    String.compare s1 s3 = Lt.
Proof.
  induction s1 as [|c1 s1 IH]; intros [|c2 s2] [|c3 s3]; simpl; try done.
  destruct (Ascii.compare c1 c2) eqn:E12; try done;
    destruct (Ascii.compare c2 c3) eqn:E23; try done; intros H12 H23.
  - apply Ascii.compare_eq_iff in E12, E23. subst.
    assert (Ascii.compare c3 c3 = Eq) as ->.
    { unfold Ascii.compare. apply N.compare_refl. }
    by apply (IH s2).
  - apply Ascii.compare_eq_iff in E12. subst. by rewrite E23.
  - apply Ascii.compare_eq_iff in E23. subst. by rewrite E12.
  - by rewrite (ascii_compare_lt_trans _ _ _ E12 E23).
Qed.

Lemma key_compare_antisym a b : key_compare a b = CompOpp (key_compare b a).
Proof.
  destruct a, b; simpl; try done.
  - apply String.compare_antisym.
  - symmetry. apply Qcompare_antisym.
  - apply Z.compare_antisym.
Qed.

Lemma key_lt_trans a b c : key_lt a b -> key_lt b c -> key_lt a c.
Proof.
  unfold key_lt. destruct a, b, c; simpl; try done.
  - apply string_compare_lt_trans.
  - rewrite <- !Qlt_alt. apply Qlt_trans.
  - rewrite !Z.compare_lt_iff. lia.
Qed.

Lemma insert_key_elem k l x : x ∈ insert_key k l -> x = k \/ x ∈ l.
Proof.
  induction l as [|h t IH]; simpl.
  - intros ->%list_elem_of_singleton. by left.
  - destruct (key_compare k h); rewrite ?elem_of_cons; [auto|tauto|].
    intros [->|H]; [auto|]. destruct (IH H); auto.
Qed.

Lemma insert_key_sorted k l :
  StronglySorted key_lt l -> StronglySorted key_lt (insert_key k l).
Proof.
  induction 1 as [|h t Ht IH Hh]; simpl.
  - repeat constructor.
  - destruct (key_compare k h) eqn:E.
    + by constructor.
    + constructor; [by constructor|]. constructor; [done|].
      eapply Forall_impl; [exact Hh|]. intros x Hx. by apply (key_lt_trans k h x).
    + constructor; [done|]. apply Forall_forall. intros x Hx.
      apply insert_key_elem in Hx as [->|Hx].
      * unfold key_lt. by rewrite key_compare_antisym, E.
      * rewrite Forall_forall in Hh. by apply Hh.
Qed.

Lemma group_keys_sorted keys : StronglySorted key_lt (group_keys keys).
Proof.
  unfold group_keys.
  assert (forall acc, StronglySorted key_lt acc ->
            StronglySorted key_lt
              (fold_left (fun acc k => if isna k then acc else insert_key k acc) keys acc))
    as H; [|apply H; constructor].
  induction keys as [|k keys IH]; intros acc Hacc; [done|]. simpl.
  apply IH. destruct (isna k); [done|]. by apply insert_key_sorted.
Qed.

Lemma insert_key_keeps k l x : x ∈ l -> x ∈ insert_key k l.
Proof.
  induction l as [|h t IH]; simpl; [intros H; by apply elem_of_nil in H|].
  destruct (key_compare k h); rewrite ?elem_of_cons; [auto|auto|].
  intros [->|H]; auto.
Qed.

Lemma insert_key_text s l : CStr s ∈ insert_key (CStr s) l.
Proof.
  induction l as [|h t IH]; [by apply list_elem_of_singleton|].
  cbn [insert_key].
  destruct (key_compare (CStr s) h) eqn:E; rewrite elem_of_cons; [|by left|by right].
  destruct h as [t'|q|t'|]; simpl in E; try discriminate E.
  apply String.compare_eq_iff in E. subst. by left.
Qed.

(** The months of the result are the months present in the table. *)
Lemma group_keys_text keys s : CStr s ∈ group_keys keys <-> CStr s ∈ keys.
Proof.
  unfold group_keys.
  assert (forall acc,
            CStr s ∈ fold_left (fun acc k => if isna k then acc else insert_key k acc)
                       keys acc
            <-> CStr s ∈ acc \/ CStr s ∈ keys) as H.
  { induction keys as [|k keys IH]; intros acc; simpl; [set_solver|].
    rewrite IH, elem_of_cons. destruct (isna k) eqn:Ek.
    - destruct k; try done. split; [tauto|]. intros [?|[?|?]]; auto. done.
    - split.
      + intros [H|H]; [|auto]. apply insert_key_elem in H as [H|H]; auto.
      + intros [H|[H|H]]; auto.
        * left. by apply insert_key_keeps.
        * left. rewrite <- H. apply insert_key_text. }
  rewrite H. set_solver.
Qed.

Lemma group_of_forallb p k keys v :
  forallb p v = true -> forallb p (group_of k keys v) = true.
Proof.
  unfold group_of. revert v.
  induction keys as [|k0 keys IH]; intros [|c v]; simpl; try done.
  intros [Hc Hv]%andb_prop.
  destruct (key_eqb k k0); simpl; [rewrite Hc|]; by apply IH.
Qed.

Lemma mapM_ok_map {A B} (f : A -> res B) (g : A -> B) l :
  (forall x, x ∈ l -> f x = Ok (g x)) -> mapM f l = Ok (map g l).
Proof.
  induction l as [|x l IH]; intros H; [done|]. simpl.
  rewrite (H x) by set_solver. rewrite IH; [done|]. intros y Hy. apply H. set_solver.
Qed.

Lemma getitems_numeric cols df :
  numeric_columns cols df = true ->
  exists sel,
    getitems cols df = (Ok sel, df) /\
    map fst sel = cols /\
    Forall (fun cv => columns df !! fst cv = Some (snd cv)
                      /\ forallb is_num_or_na (snd cv) = true) sel.
Proof.
  induction cols as [|c0 cols IH]; simpl.
  { intros _. exists []. by repeat split. }
  intros [H0 Hrest]%andb_prop.
  destruct (columns df !! c0) as [v0|] eqn:E0; [|done].
  destruct (IH Hrest) as (sel & Hsel & Hfst & Hall).
  exists ((c0, v0) :: sel). split; [|split].
  - unfold bind. by rewrite (getitem_some _ _ _ E0), Hsel.
  - simpl. by rewrite Hfst.
  - by constructor.
Qed.

(** Where the four columns averaged hold numbers or nothing, the table
    has one row per month present, in ascending order, and in each row
    the mean of each column over the values present in that month,
    rounded to two decimals. *)
Lemma monthly_trends_on_numbers df keys :
  columns df !! "Response Month (YYYY-MM)" = Some keys ->
  numeric_columns trend_metrics df = true ->
  exists table,
    value (create_monthly_trends df) = Ok table /\
    map fst table = group_keys keys /\
    StronglySorted key_lt (map fst table) /\
    (forall s, CStr s ∈ map fst table <-> CStr s ∈ keys) /\
    (forall k row, (k, row) ∈ table ->
       map fst row = trend_metrics /\
       forall m v, m ∈ trend_metrics -> columns df !! m = Some v ->
         (m, month_mean k keys v) ∈ row).
Proof.
  intros Hk Hnum.
  destruct (getitems_numeric _ _ Hnum) as (sel & Hsel & Hfst & Hall).
  set (row_of := fun k : cell =>
         (k, map (fun mv : string * Series => (fst mv, month_mean k keys (snd mv))) sel)).
  exists (map row_of (group_keys keys)).
  assert (map fst (map row_of (group_keys keys)) = group_keys keys) as Hkeys.
  { rewrite map_map. simpl. apply map_id. }
  split; [|split; [done|split; [|split]]].
  - unfold create_monthly_trends, bind, lift, groupby_mean_round.
    rewrite (getitem_some _ _ _ Hk), Hsel.
    rewrite (mapM_ok_map _ row_of); [done|].
    intros k _. unfold row_of.
    rewrite (mapM_ok_map _
               (fun mv : string * Series => (fst mv, month_mean k keys (snd mv))));
      [done|].
    intros mv Hmv. rewrite Forall_forall in Hall.
    destruct (Hall mv Hmv) as [_ Hn].
    unfold series_mean. by rewrite (group_of_forallb _ _ _ _ Hn).
  - rewrite Hkeys. apply group_keys_sorted.
  - intros s. rewrite Hkeys. apply group_keys_text.
  - intros k row Hrow.
    apply list_elem_of_fmap in Hrow as (k' & [= -> ->] & _).
    split; [by rewrite map_map|].
    intros m v Hm Hv. rewrite <- Hfst in Hm.
    apply list_elem_of_fmap in Hm as ([m' v'] & -> & Hin).
    rewrite Forall_forall in Hall. destruct (Hall _ Hin) as [Hc _].
    simpl in *. rewrite Hv in Hc. injection Hc as <-.
    apply list_elem_of_fmap. by exists (m', v).
Qed.

(** ** Correlation *)

(** On a loaded response the columns correlated are NPS and the seven
    rating columns as read, not the seven score columns, and turning the
    rating text into a float raises. *)
Lemma correlation_reads_rating_texts (rt : Runtime) :
  py_float "5. Strongly Agree" = None ->
  heatmap_metrics = "NPS" :: rating_columns /\
  Forall (fun c => columns one_response !! c = Some [CStr "5. Strongly Agree"])
    rating_columns /\
  value (create_correlation_heatmap one_response) = Raise ValueError.
Proof.
  intros Hfloat. split; [done|]. split.
  { repeat constructor. }
  unfold create_correlation_heatmap, bind.
  assert (getitems heatmap_metrics one_response
          = (Ok (("NPS", [CNum 8])
                 :: map (fun c => (c, [CStr "5. Strongly Agree"])) rating_columns),
             one_response)) as ->
    by (by vm_compute).
  unfold lift, corr. simpl. by rewrite Hfloat.
Qed.

Lemma correlation_reads_rating_texts_example :
  heatmap_metrics = "NPS" :: rating_columns /\
  Forall (fun c => columns one_response !! c = Some [CStr "5. Strongly Agree"])
    rating_columns /\
  value (@create_correlation_heatmap example_runtime one_response) = Raise ValueError.
Proof.
  apply (correlation_reads_rating_texts example_runtime).
  reflexivity.
Qed.

(** C1, the code on a loaded response: the eight columns correlated are
    NPS and the seven rating columns as read, which hold the rating
    texts, not the seven score columns the loader has derived from them;
    a rating text is no numeral, turning it into a float raises
    [ValueError], and no matrix is produced. The table is left as it
    was. *)
Theorem correlation_heatmap_correlates_rating_texts :
  @load_and_process_data example_runtime one_response_csv = (Ok tt, one_response) /\
  heatmap_metrics = "NPS" :: rating_columns /\
  Forall (fun c => columns one_response !! c = Some [CStr "5. Strongly Agree"] /\
                   columns one_response !! score_column c = Some [CNum 5])
    rating_columns /\
  Forall (fun c => score_column c ∉ heatmap_metrics) rating_columns /\
  (forall rt : Runtime,
     @py_float rt "5. Strongly Agree" = None ->
     @create_correlation_heatmap rt one_response = (Raise ValueError, one_response)).
Proof.
  split; [by vm_compute|]. split; [done|].
  split; [repeat constructor|].
  split; [apply (bool_decide_unpack _); by vm_compute|].
  intros rt Hfloat.
  unfold create_correlation_heatmap, bind.
  assert (getitems heatmap_metrics one_response
          = (Ok (("NPS", [CNum 8])
                 :: map (fun c => (c, [CStr "5. Strongly Agree"])) rating_columns),
             one_response)) as ->
    by (by vm_compute).
  unfold lift, corr. simpl. by rewrite Hfloat.
Qed.

Lemma getitems_insert_other cols k v n (m : gmap string Series) :
  k ∉ cols ->
  value (getitems cols (mkDataFrame n (<[k := v]> m)))
    = value (getitems cols (mkDataFrame n m)).
Proof.
  induction cols as [|c cols IH]; intros Hk; [done|].
  assert (k ∉ cols) as Hk' by set_solver. specialize (IH Hk').
  simpl. unfold bind, getitem, value in *. simpl.
  rewrite lookup_insert_ne by set_solver.
  destruct (m !! c) as [vc|]; [|done].
  destruct (getitems cols _) as [[r|e] d], (getitems cols _) as [[r'|e'] d'];
    simpl in *; congruence.
Qed.

(** Whatever a score column holds has no influence on the matrix. *)
Lemma correlation_ignores_scores (rt : Runtime) df col v :
  col ∈ rating_columns ->
  value (create_correlation_heatmap (frame (setitem (score_column col) v df)))
    = value (create_correlation_heatmap df).
Proof.
  intros Hcol. destruct df as [n m]. unfold setitem, frame. simpl.
  assert (score_column col ∉ heatmap_metrics) as Hk.
  { revert Hcol. unfold rating_columns, heatmap_metrics.
    rewrite !elem_of_cons, !elem_of_nil.
    intros H. repeat (destruct H as [->|H]; [by vm_compute; intuition discriminate|]).
    done. }
  pose proof (getitems_insert_other heatmap_metrics _ v n m Hk) as H.
  unfold create_correlation_heatmap, bind, value in *.
  destruct (getitems heatmap_metrics _) as [[r|e] d],
           (getitems heatmap_metrics _) as [[r'|e'] d']; simpl in *; try congruence.
  injection H as ->. unfold lift. by destruct (corr r').
Qed.

(** ** What the aggregators do to the table *)

Lemma readonly_ret {A} (a : A) : readonly (ret a).
Proof. done. Qed.

Lemma readonly_throw {A} e : readonly (@throw A e).
Proof. done. Qed.

Lemma readonly_lift {A} (r : res A) : readonly (lift r).
Proof. done. Qed.

Lemma readonly_len : readonly len.
Proof. done. Qed.

Lemma readonly_self : readonly self.
Proof. done. Qed.

Lemma readonly_getitem col : readonly (getitem col).
Proof. intros df. apply getitem_frame. Qed.

Lemma readonly_bind {A B} (m : Py A) (k : A -> Py B) :
  readonly m -> (forall a, readonly (k a)) -> readonly (bind m k).
Proof.
  intros Hm Hk df. unfold bind. specialize (Hm df).
  destruct (m df) as [[a|e] df']; simpl in Hm; subst df'; [apply Hk | done].
Qed.

Lemma readonly_for_each {A S} (l : list A) (body : A -> S -> Py S) acc :
  (forall x s, readonly (body x s)) -> readonly (for_each l body acc).
Proof.
  intros Hb. revert acc. induction l as [|x l IH]; intros acc; simpl.
  - apply readonly_ret.
  - apply readonly_bind; [apply Hb | apply IH].
Qed.

Lemma readonly_getitems cols : readonly (getitems cols).
Proof.
  induction cols as [|c cols IH]; simpl; [apply readonly_ret|].
  apply readonly_bind; [apply readonly_getitem|]. intros v.
  apply readonly_bind; [apply IH|]. intros r. apply readonly_ret.
Qed.

Lemma readonly_if {A} (b : bool) (m1 m2 : Py A) :
  readonly m1 -> readonly m2 -> readonly (if b then m1 else m2).
Proof. by destruct b. Qed.

Create HintDb readonly.
#[export] Hint Resolve readonly_ret readonly_throw readonly_lift readonly_len
  readonly_self readonly_getitem readonly_getitems readonly_for_each
  readonly_if : readonly.
#[export] Hint Extern 2 (readonly (bind _ _)) =>
  apply readonly_bind; [|intros ?] : readonly.

Lemma readonly_get_nps_distribution : readonly get_nps_distribution.
Proof. unfold get_nps_distribution. auto 20 with readonly. Qed.

Lemma readonly_create_nps_distribution_chart : readonly create_nps_distribution_chart.
Proof.
  unfold create_nps_distribution_chart.
  apply readonly_bind; [apply readonly_get_nps_distribution | auto with readonly].
Qed.

Lemma readonly_calculate_nps_score : readonly calculate_nps_score.
Proof. unfold calculate_nps_score. auto 20 with readonly. Qed.

Lemma readonly_create_nps_trend : readonly create_nps_trend.
Proof. unfold create_nps_trend. auto 20 with readonly. Qed.

Lemma readonly_create_correlation_heatmap (rt : Runtime) :
  readonly create_correlation_heatmap.
Proof. unfold create_correlation_heatmap. auto 20 with readonly. Qed.

Lemma readonly_calculate_weekly_response_rate :
  readonly calculate_weekly_response_rate.
Proof. unfold calculate_weekly_response_rate. auto 20 with readonly. Qed.

Lemma readonly_create_monthly_trends : readonly create_monthly_trends.
Proof. unfold create_monthly_trends. auto 20 with readonly. Qed.

Lemma readonly_create_satisfaction_heatmap : readonly create_satisfaction_heatmap.
Proof.
  unfold create_satisfaction_heatmap. apply readonly_for_each.
  intros x s. auto 20 with readonly.
Qed.

Lemma readonly_get_top_concerns : readonly get_top_concerns.
Proof. unfold get_top_concerns. auto 20 with readonly. Qed.

Lemma frame_bind_readonly {A B} (m : Py A) (k : A -> Py B) df :
  (forall a, readonly (k a)) -> frame (bind m k df) = frame (m df).
Proof.
  intros Hk. unfold bind. destruct (m df) as [[a|e] df']; [apply Hk | done].
Qed.

Lemma value_bind_ok {A B} (m : Py A) (k : A -> Py B) df b :
  value (bind m k df) = Ok b -> exists a, value (m df) = Ok a.
Proof.
  unfold bind. destruct (m df) as [[a|e] df']; simpl; [eauto | done].
Qed.

Lemma fillna_idem s v : fillna s (fillna s v) = fillna s v.
Proof.
  unfold fillna. rewrite map_map. apply map_ext. intros c. by destruct c.
Qed.

Lemma fillna_no_nan s v : CNaN ∉ v -> fillna s v = v.
Proof.
  induction v as [|c v IH]; intros H; [done|]. simpl.
  rewrite IH by set_solver.
  destruct c; simpl; try done. exfalso. apply H. set_solver.
Qed.

Lemma fillna_fixed s v : fillna s v = v <-> CNaN ∉ v.
Proof.
  split; [|apply fillna_no_nan].
  induction v as [|c v IH]; intros H Hin; [by apply elem_of_nil in Hin|].
  simpl in H. injection H as Hc Hv.
  apply elem_of_cons in Hin as [<-|Hin]; [done|]. by apply IH.
Qed.

Section FillFacts.
Context {rt : Runtime}.

Lemma collect_categories_some col acc df v :
  columns df !! col = Some v ->
  collect_categories col acc df
    = (Ok (acc ++ flat_map row_categories (fillna "" v))%list,
       mkDataFrame (nrows df) (<[col := fillna "" v]> (columns df))).
Proof.
  intros H. unfold collect_categories, bind, setitem, ret.
  rewrite (getitem_some _ _ _ H). unfold getitem. simpl.
  by rewrite lookup_insert_eq.
Qed.

Lemma collect_categories_none col acc df :
  columns df !! col = None ->
  collect_categories col acc df = (Raise KeyError, df).
Proof.
  intros H. unfold collect_categories, bind. by rewrite (getitem_none _ _ H).
Qed.

(** The loop over the tag columns on a table that has the two of them:
    the tokens collected, and the table with the two columns filled. *)
Lemma collect_both df v1 v2 :
  columns df !! "NPS Feedback Categories" = Some v1 ->
  columns df !! "Improvement Feedback Categories" = Some v2 ->
  for_each feedback_columns collect_categories [] df
  = (Ok (categories_in v1 v2),
     mkDataFrame (nrows df)
       (<["Improvement Feedback Categories" := fillna "" v2]>
          (<["NPS Feedback Categories" := fillna "" v1]> (columns df)))).
Proof.
  intros H1 H2. unfold feedback_columns. cbn [for_each].
  unfold bind at 1. rewrite (collect_categories_some _ _ _ _ H1).
  unfold bind at 1. rewrite (collect_categories_some _ _ _ v2).
  - done.
  - simpl. by rewrite lookup_insert_ne.
Qed.

(** The loop over the tag columns: it touches no other column, and what
    it does to a tag column is to fill it. *)
Lemma collect_loop cols :
  forall acc df r,
    for_each cols collect_categories acc df = r ->
    nrows (frame r) = nrows df /\
    (forall c, c ∉ cols -> columns (frame r) !! c = columns df !! c) /\
    (forall c, columns (frame r) !! c = columns df !! c \/
               columns (frame r) !! c = fillna "" <$> columns df !! c) /\
    ((exists t, value r = Ok t) ->
     forall c, c ∈ cols -> columns (frame r) !! c = fillna "" <$> columns df !! c).
Proof.
  induction cols as [|c0 rest IH]; intros acc df r Hr; simpl in Hr.
  { subst r. split; [done|]. split; [done|]. split; [auto|].
    intros _ c Hc. by apply elem_of_nil in Hc. }
  unfold bind at 1 in Hr.
  destruct (columns df !! c0) as [v0|] eqn:E0.
  2:{ rewrite (collect_categories_none _ _ _ E0) in Hr. subst r.
      split; [done|]. split; [done|]. split; [auto|].
      intros [t Ht]. discriminate Ht. }
  rewrite (collect_categories_some _ _ _ _ E0) in Hr.
  set (df1 := mkDataFrame (nrows df) (<[c0 := fillna "" v0]> (columns df))) in *.
  destruct (IH _ df1 r Hr) as (Hn & Hout & Hany & Hok).
  assert (forall c, c <> c0 -> columns df1 !! c = columns df !! c) as Hne.
  { intros c Hc. simpl. by rewrite lookup_insert_ne. }
  assert (columns df1 !! c0 = fillna "" <$> columns df !! c0) as Heq.
  { simpl. by rewrite lookup_insert_eq, E0. }
  split; [done|]. split; [|split].
  - intros c Hc. rewrite Hout by set_solver. apply Hne. set_solver.
  - intros c. destruct (decide (c = c0)) as [->|Hc].
    + right. destruct (Hany c0) as [-> | ->]; [done|].
      rewrite Heq, E0. simpl. by rewrite fillna_idem.
    + rewrite <- (Hne c Hc). apply Hany.
  - intros Hval c Hc. destruct (decide (c ∈ rest)) as [Hin|Hnin].
    + rewrite (Hok Hval c Hin). destruct (decide (c = c0)) as [->|Hc0].
      * rewrite Heq, E0. simpl. by rewrite fillna_idem.
      * by rewrite Hne.
    + assert (c = c0) as -> by set_solver. by rewrite Hout.
Qed.

(** What [analyze_feedback_categories] leaves of the frame is what the
    loop over the tag columns leaves. *)
Lemma analyze_feedback_categories_frame df :
  frame (analyze_feedback_categories df)
    = frame (for_each feedback_columns collect_categories [] df).
Proof.
  unfold analyze_feedback_categories, feedback_category_counts.
  rewrite !frame_bind_readonly; [done | intros; apply readonly_ret..].
Qed.

Lemma analyze_feedback_categories_ok df t :
  value (analyze_feedback_categories df) = Ok t ->
  exists t', value (for_each feedback_columns collect_categories [] df) = Ok t'.
Proof.
  unfold analyze_feedback_categories, feedback_category_counts.
  intros H. apply value_bind_ok in H as [a H]. by apply value_bind_ok in H.
Qed.

(** On a table with the two tag columns the call succeeds and fills the
    two columns. *)
Lemma analyze_feedback_categories_both df v1 v2 :
  columns df !! "NPS Feedback Categories" = Some v1 ->
  columns df !! "Improvement Feedback Categories" = Some v2 ->
  (exists chart, value (analyze_feedback_categories df) = Ok chart) /\
  frame (analyze_feedback_categories df)
  = mkDataFrame (nrows df)
      (<["Improvement Feedback Categories" := fillna "" v2]>
         (<["NPS Feedback Categories" := fillna "" v1]> (columns df))).
Proof.
  intros H1 H2. unfold analyze_feedback_categories, feedback_category_counts.
  unfold bind at 1 3. unfold bind at 1 2. rewrite (collect_both df v1 v2 H1 H2).
  split; [by eexists|done].
Qed.

(** Without the first tag column the call raises at once. *)
Lemma analyze_feedback_categories_no_first df :
  columns df !! "NPS Feedback Categories" = None ->
  analyze_feedback_categories df = (Raise KeyError, df).
Proof.
  intros H1. unfold analyze_feedback_categories, feedback_category_counts.
  unfold bind at 1. unfold bind at 1. unfold feedback_columns. cbn [for_each].
  unfold bind at 1. by rewrite (collect_categories_none _ _ _ H1).
Qed.

(** Without the second tag column the call raises once the first is
    filled. *)
Lemma analyze_feedback_categories_no_second df v1 :
  columns df !! "NPS Feedback Categories" = Some v1 ->
  columns df !! "Improvement Feedback Categories" = None ->
  analyze_feedback_categories df
  = (Raise KeyError,
     mkDataFrame (nrows df) (<["NPS Feedback Categories" := fillna "" v1]> (columns df))).
Proof.
  intros H1 H2. unfold analyze_feedback_categories, feedback_category_counts.
  unfold bind at 1. unfold bind at 1. unfold feedback_columns. cbn [for_each].
  unfold bind at 1. rewrite (collect_categories_some _ _ _ _ H1).
  unfold bind at 1. rewrite collect_categories_none; [done|].
  simpl. by rewrite lookup_insert_ne.
Qed.

(** The table with the two tag columns filled is the table itself
    exactly when the two columns hold no absent value. *)
Lemma filled_frame_same df v1 v2 :
  columns df !! "NPS Feedback Categories" = Some v1 ->
  columns df !! "Improvement Feedback Categories" = Some v2 ->
  mkDataFrame (nrows df)
    (<["Improvement Feedback Categories" := fillna "" v2]>
       (<["NPS Feedback Categories" := fillna "" v1]> (columns df))) = df
  <-> CNaN ∉ v1 /\ CNaN ∉ v2.
Proof.
  intros H1 H2. split.
  - intros H.
    pose proof (f_equal (fun d => columns d !! "NPS Feedback Categories") H) as E1.
    pose proof (f_equal (fun d => columns d !! "Improvement Feedback Categories") H) as E2.
    simpl in E1, E2.
    rewrite lookup_insert_ne, lookup_insert_eq, H1 in E1 by done.
    rewrite lookup_insert_eq, H2 in E2.
    injection E1 as E1. injection E2 as E2.
    split; by apply (fillna_fixed "").
  - intros [N1 N2]. rewrite !fillna_no_nan by done.
    destruct df as [n cols]. simpl in *. f_equal.
    rewrite (insert_id cols "NPS Feedback Categories" v1) by done.
    by apply insert_id.
Qed.

End FillFacts.

(** C9, as the code has it. Every aggregator but the feedback category
    aggregator hands back the table it was given, unchanged. The feedback
    category aggregator keeps the rows and every column other than the two
    tag columns. On a table that has the two tag columns it succeeds and
    leaves the table with the absent values of the two columns replaced
    by the empty text, which is the table it was given exactly when the
    two columns hold no absent value. Without the first tag column it
    raises [KeyError] and leaves the table as it is; with the first and
    without the second it raises [KeyError] and leaves the table with
    the first column filled. *)
Theorem aggregators_and_the_table (rt : Runtime) (df : DataFrame) :
  frame (get_nps_distribution df) = df /\
  frame (create_nps_distribution_chart df) = df /\
  frame (calculate_nps_score df) = df /\
  frame (create_nps_trend df) = df /\
  frame (create_correlation_heatmap df) = df /\
  frame (calculate_weekly_response_rate df) = df /\
  frame (create_monthly_trends df) = df /\
  frame (create_satisfaction_heatmap df) = df /\
  frame (get_top_concerns df) = df /\
  nrows (frame (analyze_feedback_categories df)) = nrows df /\
  (forall c, c ∉ feedback_columns ->
     columns (frame (analyze_feedback_categories df)) !! c = columns df !! c) /\
  (forall c, c ∈ feedback_columns ->
     columns (frame (analyze_feedback_categories df)) !! c = columns df !! c \/
     columns (frame (analyze_feedback_categories df)) !! c
       = fillna "" <$> columns df !! c) /\
  (forall t, value (analyze_feedback_categories df) = Ok t ->
     forall c, c ∈ feedback_columns ->
       columns (frame (analyze_feedback_categories df)) !! c
         = fillna "" <$> columns df !! c) /\
  ((forall c v, c ∈ feedback_columns -> columns df !! c = Some v -> CNaN ∉ v) ->
   frame (analyze_feedback_categories df) = df) /\
  (forall v1 v2,
     columns df !! "NPS Feedback Categories" = Some v1 ->
     columns df !! "Improvement Feedback Categories" = Some v2 ->
     (exists chart, value (analyze_feedback_categories df) = Ok chart) /\
     frame (analyze_feedback_categories df)
     = mkDataFrame (nrows df)
         (<["Improvement Feedback Categories" := fillna "" v2]>
            (<["NPS Feedback Categories" := fillna "" v1]> (columns df))) /\
     (frame (analyze_feedback_categories df) = df <-> CNaN ∉ v1 /\ CNaN ∉ v2)) /\
  (columns df !! "NPS Feedback Categories" = None ->
   analyze_feedback_categories df = (Raise KeyError, df)) /\
  (forall v1,
     columns df !! "NPS Feedback Categories" = Some v1 ->
     columns df !! "Improvement Feedback Categories" = None ->
     analyze_feedback_categories df
     = (Raise KeyError,
        mkDataFrame (nrows df)
          (<["NPS Feedback Categories" := fillna "" v1]> (columns df)))).
Proof.
  split; [apply readonly_get_nps_distribution|].
  split; [apply readonly_create_nps_distribution_chart|].
  split; [apply readonly_calculate_nps_score|].
  split; [apply readonly_create_nps_trend|].
  split; [apply readonly_create_correlation_heatmap|].
  split; [apply readonly_calculate_weekly_response_rate|].
  split; [apply readonly_create_monthly_trends|].
  split; [apply readonly_create_satisfaction_heatmap|].
  split; [apply readonly_get_top_concerns|].
  assert (forall A B C D E F : Prop, (A /\ B /\ C /\ D /\ E) -> F ->
            A /\ B /\ C /\ D /\ E /\ F) as Hsplit by tauto.
  apply Hsplit.
  - rewrite analyze_feedback_categories_frame.
    destruct (collect_loop feedback_columns [] df _ eq_refl)
      as (Hn & Hout & Hany & Hok).
    split; [done|]. split; [done|]. split; [auto|]. split.
    + intros t Ht. apply Hok. by apply analyze_feedback_categories_ok in Ht.
    + intros Hfull.
      destruct (for_each feedback_columns collect_categories [] df) as [r [n m]].
      destruct df as [n0 m0]. simpl in *. subst n. f_equal.
      apply map_eq. intros c. destruct (Hany c) as [H|H]; [done|].
      destruct (decide (c ∈ feedback_columns)) as [Hin|Hnin]; [|by apply Hout].
      rewrite H. destruct (m0 !! c) as [v|] eqn:E; [|done].
      simpl. f_equal. apply fillna_no_nan. by apply (Hfull c).
  - split; [|split].
    + intros v1 v2 H1 H2.
      destruct (analyze_feedback_categories_both df v1 v2 H1 H2) as [Hok Hframe].
      split; [done|]. split; [done|].
      rewrite Hframe. by apply filled_frame_same.
    + apply analyze_feedback_categories_no_first.
    + apply analyze_feedback_categories_no_second.
Qed.

(** C9 as stated fails: the loaded response has no improvement tags, and
    after the feedback category aggregator the table holds an empty text
    in their place. *)
Lemma feedback_categories_mutate_counterexample :
  columns one_response !! "Improvement Feedback Categories" = Some [CNaN] /\
  columns (frame (@analyze_feedback_categories example_runtime one_response))
    !! "Improvement Feedback Categories" = Some [CStr ""] /\
  frame (@analyze_feedback_categories example_runtime one_response) <> one_response.
Proof.
  split; [by vm_compute|]. split; [by vm_compute|].
  intros H.
  apply (f_equal (fun d => columns d !! "Improvement Feedback Categories")) in H.
  vm_compute in H. discriminate H.
Qed.

(** ** The matrix of [nancorr] on numeric columns *)

Lemma nancorr_lookup mat i j :
  nancorr mat !! i ≫= (fun row => row !! j)
  = cx ← mat !! i; cy ← mat !! j;
    Some (if (j <=? i)%nat then pearson cx cy else pearson cy cx).
Proof.
  unfold nancorr. rewrite list_lookup_imap.
  destruct (mat !! i) as [cx|]; [|done]. simpl.
  rewrite list_lookup_imap. by destruct (mat !! j).
Qed.

(** The matrix is square, of the size of the selection. *)
Lemma nancorr_square mat :
  length (nancorr mat) = length mat /\
  Forall (fun row => length row = length mat) (nancorr mat).
Proof.
  unfold nancorr. split; [apply length_imap|].
  apply Forall_lookup. intros i row Hi.
  rewrite list_lookup_imap in Hi.
  destruct (mat !! i); simplify_eq/=. apply length_imap.
Qed.

(** The matrix is symmetric: both places of a pair hold the one entry
    computed for it. *)
Lemma nancorr_symmetric mat i j :
  nancorr mat !! i ≫= (fun row => row !! j)
  = nancorr mat !! j ≫= (fun row => row !! i).
Proof.
  destruct (decide (i = j)) as [->|Hne]; [done|].
  rewrite !nancorr_lookup.
  destruct (mat !! i) as [cx|], (mat !! j) as [cy|]; simpl; try done.
  destruct (Nat.leb_spec j i), (Nat.leb_spec i j); try done; lia.
Qed.

Lemma welford_step_diagonal st o :
  diagonal_state st -> diagonal_state (welford_step st (o, o)).
Proof.
  intros (Hm & Hs & Hc & Hn & Hp). destruct o as [v|]; [|done].
  unfold diagonal_state, welford_step. simpl.
  rewrite <- Hm, <- Hs, Hc. repeat split; try done; [lia|].
  set (t := (1 / inject_Z (nobs st + 1))%Q).
  set (dx := (v - meanx st)%Q).
  assert (0 <= t <= 1)%Q as [Ht0 Ht1].
  { assert (0 < inject_Z (nobs st + 1))%Q as Hpos.
    { change 0%Q with (inject_Z 0). rewrite <- Zlt_Qlt. lia. }
    subst t. split.
    - apply Qle_shift_div_l; [done | lra].
    - apply Qle_shift_div_r; [done|].
      rewrite Qmult_1_l. change 1%Q with (inject_Z 1). rewrite <- Zle_Qle. lia. }
  assert (0 <= (1 - t) * (dx * dx))%Q as Hsq.
  { apply Qmult_le_0_compat; [lra | nra]. }
  assert ((v - (meanx st + t * dx)) * dx == (1 - t) * (dx * dx))%Q as ->
    by (subst dx; ring).
  lra.
Qed.

Lemma fold_welford_diagonal x st :
  diagonal_state st ->
  diagonal_state (fold_left welford_step (combine x x) st).
Proof.
  revert st. induction x as [|o x IH]; intros st Hst; [done|].
  simpl. apply IH. by apply welford_step_diagonal.
Qed.

(** An entry of the diagonal is 1 or NaN. *)
Lemma pearson_diagonal x : pearson x x = CorrNaN \/ corr_is_one (pearson x x).
Proof.
  unfold pearson.
  pose proof (fold_welford_diagonal x (mkWelford 0 0 0 0 0 0)) as H.
  destruct H as (_ & Hs & Hc & _ & Hp).
  { repeat split; done. }
  set (st := fold_left _ _ _) in *.
  destruct (nobs st <? 1)%Z; [by left|].
  destruct (Qzero (ssqdm_x st * ssqdm_y st)) eqn:Hz; [by left|].
  right. simpl. rewrite Hc, <- Hs. split; [|reflexivity].
  unfold Qzero in Hz. rewrite <- Hs in Hz. simpl in Hz.
  apply Z.eqb_neq in Hz.
  unfold Qle in Hp. unfold Qlt. simpl in *. nia.
Qed.

(** With a single row there is no variance and every entry is NaN. *)
Lemma pearson_one_row x y :
  length x = 1%nat -> length y = 1%nat -> pearson x y = CorrNaN.
Proof.
  destruct x as [|[v|] [|]], y as [|[w|] [|]]; try done; intros _ _.
  unfold pearson. simpl.
  replace (Qzero _) with true; [done|].
  symmetry. unfold Qzero. apply Z.eqb_eq.
  destruct v as [n d], w as [n' d']. simpl.
  rewrite !Pos.mul_1_r, ?Pos.mul_1_l. ring.
Qed.

(** A row in which one of the two values is absent is left out of the
    pair's correlation: the entry is the one of the complete rows. *)
Lemma fold_welford_complete x y st :
  fold_left welford_step (combine x y) st
  = fold_left welford_step
      (map (fun p => (Some (fst p), Some (snd p))) (complete_pairs x y)) st.
Proof.
  revert y st. induction x as [|a x IH]; intros [|b y] st; try done.
  unfold complete_pairs. simpl.
  destruct a as [a|], b as [b|]; simpl; apply IH.
Qed.

Lemma pearson_complete x y :
  pearson x y
  = pearson (map (fun p => Some (fst p)) (complete_pairs x y))
      (map (fun p => Some (snd p)) (complete_pairs x y)).
Proof.
  unfold pearson. rewrite fold_welford_complete.
  assert (combine (map (fun p => Some (fst p)) (complete_pairs x y))
            (map (fun p => Some (snd p)) (complete_pairs x y))
          = map (fun p => (Some (fst p), Some (snd p))) (complete_pairs x y)) as ->;
    [|done].
  induction (complete_pairs x y) as [|p l IH]; [done|]. simpl. by rewrite IH.
Qed.

(** ** Welford's sums and Pearson's formula *)

Section WelfordFacts.
Local Open Scope Q_scope.

Lemma Qsum_app l1 l2 : Qsum (l1 ++ l2) == Qsum l1 + Qsum l2.
Proof.
  induction l1 as [|a l1 IH]; simpl; [ring|]. rewrite IH. ring.
Qed.

Lemma count_snoc ps p : count (ps ++ [p]) == count ps + 1.
Proof.
  unfold count. rewrite length_app. simpl.
  rewrite Nat2Z.inj_add, inject_Z_plus. reflexivity.
Qed.

Lemma count_nonneg ps : 0 <= count ps.
Proof. unfold count. change 0 with (inject_Z 0). rewrite <- Zle_Qle. lia. Qed.

Lemma welford_step_sums st ps p :
  welford_sums st ps ->
  welford_sums (welford_step st (some_pair p)) (ps ++ [p]).
Proof.
  destruct p as [vx vy]. intros (Hn & Hmx & Hmy & Hsx & Hsy & Hc).
  unfold welford_sums, welford_step, some_pair. simpl.
  assert (inject_Z (nobs st + 1) == count ps + 1) as HN.
  { rewrite inject_Z_plus, Hn. reflexivity. }
  pose proof (count_nonneg ps) as Hpos.
  set (N := count ps) in *.
  set (mx := meanx st) in *. set (my := meany st) in *.
  set (mx' := mx + 1 / inject_Z (nobs st + 1) * (vx - mx)).
  set (my' := my + 1 / inject_Z (nobs st + 1) * (vy - my)).
  assert ((N + 1) * mx' == N * mx + vx) as Hmx'.
  { subst mx'. rewrite HN. field. lra. }
  assert ((N + 1) * my' == N * my + vy) as Hmy'.
  { subst my'. rewrite HN. field. lra. }
  unfold sum_x, sum_y, sum_xx, sum_yy, sum_xy in *.
  rewrite !map_app, !Qsum_app, count_snoc. simpl. fold N.
  set (Sx := Qsum (map fst ps)) in *. set (Sy := Qsum (map snd ps)) in *.
  set (Sxx := Qsum (map _ ps)) in Hsx |- *.
  set (Syy := Qsum (map _ ps)) in Hsy |- *.
  set (Sxy := Qsum (map _ ps)) in Hc |- *.
  split; [rewrite length_app; simpl; lia|].
  split; [rewrite Hmx', Hmx; ring|].
  split; [rewrite Hmy', Hmy; ring|].
  split; [|split].
  - rewrite Hsx.
    assert (Sxx - mx * Sx + (vx - mx') * (vx - mx)
            - (Sxx + (vx * vx + 0) - mx' * (Sx + (vx + 0)))
            == mx * ((N + 1) * mx' - (N * mx + vx)) - (mx' - mx) * (N * mx - Sx)) as H by ring.
    rewrite Hmx', Hmx in H. lra.
  - rewrite Hsy.
    assert (Syy - my * Sy + (vy - my') * (vy - my)
            - (Syy + (vy * vy + 0) - my' * (Sy + (vy + 0)))
            == my * ((N + 1) * my' - (N * my + vy)) - (my' - my) * (N * my - Sy)) as H by ring.
    rewrite Hmy', Hmy in H. lra.
  - rewrite Hc.
    assert (Sxy - mx * Sy + (vx - mx') * (vy - my)
            - (Sxy + (vx * vy + 0) - mx' * (Sy + (vy + 0)))
            == my * ((N + 1) * mx' - (N * mx + vx)) - (mx' - mx) * (N * my - Sy)) as H by ring.
    rewrite Hmx', Hmy in H. lra.
Qed.

Lemma welford_sums_init : welford_sums (mkWelford 0 0 0 0 0 0) [].
Proof. unfold welford_sums, count. simpl. repeat split; reflexivity. Qed.

Lemma fold_welford_sums ps :
  welford_sums (fold_left welford_step (map some_pair ps) (mkWelford 0 0 0 0 0 0)) ps.
Proof.
  induction ps as [|p ps IH] using rev_ind; [apply welford_sums_init|].
  rewrite map_app, fold_left_app. simpl. by apply welford_step_sums.
Qed.

Lemma count_pos ps : ps <> [] -> 0 < count ps.
Proof.
  intros H. unfold count. change 0 with (inject_Z 0). rewrite <- Zlt_Qlt.
  destruct ps; [done|]. simpl. lia.
Qed.

(** Deviations from any two numbers, in terms of the plain sums. *)
Lemma Qsum_deviations (f g : Q * Q -> Q) a b ps :
  Qsum (map (fun p => (f p - a) * (g p - b)) ps)
  == Qsum (map (fun p => f p * g p) ps) - b * Qsum (map f ps)
     - a * Qsum (map g ps) + count ps * a * b.
Proof.
  induction ps as [|p ps IH].
  - unfold count. simpl. ring.
  - simpl. rewrite IH. unfold count. simpl length.
    rewrite Nat2Z.inj_succ, <- Z.add_1_r, inject_Z_plus. ring.
Qed.

Lemma mean_x_sum ps : ps <> [] -> count ps * mean_x ps == sum_x ps.
Proof.
  intros H. pose proof (count_pos ps H). unfold mean_x. field. lra.
Qed.

Lemma mean_y_sum ps : ps <> [] -> count ps * mean_y ps == sum_y ps.
Proof.
  intros H. pose proof (count_pos ps H). unfold mean_y. field. lra.
Qed.

Lemma dev_xx_sums ps :
  ps <> [] -> dev_xx ps == sum_xx ps - mean_x ps * sum_x ps.
Proof.
  intros H. unfold dev_xx. rewrite (Qsum_deviations fst fst).
  fold (sum_xx ps) (sum_x ps). pose proof (mean_x_sum ps H) as Hm.
  rewrite <- Hm. ring.
Qed.

Lemma dev_yy_sums ps :
  ps <> [] -> dev_yy ps == sum_yy ps - mean_y ps * sum_y ps.
Proof.
  intros H. unfold dev_yy. rewrite (Qsum_deviations snd snd).
  fold (sum_yy ps) (sum_y ps). pose proof (mean_y_sum ps H) as Hm.
  rewrite <- Hm. ring.
Qed.

Lemma dev_xy_sums ps :
  ps <> [] -> dev_xy ps == sum_xy ps - mean_x ps * sum_y ps.
Proof.
  intros H. unfold dev_xy. rewrite (Qsum_deviations fst snd).
  fold (sum_xy ps) (sum_x ps) (sum_y ps). pose proof (mean_x_sum ps H) as Hm.
  rewrite <- Hm. ring.
Qed.

Lemma Qmult_cancel_pos n a b : 0 < n -> n * a == n * b -> a == b.
Proof.
  intros Hn H. apply (Qmult_inj_l a b n); [lra | done].
Qed.

(** The running sums are the textbook ones. *)
Lemma welford_textbook st ps :
  ps <> [] -> welford_sums st ps ->
  meanx st == mean_x ps /\ meany st == mean_y ps /\
  ssqdm_x st == dev_xx ps /\ ssqdm_y st == dev_yy ps /\
  covxy st == dev_xy ps.
Proof.
  intros Hne (_ & Hmx & Hmy & Hsx & Hsy & Hc).
  pose proof (count_pos ps Hne) as Hpos.
  assert (meanx st == mean_x ps) as Hx.
  { apply (Qmult_cancel_pos (count ps)); [done|]. by rewrite Hmx, mean_x_sum. }
  assert (meany st == mean_y ps) as Hy.
  { apply (Qmult_cancel_pos (count ps)); [done|]. by rewrite Hmy, mean_y_sum. }
  repeat split; [done|done|..].
  - by rewrite Hsx, Hx, dev_xx_sums.
  - by rewrite Hsy, Hy, dev_yy_sums.
  - by rewrite Hc, Hx, dev_xy_sums.
Qed.

Lemma Qzero_spec q : Qzero q = true <-> q == 0.
Proof.
  unfold Qzero, Qeq. simpl. rewrite Z.eqb_eq. lia.
Qed.

Lemma fold_welford_pairs x y st :
  fold_left welford_step (combine x y) st
  = fold_left welford_step (map some_pair (complete_pairs x y)) st.
Proof. apply fold_welford_complete. Qed.

(** The entry of two columns is Pearson's correlation of their complete
    rows: the sum of the mixed deviations from the means over the square
    root of the product of the two sums of squared deviations; it is NaN
    when there is no complete row or when one of the two columns does not
    vary over them. *)
Lemma pearson_textbook x y :
  match pearson x y with
  | CorrNaN =>
      complete_pairs x y = [] \/
      dev_xx (complete_pairs x y) * dev_yy (complete_pairs x y) == 0
  | Corr c sx sy =>
      complete_pairs x y <> [] /\
      c == dev_xy (complete_pairs x y) /\
      sx == dev_xx (complete_pairs x y) /\
      sy == dev_yy (complete_pairs x y) /\
      ~ dev_xx (complete_pairs x y) * dev_yy (complete_pairs x y) == 0
  end.
Proof.
  unfold pearson. rewrite fold_welford_pairs.
  pose proof (fold_welford_sums (complete_pairs x y)) as Hs.
  set (ps := complete_pairs x y) in *.
  set (st := fold_left _ _ _) in *.
  destruct (decide (ps = [])) as [He|Hne].
  { destruct Hs as (Hn & _). rewrite He in Hn. simpl in Hn.
    rewrite Hn. simpl. by left. }
  destruct (welford_textbook st ps Hne Hs) as (_ & _ & Hx & Hy & Hc).
  assert ((nobs st <? 1)%Z = false) as ->.
  { destruct Hs as (Hn & _). apply Z.ltb_ge. rewrite Hn.
    destruct ps; [done|]. simpl. lia. }
  destruct (Qzero (ssqdm_x st * ssqdm_y st)) eqn:Ez.
  - right. apply Qzero_spec in Ez. by rewrite <- Hx, <- Hy.
  - repeat split; try done. intros H. rewrite <- Hx, <- Hy in H.
    apply Qzero_spec in H. congruence.
Qed.

Lemma Qsum_squares_nonneg (f : Q * Q -> Q) a ps :
  0 <= Qsum (map (fun p => (f p - a) * (f p - a)) ps).
Proof.
  induction ps as [|p ps IH]; simpl; [lra|].
  set (t := f p - a). assert (0 <= t * t) by nra. lra.
Qed.

Lemma Qsum_squares_zero (f : Q * Q -> Q) a ps :
  Qsum (map (fun p => (f p - a) * (f p - a)) ps) == 0 ->
  forall p, p ∈ ps -> f p == a.
Proof.
  induction ps as [|q ps IH]; simpl; intros H p Hp; [by apply elem_of_nil in Hp|].
  pose proof (Qsum_squares_nonneg f a ps) as Hrest.
  set (t := f q - a) in *.
  assert (0 <= t * t) as Hq by nra.
  apply elem_of_cons in Hp as [->|Hp].
  - assert (t * t == 0) as H0 by lra.
    apply Qmult_integral in H0. subst t. lra.
  - apply IH; [lra | done].
Qed.

Lemma Qsum_all_zero (f : Q * Q -> Q) ps :
  (forall p, p ∈ ps -> f p == 0) -> Qsum (map f ps) == 0.
Proof.
  induction ps as [|q ps IH]; intros H; simpl; [reflexivity|].
  rewrite (H q), IH; [ring| |]; set_solver.
Qed.

Lemma sum_x_constant a ps :
  (forall p, p ∈ ps -> fst p == a) -> sum_x ps == count ps * a.
Proof.
  unfold sum_x, count. induction ps as [|q ps IH]; intros H; [simpl; ring|].
  simpl map. simpl Qsum. rewrite (H q), IH by set_solver.
  simpl length. rewrite Nat2Z.inj_succ, <- Z.add_1_r, inject_Z_plus. ring.
Qed.

(** A column does not vary over the rows exactly when all its values
    there are one number. *)
Lemma dev_xx_zero ps :
  dev_xx ps == 0 <-> forall p q, p ∈ ps -> q ∈ ps -> fst p == fst q.
Proof.
  split.
  - intros H p q Hp Hq. unfold dev_xx in H.
    rewrite (Qsum_squares_zero fst _ _ H p Hp).
    by rewrite (Qsum_squares_zero fst _ _ H q Hq).
  - intros H. destruct ps as [|p0 ps]; [reflexivity|].
    set (l := p0 :: ps) in *.
    assert (forall p, p ∈ l -> fst p == fst p0) as Hall.
    { intros p Hp. apply H; [done|]. subst l. set_solver. }
    assert (mean_x l == fst p0) as Hm.
    { apply (Qmult_cancel_pos (count l)); [by apply count_pos|].
      rewrite mean_x_sum by done. by apply sum_x_constant. }
    unfold dev_xx. apply Qsum_all_zero. intros p Hp.
    rewrite (Hall p Hp), Hm. ring.
Qed.

Lemma complete_pairs_diagonal x p :
  p ∈ complete_pairs x x <-> Some (fst p) ∈ x /\ snd p = fst p.
Proof.
  unfold complete_pairs. induction x as [|[v|] x IH]; simpl.
  - split; [by intros ?%elem_of_nil | by intros [?%elem_of_nil _]].
  - rewrite !elem_of_cons, IH. destruct p as [a b]. simpl. split.
    + intros [[= -> ->]|[? ?]]; auto.
    + intros [[[= ->]|?] ->]; auto.
  - rewrite elem_of_cons, IH. split; [tauto|]. intros [[?|?] ?]; [done|tauto].
Qed.

Lemma complete_pairs_diagonal_snd x :
  map snd (complete_pairs x x) = map fst (complete_pairs x x).
Proof.
  unfold complete_pairs. induction x as [|[v|] x IH]; simpl; [done| |done].
  by rewrite IH.
Qed.

Lemma dev_yy_diagonal x :
  dev_yy (complete_pairs x x) == dev_xx (complete_pairs x x).
Proof.
  unfold dev_yy, dev_xx, mean_y, mean_x, sum_y, sum_x.
  rewrite complete_pairs_diagonal_snd.
  set (m := _ / _).
  assert (forall l : list (Q * Q),
            (forall p, p ∈ l -> snd p = fst p) ->
            map (fun p => (snd p - m) * (snd p - m)) l
            = map (fun p => (fst p - m) * (fst p - m)) l) as H.
  { induction l as [|p l IH]; intros Hl; [done|]. simpl.
    rewrite (Hl p), IH; [done| |]; set_solver. }
  rewrite H; [reflexivity|]. intros p Hp. by apply complete_pairs_diagonal in Hp as [_ ?].
Qed.

(** The diagonal entry of a column is 1 as soon as two of its present
    values differ, and NaN when they are all one number (or none is
    present). *)
Lemma pearson_diagonal_varies x a b :
  Some a ∈ x -> Some b ∈ x -> ~ a == b -> corr_is_one (pearson x x).
Proof.
  intros Ha Hb Hab.
  destruct (pearson_diagonal x) as [Hnan|H]; [|done].
  pose proof (pearson_textbook x x) as Ht. rewrite Hnan in Ht.
  assert ((a, a) ∈ complete_pairs x x) as Hpa by by apply complete_pairs_diagonal.
  assert ((b, b) ∈ complete_pairs x x) as Hpb by by apply complete_pairs_diagonal.
  destruct Ht as [Ht|Ht]; [rewrite Ht in Hpa; by apply elem_of_nil in Hpa|].
  rewrite dev_yy_diagonal in Ht. apply Qmult_integral in Ht.
  assert (dev_xx (complete_pairs x x) == 0) as H0 by tauto.
  exfalso. apply Hab. by apply (proj1 (dev_xx_zero _) H0 (a, a) (b, b)).
Qed.

Lemma pearson_diagonal_constant x :
  (forall a b, Some a ∈ x -> Some b ∈ x -> a == b) -> pearson x x = CorrNaN.
Proof.
  intros Hall. pose proof (pearson_textbook x x) as Ht.
  destruct (pearson x x) as [|c sx sy]; [done|].
  destruct Ht as (_ & _ & _ & _ & Hne). exfalso. apply Hne.
  assert (dev_xx (complete_pairs x x) == 0) as ->; [|ring].
  apply dev_xx_zero. intros p q Hp Hq.
  apply complete_pairs_diagonal in Hp as [Hp _], Hq as [Hq _]. by apply Hall.
Qed.

End WelfordFacts.

Lemma mapM_to_float_numeric (rt : Runtime) v :
  forallb is_num_or_na v = true -> mapM to_float v = Ok (map present v).
Proof.
  induction v as [|c v IH]; [done|]. simpl.
  intros [Hc Hv]%andb_prop. rewrite (IH Hv). by destruct c.
Qed.

(** On numeric columns the selection and the conversion to floats go
    through, column by column. *)
Lemma corr_numeric_run (rt : Runtime) cols df :
  numeric_columns cols df = true ->
  exists sel mat,
    getitems cols df = (Ok sel, df) /\
    mapM (fun cv : string * Series => mapM to_float (snd cv)) sel = Ok mat /\
    length mat = length cols /\
    forall i c, cols !! i = Some c ->
      exists v, columns df !! c = Some v /\ mat !! i = Some (map present v).
Proof.
  induction cols as [|c0 cols IH]; simpl.
  { intros _. exists [], []. repeat split; done. }
  intros [H0 Hrest]%andb_prop.
  destruct (columns df !! c0) as [v0|] eqn:E0; [|done].
  destruct (IH Hrest) as (sel & mat & Hsel & Hmat & Hlen & Hcols).
  exists ((c0, v0) :: sel), (map present v0 :: mat).
  split; [|split; [|split]].
  - unfold bind. by rewrite (getitem_some _ _ _ E0), Hsel.
  - simpl. by rewrite (mapM_to_float_numeric _ _ H0), Hmat.
  - simpl. by rewrite Hlen.
  - intros [|i] c Hc; simpl in *; [|by apply Hcols].
    injection Hc as <-. eauto.
Qed.

Lemma present_elem a v : Some a ∈ map present v <-> CNum a ∈ v.
Proof.
  rewrite list_elem_of_fmap. split.
  - intros ([| | |] & H & Hc); simplify_eq/=. done.
  - intros H. by exists (CNum a).
Qed.

(** The matrix of [create_correlation_heatmap] where the eight columns
    it correlates hold numbers or nothing, which a loaded table with a
    rating text does not. The matrix is 8 by 8 and symmetric; the entry
    of two columns is their Pearson correlation over the rows where both
    are present, a row with an absent value being left out of that pair
    only; an entry of the diagonal is 1 where two present values of the
    column differ and NaN where they do not, and with a single row every
    entry is NaN. *)
Theorem correlation_matrix_on_numbers (rt : Runtime) (df : DataFrame) :
  numeric_columns heatmap_metrics df = true ->
  exists m,
    value (create_correlation_heatmap df) = Ok m /\
    length m = 8%nat /\
    Forall (fun row => length row = 8%nat) m /\
    (forall i j, m !! i ≫= (fun row => row !! j) = m !! j ≫= (fun row => row !! i)) /\
    (forall i j ci cj vi vj,
       heatmap_metrics !! i = Some ci -> heatmap_metrics !! j = Some cj ->
       columns df !! ci = Some vi -> columns df !! cj = Some vj ->
       (j <= i)%nat ->
       m !! i ≫= (fun row => row !! j)
         = Some (pearson (map present vi) (map present vj))) /\
    (forall x y,
       match pearson x y with
       | CorrNaN =>
           complete_pairs x y = [] \/
           (dev_xx (complete_pairs x y) * dev_yy (complete_pairs x y) == 0)%Q
       | Corr c sx sy =>
           complete_pairs x y <> [] /\
           (c == dev_xy (complete_pairs x y))%Q /\
           (sx == dev_xx (complete_pairs x y))%Q /\
           (sy == dev_yy (complete_pairs x y))%Q /\
           ~ (dev_xx (complete_pairs x y) * dev_yy (complete_pairs x y) == 0)%Q
       end) /\
    (forall i ci vi,
       heatmap_metrics !! i = Some ci -> columns df !! ci = Some vi ->
       ((exists a b, CNum a ∈ vi /\ CNum b ∈ vi /\ ~ (a == b)%Q) ->
        exists e, m !! i ≫= (fun row => row !! i) = Some e /\ corr_is_one e) /\
       ((forall a b, CNum a ∈ vi -> CNum b ∈ vi -> (a == b)%Q) ->
        m !! i ≫= (fun row => row !! i) = Some CorrNaN)) /\
    (wf df -> nrows df = 1%nat ->
     forall i j e, m !! i ≫= (fun row => row !! j) = Some e -> e = CorrNaN).
Proof.
  intros Hnum.
  destruct (corr_numeric_run rt _ _ Hnum) as (sel & mat & Hsel & Hmat & Hlen & Hcols).
  exists (nancorr mat).
  assert (forall i cx, mat !! i = Some cx ->
            exists c v, heatmap_metrics !! i = Some c /\
                        columns df !! c = Some v /\ cx = map present v) as Hback.
  { intros i cx Hi.
    destruct (heatmap_metrics !! i) as [c|] eqn:Ec.
    - destruct (Hcols i c Ec) as (v & Hv & Hm). exists c, v. split; [done|].
      split; [done|]. congruence.
    - apply lookup_ge_None in Ec. apply lookup_lt_Some in Hi. lia. }
  split; [|split; [|split; [|split; [|split; [|split; [|split]]]]]].
  - unfold create_correlation_heatmap, bind, lift, corr.
    by rewrite Hsel, Hmat.
  - destruct (nancorr_square mat) as [-> _]. by rewrite Hlen.
  - destruct (nancorr_square mat) as [_ H]. by rewrite Hlen in H.
  - apply nancorr_symmetric.
  - intros i j ci cj vi vj Hi Hj Hvi Hvj Hle.
    rewrite nancorr_lookup.
    destruct (Hcols i ci Hi) as (v & Hv & ->).
    destruct (Hcols j cj Hj) as (v' & Hv' & ->). simpl.
    apply Nat.leb_le in Hle. rewrite Hle. congruence.
  - apply pearson_textbook.
  - intros i ci vi Hi Hvi. rewrite nancorr_lookup.
    destruct (Hcols i ci Hi) as (v & Hv & ->). simpl.
    rewrite Nat.leb_refl. assert (v = vi) as -> by congruence. split.
    + intros (a & b & Ha & Hb & Hab). eexists. split; [done|].
      apply (pearson_diagonal_varies _ a b); [by apply present_elem..|done].
    + intros Hall. f_equal. apply pearson_diagonal_constant.
      intros a b Ha%present_elem Hb%present_elem. by apply Hall.
  - intros Hwf Hone i j e. rewrite nancorr_lookup.
    destruct (mat !! i) as [cx|] eqn:Ei; [|done].
    destruct (mat !! j) as [cy|] eqn:Ej; [|done]. simpl.
    destruct (Hback i cx Ei) as (c & v & _ & Hv & ->).
    destruct (Hback j cy Ej) as (c' & v' & _ & Hv' & ->).
    pose proof (Hwf _ _ Hv) as Hl. pose proof (Hwf _ _ Hv') as Hl'.
    simpl in Hl, Hl'. rewrite Hone in Hl, Hl'.
    destruct (j <=? i)%nat; intros [= <-];
      apply pearson_one_row; by rewrite length_map.
Qed.

Lemma correlation_matrix_on_numbers_witness :
  exists m,
    value (@create_correlation_heatmap example_runtime numeric_responses) = Ok m /\
    length m = 8%nat /\
    Forall (fun row => length row = 8%nat) m /\
    (forall i j, m !! i ≫= (fun row => row !! j) = m !! j ≫= (fun row => row !! i)) /\
    (forall i j ci cj vi vj,
       heatmap_metrics !! i = Some ci -> heatmap_metrics !! j = Some cj ->
       columns numeric_responses !! ci = Some vi ->
       columns numeric_responses !! cj = Some vj ->
       (j <= i)%nat ->
       m !! i ≫= (fun row => row !! j)
         = Some (pearson (map present vi) (map present vj))) /\
    (forall x y,
       match pearson x y with
       | CorrNaN =>
           complete_pairs x y = [] \/
           (dev_xx (complete_pairs x y) * dev_yy (complete_pairs x y) == 0)%Q
       | Corr c sx sy =>
           complete_pairs x y <> [] /\
           (c == dev_xy (complete_pairs x y))%Q /\
           (sx == dev_xx (complete_pairs x y))%Q /\
           (sy == dev_yy (complete_pairs x y))%Q /\
           ~ (dev_xx (complete_pairs x y) * dev_yy (complete_pairs x y) == 0)%Q
       end) /\
    (forall i ci vi,
       heatmap_metrics !! i = Some ci ->
       columns numeric_responses !! ci = Some vi ->
       ((exists a b, CNum a ∈ vi /\ CNum b ∈ vi /\ ~ (a == b)%Q) ->
        exists e, m !! i ≫= (fun row => row !! i) = Some e /\ corr_is_one e) /\
       ((forall a b, CNum a ∈ vi -> CNum b ∈ vi -> (a == b)%Q) ->
        m !! i ≫= (fun row => row !! i) = Some CorrNaN)) /\
    (wf numeric_responses -> nrows numeric_responses = 1%nat ->
     forall i j e, m !! i ≫= (fun row => row !! j) = Some e -> e = CorrNaN).
Proof.
  apply (correlation_matrix_on_numbers example_runtime numeric_responses).
  reflexivity.
Defined.

Lemma unrated_response_is_loaded :
  @load_and_process_data example_runtime unrated_response_csv
    = (Ok tt, unrated_response).
Proof. by vm_compute. Qed.

(** A column without variance has NaN on the diagonal: a table of one
    response in which NPS, the ratings and the scores are all numbers
    gets a matrix without a 1, NaN on the diagonal as everywhere; so
    does the loaded response of a parent who gave an NPS and no
    rating. *)
Lemma correlation_diagonal_counterexample :
  (nrows one_numeric_response = 1%nat /\
   Forall (fun c => columns one_numeric_response !! c = Some [CNum 5]
                    /\ columns one_numeric_response !! score_column c = Some [CNum 5])
     rating_columns /\
   columns one_numeric_response !! "NPS" = Some [CNum 8] /\
   exists m,
     value (@create_correlation_heatmap example_runtime one_numeric_response) = Ok m /\
     m !! 0%nat ≫= (fun row => row !! 0%nat) = Some CorrNaN /\
     Forall (Forall (fun e => e = CorrNaN)) m) /\
  (columns unrated_response !! "NPS" = Some [CNum 8] /\
   exists m,
     value (@create_correlation_heatmap example_runtime unrated_response) = Ok m /\
     m !! 0%nat ≫= (fun row => row !! 0%nat) = Some CorrNaN).
Proof.
  split.
  - split; [done|]. split; [repeat constructor|]. split; [by vm_compute|].
    eexists. split; [by vm_compute|]. split; [done|]. repeat constructor.
  - split; [by vm_compute|]. eexists. split; [by vm_compute|]. done.
Qed.

(** Three numeric responses: the diagonal is 1 where the column varies
    and NaN where it is constant. *)
Lemma correlation_diagonal_example :
  exists m,
    value (@create_correlation_heatmap example_runtime numeric_responses) = Ok m /\
    (exists e, m !! 0%nat ≫= (fun row => row !! 0%nat) = Some e /\ corr_is_one e) /\
    m !! 3%nat ≫= (fun row => row !! 3%nat) = Some CorrNaN.
Proof.
  eexists. split; [by vm_compute|]. split; [|done].
  eexists. split; [done|]. by vm_compute.
Qed.

(** * Further properties

    What the code of the loader, of the aggregators and of the filters
    of the dashboard shows beyond the statements above. *)

(** ** Loading: when it succeeds, how it fails, what it keeps *)

Section LoaderFacts.
Context {rt : Runtime}.

Lemma to_datetime_length v d : to_datetime v = Ok d -> length d = length v.
Proof.
  unfold to_datetime. destruct (read_dates v) as [r|e] eqn:Hr; [|done].
  simpl. intros [= <-]. rewrite length_map. by apply read_dates_length.
Qed.

Lemma to_datetime_times v d :
  to_datetime v = Ok d -> forallb is_time_or_na d = true.
Proof.
  unfold to_datetime. destruct (read_dates v) as [r|e]; [|done].
  simpl. intros [= <-]. clear v. induction r as [|o r IH]; [done|].
  simpl. rewrite IH. by destruct o.
Qed.

(** The loop over the date columns, column by column. *)
Lemma for_each_dates_values cols :
  NoDup cols ->
  forall df df',
    for_each cols date_step tt df = (Ok tt, df') ->
    forall c, c ∈ cols ->
      exists v d, columns df !! c = Some v /\ to_datetime v = Ok d /\
                  columns df' !! c = Some d.
Proof.
  induction cols as [|c0 rest IH]; intros Hnd df df' Hrun c Hc.
  { by apply elem_of_nil in Hc. }
  apply NoDup_cons in Hnd as [Hfresh Hnd].
  simpl in Hrun. unfold bind at 1 in Hrun. unfold date_step at 1 in Hrun.
  unfold bind at 1 in Hrun. unfold getitem at 1 in Hrun.
  destruct (columns df !! c0) as [v0|] eqn:E0; [|done].
  unfold bind at 1 in Hrun. unfold lift at 1 in Hrun.
  destruct (to_datetime v0) as [d0|e] eqn:Ed; [|done]. simpl in Hrun.
  destruct (for_each_dates _ _ _ Hrun) as [_ Hframe].
  apply elem_of_cons in Hc as [->|Hc].
  - exists v0, d0. split; [done|]. split; [done|].
    rewrite Hframe by done. simpl. apply lookup_insert_eq.
  - destruct (IH Hnd _ _ Hrun c Hc) as (v & d & Hv & Hd & Hd').
    exists v, d. split; [|done]. simpl in Hv.
    rewrite lookup_insert_ne in Hv; [done|]. intros ->. done.
Qed.

Lemma for_each_dates_total cols :
  NoDup cols ->
  forall df,
    (forall c, c ∈ cols ->
       exists v d, columns df !! c = Some v /\ to_datetime v = Ok d) ->
    exists df', for_each cols date_step tt df = (Ok tt, df').
Proof.
  induction cols as [|c0 rest IH]; intros Hnd df Hall; [by eexists|].
  apply NoDup_cons in Hnd as [Hfresh Hnd].
  simpl. unfold bind at 1. unfold date_step at 1. unfold bind at 1.
  destruct (Hall c0) as (v0 & d0 & E0 & Hd0); [set_solver|].
  rewrite (getitem_some _ _ _ E0). unfold bind at 1. unfold lift at 1.
  rewrite Hd0. simpl.
  apply IH; [done|]. intros c Hc. simpl.
  rewrite lookup_insert_ne by (intros ->; done). apply Hall. set_solver.
Qed.

Lemma rating_not_date col : col ∈ rating_columns -> col ∉ date_columns.
Proof.
  intros Hcol Hin.
  assert (forallb (fun c => bool_decide (c ∉ date_columns)) rating_columns = true) as H
    by by vm_compute.
  rewrite forallb_forall in H. specialize (H col).
  rewrite <- list_elem_of_In in H. apply H in Hcol.
  by apply bool_decide_eq_true in Hcol.
Qed.

Lemma date_not_score col : col ∈ date_columns -> col ∉ score_column <$> rating_columns.
Proof.
  intros Hcol Hin.
  assert (forallb (fun c => bool_decide (c ∉ score_column <$> rating_columns)) date_columns = true) as H
    by by vm_compute.
  rewrite forallb_forall in H. specialize (H col).
  rewrite <- list_elem_of_In in H. apply H in Hcol.
  by apply bool_decide_eq_true in Hcol.
Qed.

Lemma rating_scores_nodup : NoDup (rating_columns ++ (score_column <$> rating_columns)).
Proof. apply (bool_decide_unpack _). by vm_compute. Qed.

Lemma date_columns_nodup : NoDup date_columns.
Proof. apply (bool_decide_unpack _). by vm_compute. Qed.

Lemma load_split df r df' :
  load_and_process_data df = (r, df') ->
  (exists df1, convert_dates df = (Ok tt, df1) /\ add_scores df1 = (r, df')) \/
  (exists e, convert_dates df = (Raise e, df') /\ r = Raise e).
Proof.
  unfold load_and_process_data. unfold bind at 1.
  destruct (convert_dates df) as [[[]|e] df1] eqn:Hd.
  - intros H. left. by exists df1.
  - intros [= <- <-]. right. by exists e.
Qed.

(** After a successful load every date column holds the dates read from
    what it held, and nothing that is not a date. *)
Lemma load_dates df df' :
  load_and_process_data df = (Ok tt, df') ->
  forall c, c ∈ date_columns ->
    exists v d, columns df !! c = Some v /\ to_datetime v = Ok d /\
                columns df' !! c = Some d /\ forallb is_time_or_na d = true.
Proof.
  intros Hrun c Hc.
  destruct (load_split _ _ _ Hrun) as [(df1 & Hd & Hs)|(e & _ & ?)]; [|done].
  destruct (for_each_scores _ rating_scores_nodup _ _ Hs) as (_ & Hframe2 & _).
  destruct (for_each_dates_values _ date_columns_nodup _ _ Hd c Hc) as (v & d & Hv & Hd' & Hd1).
  exists v, d. split; [done|]. split; [done|]. split.
  - rewrite Hframe2; [done|]. by apply date_not_score.
  - by apply (to_datetime_times v).
Qed.

(** X1. The loader succeeds exactly on the tables that have the three
    date columns, each one a column that [pd.to_datetime] reads, and the
    seven rating columns: what the rating columns and the other columns
    hold never stops it, and the reading of one date column does not
    depend on the reading of another. *)
Theorem load_succeeds_iff df :
  (exists df', load_and_process_data df = (Ok tt, df')) <->
  (forall c, c ∈ date_columns ->
     exists v d, columns df !! c = Some v /\ to_datetime v = Ok d) /\
  (forall c, c ∈ rating_columns -> is_Some (columns df !! c)).
Proof.
  split.
  - intros [df' Hrun]. split.
    + intros c Hc.
      destruct (load_dates _ _ Hrun c Hc) as (v & d & Hv & Hd & _).
      by exists v, d.
    + intros c Hc. destruct (load_scores _ _ Hrun c Hc) as (v & Hv & _). by exists v.
  - intros [Hdates Hratings].
    destruct (for_each_dates_total _ date_columns_nodup df Hdates) as [df1 Hd].
    destruct (for_each_dates _ _ _ Hd) as [_ Hframe].
    destruct (for_each_scores_total rating_columns df1) as [df' Hs].
    { intros c Hc. rewrite Hframe by by apply rating_not_date. by apply Hratings. }
    exists df'. unfold load_and_process_data. unfold bind at 1.
    unfold convert_dates. rewrite Hd. exact Hs.
Qed.




(** X3. A successful load keeps the rows and the invariant of the
    table, leaves every column as read but the three date columns and
    the seven score columns, and leaves in each date column the dates
    read from it, timestamps or missing values only. *)
Theorem load_keeps_table df df' :
  wf df ->
  load_and_process_data df = (Ok tt, df') ->
  wf df' /\ nrows df' = nrows df /\
  (forall k, k ∉ date_columns -> k ∉ score_column <$> rating_columns ->
             columns df' !! k = columns df !! k) /\
  (forall c, c ∈ date_columns ->
     exists v d, columns df !! c = Some v /\ to_datetime v = Ok d /\
                 columns df' !! c = Some d /\ forallb is_time_or_na d = true).
Proof.
  intros Hwf Hrun.
  pose proof (load_dates _ _ Hrun) as Hdates.
  destruct (load_split _ _ _ Hrun) as [(df1 & Hd & Hs)|(e & _ & ?)]; [|done].
  destruct (for_each_dates _ _ _ Hd) as [Hn1 Hframe1].
  destruct (for_each_scores _ rating_scores_nodup _ _ Hs) as (Hn2 & Hframe2 & Hscores).
  split; [|split; [congruence|split; [|done]]].
  - intros k v' Hk. rewrite Hn2, Hn1.
    destruct (decide (k ∈ score_column <$> rating_columns)) as [Hsc|Hsc].
    + apply list_elem_of_fmap in Hsc as (c & -> & Hc).
      destruct (Hscores c Hc) as (v & Hv & Hv'). rewrite Hv' in Hk. injection Hk as <-.
      rewrite length_map. rewrite Hframe1 in Hv by by apply rating_not_date.
      by apply (Hwf c).
    + destruct (decide (k ∈ date_columns)) as [Hdt|Hdt].
      * destruct (Hdates k Hdt) as (v & d & Hv & Hd' & Hd1 & _).
        rewrite Hd1 in Hk. injection Hk as <-.
        rewrite (to_datetime_length _ _ Hd'). by apply (Hwf k).
      * rewrite Hframe2, Hframe1 in Hk by done. by apply (Hwf k).
  - intros k Hk1 Hk2. by rewrite Hframe2, Hframe1.
Qed.

End LoaderFacts.

Lemma load_succeeds_iff_witness :
  exists df', @load_and_process_data example_runtime one_response_csv = (Ok tt, df').
Proof.
  apply (proj2 (@load_succeeds_iff example_runtime one_response_csv)). split.
  - intros c Hc. exists [CStr "2024-01-15"], [CTime jan15].
    unfold date_columns in Hc. rewrite !elem_of_cons, elem_of_nil in Hc.
    destruct Hc as [->|[->|[->|[]]]]; by vm_compute.
  - intros c Hc. unfold rating_columns in Hc. rewrite !elem_of_cons, elem_of_nil in Hc.
    destruct Hc as [->|[->|[->|[->|[->|[->|[->|[]]]]]]]]; by eexists.
Defined.


Lemma load_keeps_table_witness :
  wf one_response /\ nrows one_response = nrows one_response_csv /\
  (forall k, k ∉ date_columns -> k ∉ score_column <$> rating_columns ->
             columns one_response !! k = columns one_response_csv !! k) /\
  (forall c, c ∈ date_columns ->
     exists v d, columns one_response_csv !! c = Some v /\
                 @to_datetime example_runtime v = Ok d /\
                 columns one_response !! c = Some d /\
                 forallb is_time_or_na d = true).
Proof.
  apply (@load_keeps_table example_runtime one_response_csv one_response).
  - solve_wf.
  - by vm_compute.
Defined.

(** ** The satisfaction heatmap of a loaded table *)

Lemma normalize_num_or_na v : forallb is_num_or_na (map normalize v) = true.
Proof.
  induction v as [|c v IH]; [done|]. simpl. rewrite IH, andb_true_r.
  destruct (normalize_cases c) as [->|(s & n & _ & _ & ->)]; done.
Qed.

Lemma series_mean_scores v : series_mean (map normalize v) = Ok (mean_score v).
Proof. unfold series_mean. by rewrite normalize_num_or_na. Qed.

Lemma numbers_scores_range v :
  Forall (fun q => 1 <= q <= 5)%Q (numbers (map normalize v)).
Proof.
  induction v as [|c v IH]; [constructor|]. simpl.
  destruct (normalize_cases c) as [->|(s & n & _ & Hn & ->)]; [done|].
  simpl. constructor; [|done].
  apply rating_map_lookup in Hn as [_ Hn].
  split.
  - change 1%Q with (inject_Z 1). rewrite <- Zle_Qle. lia.
  - change 5%Q with (inject_Z 5). rewrite <- Zle_Qle. lia.
Qed.

Lemma numbers_scores_nil v :
  numbers (map normalize v) = [] <-> forall c, c ∈ v -> normalize c = CNaN.
Proof.
  induction v as [|c v IH]; simpl.
  - split; [|done]. intros _ c Hc. by apply elem_of_nil in Hc.
  - destruct (normalize_cases c) as [Hc|(s & n & _ & _ & Hc)]; rewrite Hc; simpl.
    + rewrite IH. split.
      * intros H c' [->|Hc']%elem_of_cons; [done|by apply H].
      * intros H c' Hc'. apply H. set_solver.
    + split; [done|]. intros H. specialize (H c ltac:(set_solver)). congruence.
Qed.

Lemma Qsum_bounds (a b : Q) xs :
  Forall (fun q => a <= q <= b)%Q xs ->
  (a * inject_Z (Z.of_nat (length xs)) <= Qsum xs
   /\ Qsum xs <= b * inject_Z (Z.of_nat (length xs)))%Q.
Proof.
  induction 1 as [|x xs Hx _ IH].
  - cbn [length]. change (inject_Z (Z.of_nat 0)) with 0%Q. unfold Qsum. simpl. lra.
  - cbn [length]. unfold Qsum. cbn [fold_right]. rewrite Nat2Z.inj_succ, <- Z.add_1_r, inject_Z_plus.
    fold (Qsum xs). change (inject_Z 1) with 1%Q. lra.
Qed.

Lemma nanmean_bounds (a b : Q) xs :
  Forall (fun q => a <= q <= b)%Q xs ->
  nanmean xs = CNaN /\ xs = [] \/
  exists q, nanmean xs = CNum q /\ (a <= q <= b)%Q.
Proof.
  intros H. destruct xs as [|x xs]; [by left|right].
  eexists. split; [reflexivity|].
  destruct (Qsum_bounds a b _ H) as [H1 H2].
  set (n := inject_Z (Z.of_nat (length (x :: xs)))) in *.
  assert (0 < n)%Q as Hn.
  { unfold n. change 0%Q with (inject_Z 0). rewrite <- Zlt_Qlt. simpl. lia. }
  split.
  - apply Qle_shift_div_l; [done|lra].
  - apply Qle_shift_div_r; [done|lra].
Qed.

Lemma heatmap_loop (f : string -> cell) cols :
  forall acc df,
    (forall m, m ∈ cols ->
       exists sc, columns df !! score_column m = Some sc /\ series_mean sc = Ok (f m)) ->
    for_each cols
      (fun metric avg_scores =>
         scores <- getitem (score_column metric) ;;
         m <- lift (series_mean scores) ;;
         ret (avg_scores ++ [(metric, m)])%list) acc df
    = (Ok (acc ++ map (fun m => (m, f m)) cols)%list, df).
Proof.
  induction cols as [|c cols IH]; intros acc df Hall.
  - simpl. by rewrite app_nil_r.
  - destruct (Hall c) as (sc & Hsc & Hmean); [set_solver|].
    cbn [for_each]. unfold bind at 1. unfold bind at 1.
    rewrite (getitem_some _ _ _ Hsc). unfold bind at 1. unfold lift at 1.
    rewrite Hmean. unfold ret at 1.
    rewrite IH by (intros m Hm; apply Hall; set_solver).
    by rewrite <- app_assoc.
Qed.

Section HeatmapFacts.
Context {rt : Runtime}.

(** X4. On a loaded table [create_satisfaction_heatmap] cannot fail: it
    yields the seven rating columns in their order, each with the mean
    of the scores of its recognized ratings, a number between 1 and 5,
    or NaN exactly when the column has no recognized rating. *)
Theorem satisfaction_heatmap_after_load df df' :
  load_and_process_data df = (Ok tt, df') ->
  exists avg_scores,
    create_satisfaction_heatmap df' = (Ok avg_scores, df') /\
    map fst avg_scores = rating_columns /\
    forall metric x, (metric, x) ∈ avg_scores ->
      exists v, columns df !! metric = Some v /\ x = mean_score v /\
        (x = CNaN \/ exists q, x = CNum q /\ (1 <= q <= 5)%Q) /\
        (x = CNaN <-> forall c, c ∈ v -> normalize c = CNaN).
Proof.
  intros Hload.
  set (f := fun m => match columns df !! m with
                     | Some v => mean_score v
                     | None => CNaN
                     end).
  exists (map (fun m => (m, f m)) rating_columns).
  split; [|split].
  - unfold create_satisfaction_heatmap.
    rewrite (heatmap_loop f); [done|].
    intros m Hm. destruct (load_scores _ _ Hload m Hm) as (v & Hv & _ & Hsc).
    exists (map normalize v). split; [done|]. unfold f. rewrite Hv.
    apply series_mean_scores.
  - rewrite map_map. apply map_id.
  - intros metric x Hin. apply list_elem_of_fmap in Hin as (m & [= -> ->] & Hm).
    destruct (load_scores _ _ Hload m Hm) as (v & Hv & _).
    exists v. split; [done|]. unfold f. rewrite Hv. split; [done|].
    unfold mean_score.
    destruct (nanmean_bounds 1 5 _ (numbers_scores_range v)) as [[Hnan Hnil]|(q & Hq & Hr)].
    + split; [by left|]. split; [intros _; by apply numbers_scores_nil|done].
    + split; [right; by exists q|]. rewrite Hq. split; [done|].
      intros Hall. apply numbers_scores_nil in Hall. rewrite Hall in Hq. done.
Qed.

End HeatmapFacts.

Lemma satisfaction_heatmap_after_load_witness :
  exists avg_scores,
    create_satisfaction_heatmap one_response = (Ok avg_scores, one_response) /\
    map fst avg_scores = rating_columns /\
    forall metric x, (metric, x) ∈ avg_scores ->
      exists v, columns one_response_csv !! metric = Some v /\ x = mean_score v /\
        (x = CNaN \/ exists q, x = CNum q /\ (1 <= q <= 5)%Q) /\
        (x = CNaN <-> forall c, c ∈ v -> normalize c = CNaN).
Proof.
  apply (@satisfaction_heatmap_after_load example_runtime one_response_csv one_response).
  by vm_compute.
Defined.

(** ** Weekly response counts *)

Lemma week_end_spec d w :
  week_end d = w <-> (w mod 7 = 3 /\ w - 6 <= d <= w)%Z.
Proof.
  unfold week_end. split; [intros <-|intros [H1 H2]]; Z.div_mod_to_equations; lia.
Qed.

Lemma week_end_in_week w d :
  (w mod 7 = 3)%Z -> (week_end d =? w)%Z = in_week w d.
Proof.
  intros Hw. unfold in_week.
  destruct (Z.eqb_spec (week_end d) w) as [H|H].
  - apply week_end_spec in H. symmetry. apply andb_true_iff. lia.
  - symmetry. apply andb_false_iff.
    destruct (Z.leb_spec (w - 6) d), (Z.leb_spec d w); auto.
    exfalso. apply H. apply week_end_spec. lia.
Qed.

Lemma week_end_mono d d' : (d <= d')%Z -> (week_end d <= week_end d')%Z.
Proof. unfold week_end. Z.div_mod_to_equations. lia. Qed.

Lemma Zmin_list_spec x l :
  Zmin_list x l ∈ x :: l /\ forall y, y ∈ x :: l -> (Zmin_list x l <= y)%Z.
Proof.
  unfold Zmin_list. revert x. induction l as [|a l IH]; intros x; simpl.
  - split; [set_solver|]. intros y ->%list_elem_of_singleton. lia.
  - destruct (IH (Z.min x a)) as [Hin Hle]. split.
    + apply elem_of_cons in Hin as [Hin|Hin]; [|set_solver].
      rewrite Hin. destruct (Z.min_spec x a) as [[_ ->]|[_ ->]]; set_solver.
    + intros y Hy. pose proof (Hle (Z.min x a) ltac:(set_solver)) as Hm.
      apply elem_of_cons in Hy as [->|[->|Hy]%elem_of_cons]; [lia|lia|].
      apply Hle. set_solver.
Qed.

Lemma Zmax_list_spec x l :
  Zmax_list x l ∈ x :: l /\ forall y, y ∈ x :: l -> (y <= Zmax_list x l)%Z.
Proof.
  unfold Zmax_list. revert x. induction l as [|a l IH]; intros x; simpl.
  - split; [set_solver|]. intros y ->%list_elem_of_singleton. lia.
  - destruct (IH (Z.max x a)) as [Hin Hle]. split.
    + apply elem_of_cons in Hin as [Hin|Hin]; [|set_solver].
      rewrite Hin. destruct (Z.max_spec x a) as [[_ ->]|[_ ->]]; set_solver.
    + intros y Hy. pose proof (Hle (Z.max x a) ltac:(set_solver)) as Hm.
      apply elem_of_cons in Hy as [->|[->|Hy]%elem_of_cons]; [lia|lia|].
      apply Hle. set_solver.
Qed.

Lemma indicator_sum i0 s n :
  list_sum (map (fun i => if (i =? i0)%nat then 1 else 0)%nat (seq s n))
  = if ((s <=? i0) && (i0 <? s + n))%nat then 1%nat else 0%nat.
Proof.
  revert s. induction n as [|n IH]; intros s; simpl.
  - destruct (Nat.leb_spec s i0), (Nat.ltb_spec i0 (s + 0)); simpl; lia.
  - rewrite IH.
    destruct (Nat.eqb_spec s i0), (Nat.leb_spec s i0), (Nat.leb_spec (S s) i0),
      (Nat.ltb_spec i0 (s + S n)), (Nat.ltb_spec i0 (S s + n)); simpl; lia.
Qed.

Lemma list_sum_add {A} (f g : A -> nat) l :
  list_sum (map (fun i => f i + g i)%nat l) = (list_sum (map f l) + list_sum (map g l))%nat.
Proof. induction l as [|x l IH]; simpl; [done|]. rewrite IH. lia. Qed.

Lemma list_sum_zero {A} (l : list A) : list_sum (map (fun _ => 0%nat) l) = 0%nat.
Proof. induction l; simpl; auto. Qed.

(** Weeks [first], [first + 7], ... partition the days that fall in one
    of them. *)
Lemma weekly_partition first m (days : list Z) :
  (forall x, x ∈ days -> exists i, (i < m)%nat /\ week_end x = (first + 7 * Z.of_nat i)%Z) ->
  list_sum
    (map (fun i => length (List.filter (fun x => (week_end x =? first + 7 * Z.of_nat i)%Z) days))
       (seq 0 m))
  = length days.
Proof.
  induction days as [|x l IH]; intros Hall.
  - simpl. apply list_sum_zero.
  - destruct (Hall x) as (i0 & Hi0 & Hx); [set_solver|].
    transitivity
      (list_sum (map (fun i => (if (i =? i0)%nat then 1 else 0) +
         length (List.filter (fun x => (week_end x =? first + 7 * Z.of_nat i)%Z) l))%nat
         (seq 0 m))).
    + f_equal. apply map_ext. intros i. simpl. rewrite Hx.
      destruct (Nat.eqb_spec i i0) as [->|Hne].
      * by rewrite Z.eqb_refl.
      * destruct (Z.eqb_spec (first + 7 * Z.of_nat i0) (first + 7 * Z.of_nat i)); [lia|done].
    + rewrite list_sum_add, indicator_sum, IH by (intros y Hy; apply Hall; set_solver).
      simpl. destruct (Nat.ltb_spec i0 m); [done|lia].
Qed.

Lemma filter_map_length {A B} (p : B -> bool) (f : A -> B) l :
  length (List.filter p (map f l)) = length (List.filter (fun x => p (f x)) l).
Proof.
  induction l as [|x l IH]; simpl; [done|]. destruct (p (f x)); simpl; by rewrite IH.
Qed.

Lemma filter_length_pos {A} (p : A -> bool) l x :
  x ∈ l -> p x = true -> (0 < length (List.filter p l))%nat.
Proof.
  intros Hx Hp. assert (In x (List.filter p l)) as Hin.
  { apply filter_In. split; [by apply list_elem_of_In|done]. }
  destruct (List.filter p l); [done|simpl; lia].
Qed.

(** The table of [resample('W').size()], entry by entry. *)
Lemma weekly_size_spec d ds :
  let days := d :: ds in
  let first := week_end (Zmin_list d ds) in
  exists m,
    weekly_size days =
      map (fun i => (((first + 7 * Z.of_nat i) * day_ns)%Z,
                     length (List.filter (in_week (first + 7 * Z.of_nat i)) days)))
        (seq 0 (S m)) /\
    (first + 7 * Z.of_nat m)%Z = week_end (Zmax_list d ds) /\
    (first mod 7 = 3)%Z /\
    (forall x, x ∈ days ->
       exists i, (i < S m)%nat /\ week_end x = (first + 7 * Z.of_nat i)%Z).
Proof.
  cbv zeta.
  destruct (Zmin_list_spec d ds) as [Hmin_in Hmin].
  destruct (Zmax_list_spec d ds) as [Hmax_in Hmax].
  unfold weekly_size.
  remember (week_end (Zmin_list d ds)) as first eqn:Hfirst.
  remember (week_end (Zmax_list d ds)) as last eqn:Hlast.
  assert (first mod 7 = 3)%Z as Hf
    by (rewrite Hfirst; unfold week_end; Z.div_mod_to_equations; lia).
  assert (last mod 7 = 3)%Z as Hl
    by (rewrite Hlast; unfold week_end; Z.div_mod_to_equations; lia).
  assert (first <= last)%Z as Hfl.
  { rewrite Hfirst, Hlast. apply week_end_mono. by apply Hmin. }
  remember (Z.to_nat ((last - first) / 7)) as m eqn:Hm'.
  assert (first + 7 * Z.of_nat m = last)%Z as Hm.
  { rewrite Hm'. rewrite Z2Nat.id by (apply Z.div_pos; lia).
    Z.div_mod_to_equations. lia. }
  exists m. split; [|split; [done|split; [done|]]].
  - rewrite Nat.add_1_r.
    apply map_ext. intros i. f_equal.
    f_equal. apply filter_ext. intros x. apply week_end_in_week.
    Z.div_mod_to_equations. lia.
  - intros x Hx.
    assert (first <= week_end x <= last)%Z as Hr.
    { rewrite Hfirst, Hlast. split; apply week_end_mono; [by apply Hmin|by apply Hmax]. }
    assert (week_end x mod 7 = 3)%Z as Hw by (unfold week_end; Z.div_mod_to_equations; lia).
    exists (Z.to_nat ((week_end x - first) / 7)).
    rewrite Z2Nat.id by (apply Z.div_pos; lia).
    split; [|Z.div_mod_to_equations; lia].
    apply Nat2Z.inj_lt. rewrite Z2Nat.id by (apply Z.div_pos; lia).
    Z.div_mod_to_equations. lia.
Qed.

Lemma weekly_run df v :
  columns df !! "Survey Response Date [GMT]" = Some v ->
  forallb is_time_or_na v = true ->
  calculate_weekly_response_rate df
    = (Ok (weekly_size (map day_of (timestamps v))), df).
Proof.
  intros Hv Hall. unfold calculate_weekly_response_rate. unfold bind at 1.
  rewrite (getitem_some _ _ _ Hv). by rewrite Hall.
Qed.

Lemma weekly_value df v weeks :
  columns df !! "Survey Response Date [GMT]" = Some v ->
  value (calculate_weekly_response_rate df) = Ok weeks ->
  forallb is_time_or_na v = true /\ weeks = weekly_size (map day_of (timestamps v)).
Proof.
  intros Hv. unfold calculate_weekly_response_rate. unfold bind at 1.
  rewrite (getitem_some _ _ _ Hv).
  destruct (forallb is_time_or_na v); [|done].
  unfold value, ret. simpl. by intros [= <-].
Qed.

(** X6. Where the response dates are timestamps or missing and one at
    least is there, [calculate_weekly_response_rate] does not fail, and
    its counts add up to the number of responses that have a date: a
    response without a date is in no week, every other in exactly
    one. *)
Theorem weekly_counts_add_up df v :
  columns df !! "Survey Response Date [GMT]" = Some v ->
  forallb is_time_or_na v = true ->
  timestamps v <> [] ->
  exists weeks,
    calculate_weekly_response_rate df = (Ok weeks, df) /\
    weeks <> [] /\
    list_sum (map snd weeks) = length (timestamps v).
Proof.
  intros Hv Hall Hne. eexists. split; [by apply weekly_run|].
  destruct (timestamps v) as [|t ts] eqn:Ets; [done|].
  change (map day_of (t :: ts)) with (day_of t :: map day_of ts).
  destruct (weekly_size_spec (day_of t) (map day_of ts)) as (m & -> & _ & Hf & Hcover).
  split; [done|].
  rewrite map_map.
  transitivity (length (day_of t :: map day_of ts)); [|simpl; by rewrite length_map].
  rewrite <- (weekly_partition (week_end (Zmin_list (day_of t) (map day_of ts))) (S m)
                (day_of t :: map day_of ts)) by done.
  f_equal. apply map_ext. intros i. cbn [snd]. f_equal. apply filter_ext. intros x.
  symmetry. apply week_end_in_week. Z.div_mod_to_equations. lia.
Qed.

Lemma weekly_counts_add_up_witness :
  exists weeks,
    calculate_weekly_response_rate four_responses = (Ok weeks, four_responses) /\
    weeks <> [] /\
    list_sum (map snd weeks) = length (timestamps four_dates).
Proof.
  apply (weekly_counts_add_up four_responses four_dates); by vm_compute.
Defined.

(** X7. The weeks [calculate_weekly_response_rate] lists: each is
    labelled by the midnight of a Sunday and counts the responses of the
    seven days that end on it; each label is seven days after the one
    before, so a week without a response is listed with the count 0; the
    first and the last week listed have a response. *)
Theorem weekly_weeks_are_consecutive df v weeks :
  columns df !! "Survey Response Date [GMT]" = Some v ->
  value (calculate_weekly_response_rate df) = Ok weeks ->
  (forall w n, (w, n) ∈ weeks ->
     exists sunday,
       w = (sunday * day_ns)%Z /\ (sunday mod 7 = 3)%Z /\
       n = length (List.filter (fun t => in_week sunday (day_of t)) (timestamps v))) /\
  (forall i w n w' n',
     weeks !! i = Some (w, n) -> weeks !! S i = Some (w', n') ->
     w' = (w + 7 * day_ns)%Z) /\
  (forall w n, head weeks = Some (w, n) -> (0 < n)%nat) /\
  (forall w n, last weeks = Some (w, n) -> (0 < n)%nat).
Proof.
  intros Hv Hrun. destruct (weekly_value _ _ _ Hv Hrun) as [_ ->].
  destruct (timestamps v) as [|t ts] eqn:Ets.
  { simpl. split; [|split; [|split]]; try done.
    intros w n H. by apply elem_of_nil in H. }
  change (map day_of (t :: ts)) with (day_of t :: map day_of ts).
  destruct (Zmin_list_spec (day_of t) (map day_of ts)) as [Hmin_in _].
  destruct (Zmax_list_spec (day_of t) (map day_of ts)) as [Hmax_in _].
  destruct (weekly_size_spec (day_of t) (map day_of ts)) as (m & -> & Hlast & Hf & _).
  remember (week_end (Zmin_list (day_of t) (map day_of ts))) as first eqn:Hfirst.
  split; [|split; [|split]].
  - intros w n Hin. apply list_elem_of_fmap in Hin as (i & [= -> ->] & _).
    exists (first + 7 * Z.of_nat i)%Z. split; [done|].
    split; [Z.div_mod_to_equations; lia|].
    exact (filter_map_length (in_week (first + 7 * Z.of_nat i)) day_of (t :: ts)).
  - intros i w n w' n' H1 H2.
    rewrite list_lookup_fmap in H1, H2.
    destruct (seq 0 (S m) !! i) as [a|] eqn:Ea; [|done].
    destruct (seq 0 (S m) !! S i) as [b|] eqn:Eb; [|done].
    apply lookup_seq in Ea as [-> _]. apply lookup_seq in Eb as [-> _].
    simpl in H1, H2. injection H1 as <- _. injection H2 as <- _. lia.
  - intros w n. cbn [seq map head]. intros [= <- <-].
    apply (filter_length_pos (in_week (first + 7 * Z.of_nat 0))
             (day_of t :: map day_of ts) (Zmin_list (day_of t) (map day_of ts)));
      [done|].
    rewrite <- week_end_in_week by (Z.div_mod_to_equations; lia).
    apply Z.eqb_eq. rewrite Hfirst. lia.
  - intros w n. rewrite seq_S, map_app. cbn [map Nat.add]. rewrite last_snoc.
    intros [= <- <-].
    apply (filter_length_pos (in_week (first + 7 * Z.of_nat m))
             (day_of t :: map day_of ts) (Zmax_list (day_of t) (map day_of ts)));
      [done|].
    rewrite <- week_end_in_week by (Z.div_mod_to_equations; lia).
    apply Z.eqb_eq. lia.
Qed.

Lemma weekly_weeks_are_consecutive_witness :
  (forall w n, (w, n) ∈ four_weeks ->
     exists sunday,
       w = (sunday * day_ns)%Z /\ (sunday mod 7 = 3)%Z /\
       n = length (List.filter (fun t => in_week sunday (day_of t))
                     (timestamps four_dates))) /\
  (forall i w n w' n',
     four_weeks !! i = Some (w, n) -> four_weeks !! S i = Some (w', n') ->
     w' = (w + 7 * day_ns)%Z) /\
  (forall w n, head four_weeks = Some (w, n) -> (0 < n)%nat) /\
  (forall w n, last four_weeks = Some (w, n) -> (0 < n)%nat).
Proof.
  apply (weekly_weeks_are_consecutive four_responses four_dates four_weeks);
    by vm_compute.
Defined.

(** ** The filters of the dashboard *)

Lemma select_cons_false {A} mask (l : list A) :
  select (false :: mask) l = select mask (tail l).
Proof. destruct l as [|x l]; [by destruct mask|done]. Qed.

Lemma select_cons_true_tail {A} mask (l : list A) :
  tail (select (true :: mask) l) = select mask (tail l).
Proof. destruct l as [|x l]; [by destruct mask|done]. Qed.

Lemma select_length {A} mask (l : list A) :
  length l = length mask -> length (select mask l) = length (List.filter id mask).
Proof.
  revert l. induction mask as [|b mask IH]; intros [|x l] Hlen; try done.
  simpl in Hlen. injection Hlen as Hlen. unfold select in *. simpl.
  destruct b; simpl; by rewrite IH.
Qed.

Lemma rows_S n cols :
  map (row cols) (seq 0 (S n))
  = omap head cols :: map (row (tail <$> cols)) (seq 0 n).
Proof.
  cbn [seq map]. f_equal.
  - unfold row. apply map_eq. intros k. rewrite !lookup_omap.
    destruct (cols !! k) as [v|]; [|done]. simpl. by destruct v.
  - rewrite <- seq_shift, map_map. apply map_ext. intros i.
    unfold row. apply map_eq. intros k. rewrite !lookup_omap, lookup_fmap.
    destruct (cols !! k) as [v|]; [|done]. simpl. by destruct v.
Qed.

Lemma rows_select mask :
  forall cols : gmap string Series,
    map_Forall (fun _ v => length v = length mask) cols ->
    map (row (select mask <$> cols)) (seq 0 (length (List.filter id mask)))
    = select mask (map (row cols) (seq 0 (length mask))).
Proof.
  induction mask as [|b mask IH]; intros cols Hlen; [done|].
  assert (map_Forall (fun _ v => length v = length mask) (tail <$> cols)) as Hlen'.
  { intros k v'. rewrite lookup_fmap. destruct (cols !! k) as [v|] eqn:E; [|done].
    simpl. intros [= <-]. specialize (Hlen k v E). simpl in Hlen.
    destruct v; simpl in *; [done|lia]. }
  cbn [length]. rewrite (rows_S (length mask) cols).
  destruct b.
  - change (List.filter id (true :: mask)) with (true :: List.filter id mask).
    cbn [length]. rewrite rows_S.
    change (select (true :: mask) (?x :: ?l)) with (x :: select mask l).
    f_equal.
    + apply map_eq. intros k. rewrite !lookup_omap, lookup_fmap.
      destruct (cols !! k) as [v|]; [|done]. simpl. by destruct v.
    + rewrite <- (IH _ Hlen'). f_equal. f_equal.
      apply map_eq. intros k. rewrite !lookup_fmap.
      destruct (cols !! k) as [v|]; [|done]. simpl. f_equal.
      apply select_cons_true_tail.
  - change (List.filter id (false :: mask)) with (List.filter id mask).
    change (select (false :: mask) (?x :: ?l)) with (select mask l).
    rewrite <- (IH _ Hlen'). f_equal. f_equal.
    apply map_eq. intros k. rewrite !lookup_fmap.
    destruct (cols !! k) as [v|]; [|done]. simpl. f_equal.
    apply select_cons_false.
Qed.

(** Indexing by a mask of the length of the table keeps the rows where
    the mask holds. *)
Lemma boolean_index_rows mask df :
  wf df -> length mask = nrows df ->
  wf (frame (boolean_index mask df)) /\
  rows (frame (boolean_index mask df)) = select mask (rows df).
Proof.
  intros Hwf Hlen. unfold boolean_index, frame, rows. simpl. split.
  - intros k v'. simpl. rewrite lookup_fmap.
    destruct (columns df !! k) as [v|] eqn:E; [|done]. simpl. intros [= <-].
    apply select_length. rewrite Hlen. by apply (Hwf k).
  - rewrite <- Hlen. apply rows_select. intros k v E. rewrite Hlen. by apply (Hwf k).
Qed.

(** A mask computed cell by cell from one column selects the rows by
    that cell. *)
Lemma select_by_column (f : cell -> bool) (g : gmap string cell -> bool) col v df :
  wf df -> columns df !! col = Some v ->
  (forall r c, r !! col = Some c -> g r = f c) ->
  select (map f v) (rows df) = List.filter g (rows df).
Proof.
  intros Hwf Hv Hg. unfold rows.
  assert (length v = nrows df) as Hlen by by apply (Hwf col).
  assert (forall i, (i < nrows df)%nat -> exists c, v !! i = Some c /\ row (columns df) i !! col = Some c) as Hrow.
  { intros i Hi. destruct (lookup_lt_is_Some_2 v i) as [c Hc]; [lia|].
    exists c. split; [done|]. unfold row. by rewrite lookup_omap, Hv. }
  clear Hwf Hv. revert Hrow Hlen.
  generalize (row (columns df)). generalize (nrows df). clear df.
  intros n rw. revert rw v. induction n as [|n IH]; intros rw v Hrow Hlen.
  - destruct v; done.
  - destruct v as [|c v]; [done|]. injection Hlen as Hlen.
    cbn [seq map]. rewrite <- seq_shift, map_map.
    destruct (Hrow 0%nat) as (c0 & [= <-] & Hc0); [lia|].
    unfold select. cbn [combine List.filter fst].
    rewrite (Hg _ _ Hc0).
    specialize (IH (fun i => rw (S i)) v).
    unfold select in IH. destruct (f c); cbn [map snd]; rewrite IH; try done.
    all: intros i Hi; destruct (Hrow (S i)) as (c' & Hc' & Hr); [lia|]; by exists c'.
Qed.

Lemma zip_with_map_same {A B C D} (f : B -> C -> D) (a : A -> B) (b : A -> C) l :
  zip_with f (map a l) (map b l) = map (fun x => f (a x) (b x)) l.
Proof. induction l as [|x l IH]; simpl; [done|]. by rewrite IH. Qed.

Lemma date_mask from to v :
  zip_with andb
    (map (date_ge from) (map (fun c => match c with CTime t => Some (day_of t) | _ => None end) v))
    (map (date_le to) (map (fun c => match c with CTime t => Some (day_of t) | _ => None end) v))
  = map (date_cell_in from to) v.
Proof.
  rewrite !map_map, zip_with_map_same. apply map_ext. intros c. by destruct c.
Qed.

Lemma filter_dates_run from to df v :
  columns df !! "Survey Response Date [GMT]" = Some v ->
  forallb is_time_or_na v = true ->
  filter_dates [from; to] df = boolean_index (map (date_cell_in from to) v) df.
Proof.
  intros Hv Hall. unfold filter_dates. cbn [length Nat.eqb nth].
  unfold bind at 1. rewrite (getitem_some _ _ _ Hv).
  unfold bind at 1. unfold lift at 1. unfold dt_date. rewrite Hall. cbn [res_map].
  unfold bind at 1. rewrite (getitem_some _ _ _ Hv).
  unfold bind at 1. unfold lift at 1. rewrite Hall. cbn [res_map].
  by rewrite date_mask.
Qed.

Lemma filter_dates_skip date_range df :
  length date_range <> 2%nat -> filter_dates date_range df = (Ok tt, df).
Proof.
  intros H. unfold filter_dates. by destruct (Nat.eqb_spec (length date_range) 2).
Qed.

Lemma in_date_range_skip date_range r :
  length date_range <> 2%nat -> in_date_range date_range r = true.
Proof. destruct date_range as [|a [|b [|c l]]]; done. Qed.

Lemma filter_true {A} (p : A -> bool) l :
  (forall x, p x = true) -> List.filter p l = l.
Proof. intros H. induction l as [|x l IH]; simpl; [done|]. by rewrite H, IH. Qed.

Lemma filter_and {A} (p q : A -> bool) l :
  List.filter q (List.filter p l) = List.filter (fun x => p x && q x) l.
Proof.
  induction l as [|x l IH]; simpl; [done|].
  destruct (p x); simpl; [|done]. destruct (q x); by rewrite IH.
Qed.

(** The filter on the dates, when it can run. *)
Lemma filter_dates_rows date_range df :
  wf df ->
  (length date_range = 2%nat ->
   exists v, columns df !! "Survey Response Date [GMT]" = Some v /\
             forallb is_time_or_na v = true) ->
  exists df1,
    filter_dates date_range df = (Ok tt, df1) /\
    wf df1 /\
    rows df1 = List.filter (in_date_range date_range) (rows df) /\
    (forall k, is_Some (columns df !! k) -> is_Some (columns df1 !! k)).
Proof.
  intros Hwf Hcol.
  destruct (decide (length date_range = 2%nat)) as [Hlen|Hlen].
  - destruct (Hcol Hlen) as (v & Hv & Hall).
    destruct date_range as [|from [|to [|c l]]]; try done.
    rewrite (filter_dates_run from to df v Hv Hall).
    assert (length (map (date_cell_in from to) v) = nrows df) as Hm.
    { rewrite length_map. by apply (Hwf _ _ Hv). }
    destruct (boolean_index_rows _ df Hwf Hm) as [Hwf1 Hrows].
    eexists. split; [reflexivity|]. split; [exact Hwf1|]. split.
    + unfold frame in Hrows. simpl in Hrows. simpl. rewrite Hrows.
      apply (select_by_column _ _ "Survey Response Date [GMT]" v); [done|done|].
      intros r c Hr. unfold in_date_range. by rewrite Hr.
    + intros k [x Hx]. simpl. rewrite lookup_fmap, Hx. by eexists.
  - exists df. split; [by apply filter_dates_skip|]. split; [done|]. split; [|done].
    symmetry. apply filter_true. intros r. by apply in_date_range_skip.
Qed.

Lemma filter_cities_rows selected_cities df :
  wf df ->
  (selected_cities <> [] -> is_Some (columns df !! "City")) ->
  exists df1,
    filter_cities selected_cities df = (Ok tt, df1) /\
    wf df1 /\
    rows df1 = List.filter (in_cities selected_cities) (rows df).
Proof.
  intros Hwf Hcol. destruct selected_cities as [|c0 sel].
  - exists df. split; [done|]. split; [done|]. symmetry. by apply filter_true.
  - destruct Hcol as [city Hcity]; [done|].
    unfold filter_cities. unfold bind at 1. rewrite (getitem_some _ _ _ Hcity).
    assert (length (isin (c0 :: sel) city) = nrows df) as Hm.
    { unfold isin. rewrite length_map. by apply (Hwf _ _ Hcity). }
    destruct (boolean_index_rows _ df Hwf Hm) as [Hwf1 Hrows].
    eexists. split; [reflexivity|]. split; [exact Hwf1|].
    unfold frame in Hrows. simpl in Hrows. simpl. rewrite Hrows.
    apply (select_by_column _ _ "City" city); [done|done|].
    intros r c Hr. unfold in_cities. by rewrite Hr.
Qed.

(** X15. The filters of the dashboard work row by row. Where the date
    filter applies the response dates must be dates, and where the city
    filter applies the table must have its city column; the filters then
    do not fail, and the table they leave has the rows of the table they
    are given, whole and in their order, that are in the date range and
    of a selected city. A response without a date is in no range. *)
Theorem filters_keep_matching_rows date_range selected_cities df :
  wf df ->
  (length date_range = 2%nat ->
   exists v, columns df !! "Survey Response Date [GMT]" = Some v /\
             forallb is_time_or_na v = true) ->
  (selected_cities <> [] -> is_Some (columns df !! "City")) ->
  exists filtered_df,
    apply_filters date_range selected_cities df = (Ok tt, filtered_df) /\
    wf filtered_df /\
    rows filtered_df
    = List.filter (fun r => in_date_range date_range r && in_cities selected_cities r)
        (rows df).
Proof.
  intros Hwf Hdate Hcity.
  destruct (filter_dates_rows date_range df Hwf Hdate) as (df1 & Hrun1 & Hwf1 & Hrows1 & Hkeys).
  destruct (filter_cities_rows selected_cities df1 Hwf1) as (df2 & Hrun2 & Hwf2 & Hrows2).
  { intros Hne. apply Hkeys. by apply Hcity. }
  exists df2. split; [|split; [done|]].
  - unfold apply_filters. unfold bind at 1. by rewrite Hrun1.
  - by rewrite Hrows2, Hrows1, filter_and.
Qed.

Lemma filters_keep_matching_rows_witness :
  exists filtered_df,
    apply_filters [jan15_day; (jan15_day + 10)%Z] [CStr "Pune"] four_responses
      = (Ok tt, filtered_df) /\
    wf filtered_df /\
    rows filtered_df
    = List.filter (fun r => in_date_range [jan15_day; (jan15_day + 10)%Z] r
                            && in_cities [CStr "Pune"] r)
        (rows four_responses).
Proof.
  apply (filters_keep_matching_rows [jan15_day; (jan15_day + 10)%Z] [CStr "Pune"]
           four_responses).
  - solve_wf.
  - intros _. exists four_dates. by vm_compute.
  - intros _. eexists. by vm_compute.
Defined.

Lemma select_all_true {A} mask (l : list A) :
  forallb id mask = true -> length l = length mask -> select mask l = l.
Proof.
  revert l. induction mask as [|b mask IH]; intros [|x l] Hall Hlen; try done.
  simpl in Hall. apply andb_true_iff in Hall as [Hb Hall]. destruct b; [|done].
  injection Hlen as Hlen. unfold select in *. simpl. f_equal. by apply IH.
Qed.

Lemma filter_id_all_true mask :
  forallb id mask = true -> List.filter id mask = mask.
Proof.
  induction mask as [|b mask IH]; [done|]. simpl.
  intros [Hb Hall]%andb_true_iff. destruct b; [|done]. simpl. f_equal. by apply IH.
Qed.

Lemma date_mask_count from to v :
  (forall t, t ∈ timestamps v -> (from <= day_of t <= to)%Z) ->
  length (List.filter id (map (date_cell_in from to) v)) = length (timestamps v).
Proof.
  induction v as [|c v IH]; intros Hr; [done|].
  destruct c as [s|q|t|]; cbn [map date_cell_in List.filter id timestamps flat_map app];
    try (apply IH; intros t' Ht'; apply Hr; simpl; done).
  assert ((from <=? day_of t)%Z && (day_of t <=? to)%Z = true) as ->.
  { specialize (Hr t ltac:(simpl; set_solver)). apply andb_true_iff. lia. }
  simpl. f_equal. apply IH. intros t' Ht'. apply Hr. simpl. set_solver.
Qed.

Lemma date_mask_all_true from to v :
  forallb is_time_or_na v = true -> CNaN ∉ v ->
  (forall t, t ∈ timestamps v -> (from <= day_of t <= to)%Z) ->
  forallb id (map (date_cell_in from to) v) = true.
Proof.
  induction v as [|c v IH]; intros Hall Hnan Hr; [done|].
  simpl in Hall. apply andb_true_iff in Hall as [Hc Hall].
  destruct c as [s|q|t|]; try done.
  - cbn [map forallb date_cell_in id]. apply andb_true_iff. split.
    + specialize (Hr t ltac:(simpl; set_solver)). apply andb_true_iff. lia.
    + apply IH; [done|set_solver|]. intros t' Ht'. apply Hr. simpl. set_solver.
  - exfalso. apply Hnan. set_solver.
Qed.

(** X16. With a range that covers every response date and no city
    selected, which is how the dashboard starts, the filters leave as
    many rows as there are responses with a date: the responses without
    a date are left out. The table is left as it is when every response
    has a date. *)
Theorem full_range_keeps_dated_rows from to df v :
  wf df ->
  columns df !! "Survey Response Date [GMT]" = Some v ->
  forallb is_time_or_na v = true ->
  (forall t, t ∈ timestamps v -> (from <= day_of t <= to)%Z) ->
  exists filtered_df,
    apply_filters [from; to] [] df = (Ok tt, filtered_df) /\
    nrows filtered_df = length (timestamps v) /\
    (CNaN ∉ v -> filtered_df = df).
Proof.
  intros Hwf Hv Hall Hr.
  eexists. split; [|split].
  - unfold apply_filters. unfold bind at 1.
    rewrite (filter_dates_run from to df v Hv Hall). reflexivity.
  - simpl. by apply date_mask_count.
  - intros Hnan. pose proof (date_mask_all_true from to v Hall Hnan Hr) as Htrue.
    assert (length v = nrows df) as Hlen by by apply (Hwf _ _ Hv).
    destruct df as [n cols]. simpl in *. f_equal.
    + by rewrite filter_id_all_true, length_map.
    + apply map_eq. intros k. rewrite lookup_fmap.
      destruct (cols !! k) as [x|] eqn:E; [|done]. simpl. f_equal.
      apply select_all_true; [done|]. rewrite length_map, Hlen. by apply (Hwf k).
Qed.

Lemma full_range_keeps_dated_rows_witness :
  exists filtered_df,
    apply_filters [jan15_day; (jan15_day + 30)%Z] [] four_responses
      = (Ok tt, filtered_df) /\
    nrows filtered_df = length (timestamps four_dates) /\
    (CNaN ∉ four_dates -> filtered_df = four_responses).
Proof.
  apply (full_range_keeps_dated_rows jan15_day (jan15_day + 30)%Z four_responses four_dates).
  - solve_wf.
  - by vm_compute.
  - by vm_compute.
  - apply Forall_forall. apply (bool_decide_unpack _). by vm_compute.
Defined.

(** X17. What stops the filters: with a range of two dates, a missing
    date column ([KeyError]) or a date column with a value that is not a
    date ([AttributeError]); with a city selected, a missing city column
    ([KeyError]). Nothing else does, and with no range of two dates and
    no city selected nothing does. *)
Theorem filters_failure date_range selected_cities df e df' :
  apply_filters date_range selected_cities df = (Raise e, df') ->
  (e = KeyError /\ length date_range = 2%nat /\
   columns df !! "Survey Response Date [GMT]" = None) \/
  (e = AttributeError /\ length date_range = 2%nat /\
   exists v c, columns df !! "Survey Response Date [GMT]" = Some v /\
               c ∈ v /\ is_time_or_na c = false) \/
  (e = KeyError /\ selected_cities <> [] /\ columns df !! "City" = None).
Proof.
  unfold apply_filters. unfold bind at 1.
  destruct (decide (length date_range = 2%nat)) as [Hlen|Hlen].
  - destruct date_range as [|from [|to [|c l]]]; try done.
    destruct (columns df !! "Survey Response Date [GMT]") as [v|] eqn:Hv.
    + destruct (forallb is_time_or_na v) eqn:Hall.
      * rewrite (filter_dates_run from to df v Hv Hall). cbn [boolean_index].
        destruct selected_cities as [|c0 sel]; [done|].
        unfold filter_cities. unfold bind at 1. unfold getitem at 1. simpl.
        rewrite lookup_fmap.
        destruct (columns df !! "City") as [city|] eqn:Hc; [done|].
        simpl. intros [= <- _]. right. right. done.
      * unfold filter_dates. cbn [length Nat.eqb nth].
        unfold bind at 1. rewrite (getitem_some _ _ _ Hv).
        unfold bind at 1. unfold lift at 1. unfold dt_date. rewrite Hall.
        cbn [res_map]. intros [= <- _]. right. left. split; [done|]. split; [done|].
        assert (exists c, c ∈ v /\ is_time_or_na c = false) as (c & Hc & Hn).
        { clear -Hall. induction v as [|c v IH]; [done|]. simpl in Hall.
          apply andb_false_iff in Hall as [H|H].
          - exists c. split; [set_solver|done].
          - destruct (IH H) as (c' & ? & ?). exists c'. split; [set_solver|done]. }
        by exists v, c.
    + unfold filter_dates. cbn [length Nat.eqb nth].
      unfold bind at 1. rewrite (getitem_none _ _ Hv).
      intros [= <- _]. by left.
  - rewrite (filter_dates_skip _ _ Hlen).
    destruct selected_cities as [|c0 sel]; [done|].
    unfold filter_cities. unfold bind at 1. unfold getitem at 1.
    destruct (columns df !! "City") as [city|] eqn:Hc; [done|].
    intros [= <- _]. right. right. done.
Qed.

Lemma filters_failure_witness :
  (KeyError = KeyError /\ length [0%Z; 0%Z] = 2%nat /\
   columns labels_no_rows !! "Survey Response Date [GMT]" = None) \/
  (KeyError = AttributeError /\ length [0%Z; 0%Z] = 2%nat /\
   exists v c, columns labels_no_rows !! "Survey Response Date [GMT]" = Some v /\
               c ∈ v /\ is_time_or_na c = false) \/
  (KeyError = KeyError /\ @nil cell <> [] /\ columns labels_no_rows !! "City" = None).
Proof.
  apply (filters_failure [0%Z; 0%Z] [] labels_no_rows KeyError labels_no_rows).
  by vm_compute.
Defined.

Lemma boolean_index_all_true mask df :
  wf df -> forallb id mask = true -> length mask = nrows df ->
  boolean_index mask df = (Ok tt, df).
Proof.
  intros Hwf Htrue Hlen. unfold boolean_index. f_equal.
  destruct df as [n cols]. simpl in *. f_equal.
  - by rewrite filter_id_all_true.
  - apply map_eq. intros k. rewrite lookup_fmap.
    destruct (cols !! k) as [x|] eqn:E; [|done]. simpl. f_equal.
    apply select_all_true; [done|]. rewrite Hlen. by apply (Hwf k).
Qed.

(** X20. Selecting every city of the table is selecting none: where
    each value of the city column is among the cities selected, the
    filter on the cities leaves the table as it is. *)
Theorem selecting_every_city_keeps_table selected_cities df city :
  wf df ->
  columns df !! "City" = Some city ->
  Forall (fun c => existsb (key_eqb c) selected_cities = true) city ->
  filter_cities selected_cities df = (Ok tt, df).
Proof.
  intros Hwf Hcity Hall. destruct selected_cities as [|c0 sel]; [done|].
  unfold filter_cities. unfold bind at 1. rewrite (getitem_some _ _ _ Hcity).
  apply boolean_index_all_true; [done| |].
  - unfold isin. clear Hcity. induction Hall as [|c l Hc _ IH]; [done|].
    simpl in *. by rewrite Hc, IH.
  - unfold isin. rewrite length_map. by apply (Hwf _ _ Hcity).
Qed.

Lemma selecting_every_city_keeps_table_witness :
  filter_cities [CStr "Mumbai"; CStr "Pune"] four_responses = (Ok tt, four_responses).
Proof.
  apply (selecting_every_city_keeps_table [CStr "Mumbai"; CStr "Pune"] four_responses
           [CStr "Pune"; CStr "Mumbai"; CStr "Pune"; CStr "Pune"]).
  - solve_wf.
  - by vm_compute.
  - apply (bool_decide_unpack _). by vm_compute.
Defined.

(** ** The dates of a loaded table *)

Section LoadedDates.
Context {rt : Runtime}.


End LoadedDates.


(** ** The NPS score and its trend *)

Lemma calculate_nps_score_nonempty df label :
  columns df !! "NPS Label" = Some label ->
  label <> [] ->
  calculate_nps_score df = (Ok (Fin (nps_of_labels label)), df).
Proof.
  intros Hl Hne. rewrite (calculate_nps_score_run df label Hl).
  assert (0 < length label)%nat as Hn by (destruct label; [done|simpl; lia]).
  by rewrite !np_divide_ratio.
Qed.

Lemma calculate_nps_score_fin df label s :
  columns df !! "NPS Label" = Some label ->
  value (calculate_nps_score df) = Ok (Fin s) ->
  label <> [] /\ s = nps_of_labels label.
Proof.
  intros Hl. destruct label as [|c label].
  - rewrite (calculate_nps_score_run df [] Hl). by vm_compute.
  - rewrite (calculate_nps_score_nonempty df _ Hl) by done.
    unfold value. simpl. by intros [= <-].
Qed.

Lemma ratio_diff a d t :
  (0 < t)%nat ->
  ((ratio a t - ratio d t) * inject_Z (Z.of_nat t) == inject_Z (Z.of_nat a) - inject_Z (Z.of_nat d))%Q.
Proof.
  intros Ht. unfold ratio. field.
  intros H. pose proof (inject_nat_pos t Ht) as Hp. rewrite H in Hp.
  by apply Qlt_irrefl in Hp.
Qed.

Lemma Qround_digits_1_nonneg q : (0 <= q)%Q -> (0 <= Qround_digits 1 q)%Q.
Proof.
  intros Hq. unfold Qround_digits.
  apply Qle_shift_div_l; [done|]. rewrite Qmult_0_l.
  change 0%Q with (inject_Z 0). rewrite <- Zle_Qle. apply rint_ge_int.
  change (inject_Z 0) with 0%Q.
  change (inject_Z (10 ^ Z.of_nat 1)) with 10%Q. lra.
Qed.

Lemma Qround_digits_1_nonpos q : (q <= 0)%Q -> (Qround_digits 1 q <= 0)%Q.
Proof.
  intros Hq. unfold Qround_digits.
  apply Qle_shift_div_r; [done|]. rewrite Qmult_0_l.
  change 0%Q with (inject_Z 0). rewrite <- Zle_Qle. apply rint_le_int.
  change (inject_Z 0) with 0%Q.
  change (inject_Z (10 ^ Z.of_nat 1)) with 10%Q. lra.
Qed.

Lemma Qround_digits_1_int z : (Qround_digits 1 (inject_Z z) == inject_Z z)%Q.
Proof.
  unfold Qround_digits.
  change (inject_Z (10 ^ Z.of_nat 1)) with (inject_Z 10).
  rewrite <- inject_Z_mult.
  assert (rint (inject_Z (z * 10)) = (z * 10)%Z) as ->.
  { apply Z.le_antisymm; [apply rint_le_int|apply rint_ge_int]; apply Qle_refl. }
  rewrite inject_Z_mult. field.
Qed.

(** X8. The sign of the NPS score: a score above 0 means more promoters
    than detractors and a score below 0 more detractors than promoters;
    as many of each give 0, promoters only give 100 and detractors only
    give -100. (Rounding can take a small difference to 0, never to the
    other sign.) *)
Theorem nps_score_sign df label s :
  columns df !! "NPS Label" = Some label ->
  value (calculate_nps_score df) = Ok (Fin s) ->
  let promoters := occurrences "Promoter" label in
  let detractors := occurrences "Detractor" label in
  ((0 < s)%Q -> (detractors < promoters)%nat) /\
  ((s < 0)%Q -> (promoters < detractors)%nat) /\
  (promoters = detractors -> (s == 0)%Q) /\
  (promoters = length label -> (s == 100)%Q) /\
  (detractors = length label -> (s == -100)%Q).
Proof.
  intros Hl Hrun promoters detractors.
  destruct (calculate_nps_score_fin _ _ _ Hl Hrun) as [Hne ->].
  assert (0 < length label)%nat as Hn by (destruct label; [done|simpl; lia]).
  pose proof (ratio_diff promoters detractors _ Hn) as Hd.
  pose proof (inject_nat_pos _ Hn) as Hpos.
  unfold nps_of_labels. fold promoters detractors.
  set (x := (ratio promoters (length label) - ratio detractors (length label))%Q) in *.
  set (n := inject_Z (Z.of_nat (length label))) in *.
  assert ((promoters <= detractors)%nat -> (x <= 0)%Q) as Hle.
  { intros H. assert (inject_Z (Z.of_nat promoters) <= inject_Z (Z.of_nat detractors))%Q
      by (rewrite <- Zle_Qle; lia). nra. }
  assert ((detractors <= promoters)%nat -> (0 <= x)%Q) as Hge.
  { intros H. assert (inject_Z (Z.of_nat detractors) <= inject_Z (Z.of_nat promoters))%Q
      by (rewrite <- Zle_Qle; lia). nra. }
  split; [|split; [|split; [|split]]].
  - intros Hs. destruct (Nat.lt_ge_cases detractors promoters) as [|H]; [done|].
    exfalso. pose proof (Qround_digits_1_nonpos (x * 100)) as Hr.
    specialize (Hle H). lra.
  - intros Hs. destruct (Nat.lt_ge_cases promoters detractors) as [|H]; [done|].
    exfalso. pose proof (Qround_digits_1_nonneg (x * 100)) as Hr.
    specialize (Hge H). lra.
  - intros Heq.
    pose proof (Qround_digits_1_nonpos (x * 100)) as Hr1.
    pose proof (Qround_digits_1_nonneg (x * 100)) as Hr2.
    specialize (Hle ltac:(lia)). specialize (Hge ltac:(lia)). lra.
  - intros Heq.
    assert (detractors = 0)%nat as Hd0.
    { pose proof (occurrences_buckets label). fold promoters detractors in H. lia. }
    assert (x == 1)%Q as Hx.
    { unfold x. rewrite Heq, Hd0, ratio_same by done. unfold ratio, Qdiv. simpl. ring. }
    rewrite Hx. apply (Qround_digits_1_int 100).
  - intros Heq.
    assert (promoters = 0)%nat as Hd0.
    { pose proof (occurrences_buckets label). fold promoters detractors in H. lia. }
    assert (x == -1)%Q as Hx.
    { unfold x. rewrite Heq, Hd0, ratio_same by done. unfold ratio, Qdiv. simpl. ring. }
    rewrite Hx. apply (Qround_digits_1_int (-100)).
Qed.

Lemma nps_score_sign_witness :
  let promoters := occurrences "Promoter" four_labels in
  let detractors := occurrences "Detractor" four_labels in
  ((0 < nps_of_labels four_labels)%Q -> (detractors < promoters)%nat) /\
  ((nps_of_labels four_labels < 0)%Q -> (promoters < detractors)%nat) /\
  (promoters = detractors -> (nps_of_labels four_labels == 0)%Q) /\
  (promoters = length four_labels -> (nps_of_labels four_labels == 100)%Q) /\
  (detractors = length four_labels -> (nps_of_labels four_labels == -100)%Q).
Proof.
  apply (nps_score_sign four_responses four_labels (nps_of_labels four_labels));
    by vm_compute.
Defined.

Lemma key_compare_refl k : key_compare k k = Eq.
Proof.
  destruct k as [s|q|t|]; simpl.
  - pose proof (String.compare_antisym s s) as H.
    destruct (String.compare s s); simpl in H; congruence.
  - apply Qeq_alt. reflexivity.
  - apply Z.compare_refl.
  - done.
Qed.

Lemma group_keys_elem keys x : x ∈ group_keys keys -> x ∈ keys.
Proof.
  unfold group_keys.
  assert (forall acc, x ∈ fold_left (fun acc k => if isna k then acc else insert_key k acc) keys acc
                      -> x ∈ acc \/ x ∈ keys) as H.
  { induction keys as [|k keys IH]; intros acc; simpl; [auto|].
    intros Hx. destruct (IH _ Hx) as [Hacc|Hin]; [|right; set_solver].
    destruct (isna k); [by left|].
    destruct (insert_key_elem _ _ _ Hacc) as [->|]; [right; set_solver|by left]. }
  intros Hx. destruct (H [] Hx) as [Hn|]; [by apply elem_of_nil in Hn|done].
Qed.

Lemma group_of_nonempty k keys vals :
  k ∈ keys -> length keys = length vals -> group_of k keys vals <> [].
Proof.
  intros Hk. revert vals. induction Hk as [k keys|k k' keys Hk IH]; intros vals Hlen.
  - destruct vals as [|c vals]; [done|]. unfold group_of. simpl.
    unfold key_eqb. by rewrite key_compare_refl.
  - destruct vals as [|c vals]; [done|]. unfold group_of. simpl.
    destruct (key_eqb k k'); [done|]. apply IH. simpl in Hlen. lia.
Qed.

Lemma sub_frame_lookup df keys k col v :
  columns df !! col = Some v ->
  columns (sub_frame df keys k) !! col = Some (group_of k keys v).
Proof. intros H. unfold sub_frame. simpl. by rewrite lookup_fmap, H. Qed.

Lemma nps_of_labels_range label :
  label <> [] -> (-100 <= nps_of_labels label <= 100)%Q.
Proof.
  intros Hne. assert (0 < length label)%nat as Hn by (destruct label; [done|simpl; lia]).
  apply Qround_digits_1_bounds.
  pose proof (ratio_nonneg (occurrences "Promoter" label) (length label)).
  pose proof (ratio_nonneg (occurrences "Detractor" label) (length label)).
  pose proof (ratio_le_1 _ _ Hn (occurrences_le "Promoter" label)).
  pose proof (ratio_le_1 _ _ Hn (occurrences_le "Detractor" label)).
  lra.
Qed.

(** X9. On a table with its month and label columns and a month in
    one row at least, [create_nps_trend] does not fail: it yields the
    months present once each in ascending order, each with what
    [calculate_nps_score] returns on the rows of that month, a number
    between -100 and 100 and never NaN, for a month listed has a row. *)
Theorem nps_trend_by_month df keys label :
  wf df ->
  columns df !! "Response Month (YYYY-MM)" = Some keys ->
  columns df !! "NPS Label" = Some label ->
  group_keys keys <> [] ->
  exists monthly_nps,
    create_nps_trend df = (Ok monthly_nps, df) /\
    map fst monthly_nps = group_keys keys /\
    StronglySorted key_lt (map fst monthly_nps) /\
    forall month s, (month, s) ∈ monthly_nps ->
      month ∈ keys /\ group_of month keys label <> [] /\
      columns (sub_frame df keys month) !! "NPS Label"
        = Some (group_of month keys label) /\
      value (calculate_nps_score (sub_frame df keys month)) = Ok s /\
      exists q, s = Fin q /\ (-100 <= q <= 100)%Q.
Proof.
  intros Hwf Hk Hl _.
  assert (length keys = length label) as Hlen.
  { rewrite (Hwf _ _ Hk), (Hwf _ _ Hl). done. }
  set (g := fun k => (k, Fin (nps_of_labels (group_of k keys label)))).
  exists (map g (group_keys keys)).
  assert (forall k, k ∈ group_keys keys -> group_of k keys label <> []) as Hne.
  { intros k Hin. apply group_of_nonempty; [by apply group_keys_elem|done]. }
  split; [|split; [|split]].
  - unfold create_nps_trend. unfold bind at 1. unfold self at 1.
    unfold bind at 1. rewrite (getitem_some _ _ _ Hk).
    unfold bind at 1. unfold lift at 1.
    rewrite (mapM_ok_map _ g); [done|].
    intros k Hin.
    rewrite (calculate_nps_score_nonempty _ (group_of k keys label)).
    + done.
    + by apply sub_frame_lookup.
    + by apply Hne.
  - rewrite map_map. apply map_id.
  - rewrite map_map, map_id. apply group_keys_sorted.
  - intros month s Hin. apply list_elem_of_fmap in Hin as (k & [= -> ->] & Hin).
    split; [by apply group_keys_elem|]. split; [by apply Hne|].
    split; [by apply sub_frame_lookup|]. split.
    + rewrite (calculate_nps_score_nonempty _ (group_of k keys label));
        [done|by apply sub_frame_lookup|by apply Hne].
    + eexists. split; [done|]. apply nps_of_labels_range. by apply Hne.
Qed.

Lemma nps_trend_by_month_witness :
  exists monthly_nps,
    create_nps_trend four_responses = (Ok monthly_nps, four_responses) /\
    map fst monthly_nps = group_keys four_months /\
    StronglySorted key_lt (map fst monthly_nps) /\
    forall month s, (month, s) ∈ monthly_nps ->
      month ∈ four_months /\ group_of month four_months four_labels <> [] /\
      columns (sub_frame four_responses four_months month) !! "NPS Label"
        = Some (group_of month four_months four_labels) /\
      value (calculate_nps_score (sub_frame four_responses four_months month)) = Ok s /\
      exists q, s = Fin q /\ (-100 <= q <= 100)%Q.
Proof.
  apply (nps_trend_by_month four_responses four_months four_labels).
  - solve_wf.
  - by vm_compute.
  - by vm_compute.
  - by vm_compute.
Defined.

(** ** The monthly trends on rating texts *)

Lemma mapM_raises {A B} (f : A -> res B) l e0 :
  (forall x e, x ∈ l -> f x = Raise e -> e = e0) ->
  (exists x e, x ∈ l /\ f x = Raise e) ->
  mapM f l = Raise e0.
Proof.
  induction l as [|x l IH]; intros Honly (y & e & Hy & Hf).
  - by apply elem_of_nil in Hy.
  - simpl. destruct (f x) as [b|e'] eqn:Ex.
    + rewrite IH; [done| |].
      * intros z e1 Hz. apply Honly. set_solver.
      * apply elem_of_cons in Hy as [->|Hy]; [congruence|]. by exists y, e.
    + f_equal. apply (Honly x); [set_solver|done].
Qed.

Lemma mapM_error {A B} (f : A -> res B) l e :
  mapM f l = Raise e -> exists x, x ∈ l /\ f x = Raise e.
Proof.
  induction l as [|x l IH]; simpl; [done|].
  destruct (f x) as [b|e'] eqn:Ex.
  - destruct (mapM f l) as [bs|e1]; [done|]. intros [= <-].
    destruct IH as (y & Hy & Hf); [done|]. exists y. split; [set_solver|done].
  - intros [= <-]. exists x. split; [set_solver|done].
Qed.

Lemma getitems_present cols df :
  (forall c, c ∈ cols -> is_Some (columns df !! c)) ->
  exists sel,
    getitems cols df = (Ok sel, df) /\
    forall c v, columns df !! c = Some v -> c ∈ cols -> (c, v) ∈ sel.
Proof.
  induction cols as [|c0 cols IH]; intros Hall.
  - exists []. split; [done|]. intros c v _ Hc. by apply elem_of_nil in Hc.
  - destruct (Hall c0) as [v0 E0]; [set_solver|].
    destruct IH as (sel & Hsel & Hin); [intros c Hc; apply Hall; set_solver|].
    exists ((c0, v0) :: sel). split.
    + simpl. unfold bind. by rewrite (getitem_some _ _ _ E0), Hsel.
    + intros c v Hv [->|Hc]%elem_of_cons.
      * rewrite E0 in Hv. injection Hv as <-. set_solver.
      * apply elem_of_cons. right. by apply Hin.
Qed.

Lemma insert_key_covers k l x :
  key_compare x k = Eq \/ (exists y, y ∈ l /\ key_compare y x = Eq) ->
  exists y, y ∈ insert_key k l /\ key_compare y x = Eq.
Proof.
  induction l as [|h t IH]; cbn [insert_key].
  - intros [H|(y & Hy & _)]; [|by apply elem_of_nil in Hy].
    exists k. split; [set_solver|]. rewrite key_compare_antisym, H. done.
  - intros H. destruct (key_compare k h) eqn:E.
    + destruct H as [H|(y & Hy & Hc)].
      * exists h. split; [set_solver|].
        destruct x, k, h; simpl in *; try done.
        -- apply String.compare_eq_iff in H, E. subst. apply key_compare_refl with (k := CStr s1).
        -- apply Qeq_alt in H, E. apply Qeq_alt. rewrite <- E, H. reflexivity.
        -- apply Z.compare_eq in H, E. subst. apply Z.compare_refl.
      * exists y. split; [done|done].
    + destruct H as [H|(y & Hy & Hc)].
      * exists k. split; [set_solver|]. rewrite key_compare_antisym, H. done.
      * exists y. split; [set_solver|done].
    + destruct H as [H|(y & [->|Hy]%elem_of_cons & Hc)].
      * destruct IH as (y & Hy & Hc); [by left|]. exists y. split; [set_solver|done].
      * exists h. split; [set_solver|done].
      * destruct IH as (z & Hz & Hc'); [right; by exists y|].
        exists z. split; [set_solver|done].
Qed.

Lemma group_keys_covers keys k :
  k ∈ keys -> isna k = false ->
  exists k', k' ∈ group_keys keys /\ key_compare k' k = Eq.
Proof.
  intros Hk Hna. unfold group_keys.
  assert (forall acc,
            (k ∈ keys \/ exists y, y ∈ acc /\ key_compare y k = Eq) ->
            exists y, y ∈ fold_left (fun acc k => if isna k then acc else insert_key k acc) keys acc
                      /\ key_compare y k = Eq) as H.
  { clear Hk. induction keys as [|x keys IH]; intros acc; simpl.
    - intros [H|H]; [by apply elem_of_nil in H|done].
    - intros [[->|H]%elem_of_cons|H].
      + rewrite Hna. apply IH. right. apply insert_key_covers. left. apply key_compare_refl.
      + apply IH. by left.
      + apply IH. right. destruct (isna x); [done|]. apply insert_key_covers. by right. }
  apply H. by left.
Qed.

Lemma group_of_elem k keys vals i ki c :
  keys !! i = Some ki -> vals !! i = Some c -> key_compare k ki = Eq ->
  c ∈ group_of k keys vals.
Proof.
  intros Hk Hv Hc. unfold group_of.
  apply list_elem_of_fmap. exists (ki, c). split; [done|].
  apply list_elem_of_In, filter_In. split.
  - apply list_elem_of_In. apply list_elem_of_lookup. exists i.
    revert i vals Hk Hv. induction keys as [|x keys IH]; intros [|i] [|y vals]; simpl; try done.
    + by intros [= ->] [= ->].
    + apply IH.
  - simpl. unfold key_eqb. by rewrite Hc.
Qed.

Lemma series_mean_text v s : CStr s ∈ v -> series_mean v = Raise TypeError.
Proof.
  intros H. unfold series_mean.
  assert (forallb is_num_or_na v = false) as ->; [|done].
  induction v as [|c v IH]; [by apply elem_of_nil in H|].
  apply elem_of_cons in H as [<-|H]; [done|].
  simpl. rewrite (IH H). apply andb_false_r.
Qed.

Lemma series_mean_error v e : series_mean v = Raise e -> e = TypeError.
Proof. unfold series_mean. destruct (forallb is_num_or_na v); [done|]. by intros [= <-]. Qed.

(** X18. [create_monthly_trends] on texts: where the table has the
    month column and the four columns averaged, and one of the four has
    a text in a row that has a month, the call raises [TypeError] and
    yields no table. The rating columns of a loaded table are the
    columns as read, so one rating text in a dated row is enough. *)
Theorem monthly_trends_raise_on_rating_text df keys metric v i month s :
  columns df !! "Response Month (YYYY-MM)" = Some keys ->
  Forall (fun m => is_Some (columns df !! m)) trend_metrics ->
  metric ∈ trend_metrics ->
  columns df !! metric = Some v ->
  keys !! i = Some month -> isna month = false ->
  v !! i = Some (CStr s) ->
  create_monthly_trends df = (Raise TypeError, df).
Proof.
  intros Hk Hall Hm Hv Hki Hna Hvi.
  rewrite Forall_forall in Hall.
  destruct (getitems_present trend_metrics df Hall) as (sel & Hsel & Hin).
  unfold create_monthly_trends. unfold bind at 1. rewrite (getitem_some _ _ _ Hk).
  unfold bind at 1. rewrite Hsel. unfold bind at 1. unfold lift at 1.
  assert (groupby_mean_round keys sel = Raise TypeError) as ->; [|done].
  unfold groupby_mean_round.
  assert (forall k e,
            res_map (pair k)
              (mapM (fun mv : string * Series =>
                       res_map (fun x => (mv.1, round_cell 2 x))
                         (series_mean (group_of k keys mv.2))) sel) = Raise e ->
            e = TypeError) as Honly.
  { intros k e H.
    destruct (mapM _ sel) as [r|e'] eqn:E; [done|]. simpl in H. injection H as <-.
    apply mapM_error in E as (mv & _ & Hmv).
    destruct (series_mean (group_of k keys mv.2)) as [x|e''] eqn:Es; [done|].
    simpl in Hmv. injection Hmv as <-. by apply (series_mean_error _ _ Es). }
  apply mapM_raises.
  - intros k e _. apply Honly.
  - destruct (group_keys_covers keys month) as (k' & Hk' & Hc).
    { by apply list_elem_of_lookup_2 in Hki. }
    { done. }
    exists k'.
    assert (mapM (fun mv : string * Series =>
              res_map (fun x => (mv.1, round_cell 2 x))
                (series_mean (group_of k' keys mv.2))) sel = Raise TypeError) as E.
    { apply mapM_raises.
      - intros mv e _ H.
        destruct (series_mean (group_of k' keys mv.2)) as [x|e''] eqn:Es; [done|].
        simpl in H. injection H as <-. by apply (series_mean_error _ _ Es).
      - exists (metric, v), TypeError. split; [by apply Hin|]. simpl.
        rewrite (series_mean_text _ s); [done|].
        by apply (group_of_elem k' keys v i month). }
    exists TypeError. split; [done|]. by rewrite E.
Qed.

Lemma monthly_trends_raise_on_rating_text_witness :
  create_monthly_trends one_response = (Raise TypeError, one_response).
Proof.
  apply (monthly_trends_raise_on_rating_text one_response [CStr "2024-01"]
           "Ambience And Atmosphere" [CStr "5. Strongly Agree"] 0 (CStr "2024-01")
           "5. Strongly Agree").
  - by vm_compute.
  - apply (bool_decide_unpack _). by vm_compute.
  - apply (bool_decide_unpack _). by vm_compute.
  - by vm_compute.
  - reflexivity.
  - reflexivity.
  - reflexivity.
Defined.

(** ** The correlation heatmap on rating texts *)

Lemma mapM_some_raise {A B} (f : A -> res B) l :
  (exists x e, x ∈ l /\ f x = Raise e) ->
  exists y e, mapM f l = Raise e /\ y ∈ l /\ f y = Raise e.
Proof.
  induction l as [|x l IH]; intros (z & e & Hz & Hf).
  - by apply elem_of_nil in Hz.
  - simpl. destruct (f x) as [b|e'] eqn:Ex.
    + destruct IH as (y & e1 & -> & Hy & Hfy).
      { apply elem_of_cons in Hz as [->|Hz]; [congruence|]. by exists z, e. }
      exists y, e1. split; [done|]. split; [set_solver|done].
    + exists x, e'. split; [done|]. split; [set_solver|done].
Qed.

Section CorrelationTexts.
Context {rt : Runtime}.

Lemma to_float_error c e : to_float c = Raise e -> e = ValueError \/ e = TypeError.
Proof.
  destruct c as [s|q|t|]; simpl; try done.
  - destruct (py_float s) as [[q|b|]|]; try done. intros [= <-]. by left.
  - intros [= <-]. by right.
Qed.

(** X19. [create_correlation_heatmap] on texts: where the table has
    the eight columns correlated and one of them has a text that is no
    numeral, the call raises ([ValueError], or [TypeError] where a
    timestamp comes first) and yields no matrix. The rating columns of a
    loaded table are the columns as read, so one rating text is
    enough. *)
Theorem correlation_heatmap_raises_on_text df metric v s :
  Forall (fun m => is_Some (columns df !! m)) heatmap_metrics ->
  metric ∈ heatmap_metrics ->
  columns df !! metric = Some v ->
  CStr s ∈ v ->
  py_float s = None ->
  exists e,
    create_correlation_heatmap df = (Raise e, df) /\
    (e = ValueError \/ e = TypeError).
Proof.
  intros Hall Hm Hv Hs Hfloat. rewrite Forall_forall in Hall.
  destruct (getitems_present heatmap_metrics df Hall) as (sel & Hsel & Hin).
  assert (exists e, mapM to_float v = Raise e) as [e0 He0].
  { destruct (mapM_some_raise to_float v) as (y & e & He & _).
    - exists (CStr s), ValueError. split; [done|]. simpl. by rewrite Hfloat.
    - by exists e. }
  destruct (mapM_some_raise (fun cv : string * Series => mapM to_float (snd cv)) sel)
    as (cv & e & He & _ & Hcv).
  { exists (metric, v), e0. split; [by apply Hin|done]. }
  exists e. split.
  - unfold create_correlation_heatmap. unfold bind at 1. rewrite Hsel.
    unfold bind at 1. unfold lift at 1. unfold corr. by rewrite He.
  - apply mapM_error in Hcv as (c & _ & Hc). by apply (to_float_error c).
Qed.

End CorrelationTexts.

Lemma correlation_heatmap_raises_on_text_witness :
  exists e,
    @create_correlation_heatmap example_runtime one_response = (Raise e, one_response) /\
    (e = ValueError \/ e = TypeError).
Proof.
  apply (@correlation_heatmap_raises_on_text example_runtime one_response
           "Questions" [CStr "5. Strongly Agree"] "5. Strongly Agree").
  - apply (bool_decide_unpack _). by vm_compute.
  - apply (bool_decide_unpack _). by vm_compute.
  - by vm_compute.
  - apply (bool_decide_unpack _). by vm_compute.
  - reflexivity.
Defined.

(** ** Frequency tables of tags *)

Lemma count_of_cons k n t s :
  count_of s ((k, n) :: t) = if String.eqb k s then n else count_of s t.
Proof. unfold count_of. simpl. by destruct (String.eqb k s). Qed.

Lemma count_of_count_add s s' t :
  count_of s' (count_add s t)
  = (count_of s' t + if String.eqb s s' then 1 else 0)%nat.
Proof.
  induction t as [|[k n] t IH]; simpl.
  - rewrite count_of_cons. unfold count_of. simpl. by destruct (String.eqb s s').
  - destruct (String.eqb_spec k s) as [->|Hks].
    + rewrite !count_of_cons. destruct (String.eqb s s'); lia.
    + rewrite !count_of_cons, IH.
      destruct (String.eqb_spec k s') as [->|Hks'].
      * destruct (String.eqb_spec s s'); [done|lia].
      * done.
Qed.

Lemma token_count_cons s x l :
  token_count s (x :: l) = ((if String.eqb x s then 1 else 0) + token_count s l)%nat.
Proof.
  unfold token_count. rewrite filter_cons.
  destruct (String.eqb_spec x s); case_decide; simpl; done.
Qed.

Lemma token_count_pos s l : (0 < token_count s l)%nat <-> s ∈ l.
Proof.
  unfold token_count. split.
  - intros H. destruct (filter (λ x, x = s) l) as [|y ys] eqn:E; [simpl in H; lia|].
    assert (y ∈ filter (λ x, x = s) l) as Hy by (rewrite E; set_solver).
    apply list_elem_of_filter in Hy as [-> Hy]. done.
  - intros H. assert (s ∈ filter (λ x, x = s) l) as Hy by by apply list_elem_of_filter.
    destruct (filter (λ x, x = s) l); [by apply elem_of_nil in Hy|simpl; lia].
Qed.

Lemma count_of_fold s l :
  forall t, count_of s (fold_left (fun t x => count_add x t) l t)
            = (count_of s t + token_count s l)%nat.
Proof.
  induction l as [|x l IH]; intros t; simpl.
  - unfold token_count. simpl. lia.
  - rewrite IH, count_of_count_add, token_count_cons. lia.
Qed.

Lemma count_of_tally s l : count_of s (tally l) = token_count s l.
Proof. unfold tally. by rewrite count_of_fold. Qed.

Lemma count_add_keys s t :
  map fst (count_add s t)
  = if bool_decide (s ∈ map fst t) then map fst t else (map fst t ++ [s])%list.
Proof.
  induction t as [|[k n] t IH]; cbn [count_add map fst].
  - by rewrite bool_decide_false by set_solver.
  - destruct (String.eqb_spec k s) as [->|Hks]; cbn [map fst].
    + by rewrite bool_decide_true by set_solver.
    + rewrite IH. destruct (decide (s ∈ map fst t)) as [Hin|Hnin].
      * by rewrite !bool_decide_true by set_solver.
      * rewrite !bool_decide_false; [done|set_solver|done].
Qed.

Lemma count_add_nodup s t : NoDup (map fst t) -> NoDup (map fst (count_add s t)).
Proof.
  intros H. rewrite count_add_keys. case_bool_decide; [done|].
  apply NoDup_app. split; [done|]. split; [|apply NoDup_singleton].
  intros x Hx ->%list_elem_of_singleton. done.
Qed.

Lemma count_add_pos s t :
  Forall (fun kv => 0 < snd kv)%nat t -> Forall (fun kv => 0 < snd kv)%nat (count_add s t).
Proof.
  induction 1 as [|[k n] t Hk Ht IH]; simpl.
  - constructor; [simpl; lia|constructor].
  - destruct (String.eqb k s).
    + constructor; [simpl; lia|done].
    + constructor; [done|exact IH].
Qed.

Lemma tally_invariants l :
  NoDup (map fst (tally l)) /\ Forall (fun kv => 0 < snd kv)%nat (tally l).
Proof.
  unfold tally.
  assert (forall t, NoDup (map fst t) -> Forall (fun kv => 0 < snd kv)%nat t ->
            NoDup (map fst (fold_left (fun t x => count_add x t) l t)) /\
            Forall (fun kv => 0 < snd kv)%nat (fold_left (fun t x => count_add x t) l t)) as H.
  { induction l as [|x l IH]; intros t H1 H2; simpl; [done|].
    apply IH; [by apply count_add_nodup|by apply count_add_pos]. }
  apply H; constructor.
Qed.

Lemma insert_desc_perm x l : insert_desc x l ≡ₚ x :: l.
Proof.
  induction l as [|y l IH]; simpl; [done|].
  destruct (snd x <? snd y)%nat; [|done].
  rewrite IH. apply Permutation_swap.
Qed.

Lemma insert_desc_sorted x l :
  StronglySorted count_ge l -> StronglySorted count_ge (insert_desc x l).
Proof.
  induction 1 as [|y l Hl IH Hy]; simpl.
  - repeat constructor.
  - destruct (Nat.ltb_spec (snd x) (snd y)).
    + constructor; [done|]. rewrite insert_desc_perm. constructor; [|done].
      unfold count_ge. lia.
    + constructor; [by constructor|]. constructor; [done|].
      eapply Forall_impl; [exact Hy|]. unfold count_ge. intros z Hz. simpl in *. lia.
Qed.

Lemma value_counts_perm l : value_counts l ≡ₚ tally l.
Proof.
  unfold value_counts. induction (tally l) as [|x t IH]; simpl; [done|].
  by rewrite insert_desc_perm, IH.
Qed.

Lemma value_counts_sorted l : StronglySorted count_ge (value_counts l).
Proof.
  unfold value_counts. induction (tally l) as [|x t IH]; simpl; [constructor|].
  by apply insert_desc_sorted.
Qed.

Lemma count_of_elem s n t :
  NoDup (map fst t) -> (s, n) ∈ t -> count_of s t = n.
Proof.
  induction t as [|[k m] t IH]; intros Hnd Hin; [by apply elem_of_nil in Hin|].
  simpl in Hnd. apply NoDup_cons in Hnd as [Hk Hnd].
  rewrite count_of_cons. apply elem_of_cons in Hin as [[= <- <-]|Hin].
  - by rewrite String.eqb_refl.
  - destruct (String.eqb_spec k s) as [->|_]; [|by apply IH].
    exfalso. apply Hk. apply (list_elem_of_fmap_2 fst) in Hin. done.
Qed.

Lemma count_of_key s t :
  (0 < count_of s t)%nat -> (s, count_of s t) ∈ t.
Proof.
  induction t as [|[k m] t IH]; [unfold count_of; simpl; lia|].
  rewrite count_of_cons. destruct (String.eqb_spec k s) as [->|_].
  - intros _. set_solver.
  - intros H. apply elem_of_cons. right. by apply IH.
Qed.

(** The frequency table of [value_counts]: no text twice, the larger
    count first, and each text with the number of its occurrences. *)
Lemma value_counts_spec l :
  NoDup (map fst (value_counts l)) /\
  StronglySorted count_ge (value_counts l) /\
  (forall s n, (s, n) ∈ value_counts l <-> (0 < n)%nat /\ n = token_count s l).
Proof.
  destruct (tally_invariants l) as [Hnd Hpos].
  pose proof (value_counts_perm l) as Hperm.
  split; [by rewrite Hperm|]. split; [apply value_counts_sorted|].
  intros s n. rewrite Hperm. split.
  - intros Hin. split.
    + rewrite Forall_forall in Hpos. apply (Hpos (s, n)). done.
    + rewrite <- count_of_tally. symmetry. by apply count_of_elem.
  - intros [Hn ->]. rewrite <- count_of_tally in *. by apply count_of_key.
Qed.

Lemma value_counts_key l s n : (s, n) ∈ value_counts l -> s ∈ l.
Proof.
  intros H. destruct (value_counts_spec l) as (_ & _ & Hspec).
  apply Hspec in H as [Hn ->]. by apply token_count_pos.
Qed.

Lemma filter_sorted {A} (R : relation A) (p : A -> bool) l :
  StronglySorted R l -> StronglySorted R (List.filter p l).
Proof.
  induction 1 as [|x l Hl IH Hx]; simpl; [constructor|].
  destruct (p x); [|done]. constructor; [done|].
  rewrite Forall_forall in Hx |- *. intros y Hy%list_elem_of_In%filter_In.
  apply Hx. apply list_elem_of_In. tauto.
Qed.

Lemma filter_keys_nodup {A B} (p : A * B -> bool) (t : list (A * B)) :
  NoDup (map fst t) -> NoDup (map fst (List.filter p t)).
Proof.
  induction t as [|x t IH]; simpl; [done|].
  intros [Hx Hnd]%NoDup_cons. destruct (p x); [|by apply IH].
  simpl. apply NoDup_cons. split; [|by apply IH].
  intros Hin. apply Hx. apply list_elem_of_fmap in Hin as (y & -> & Hy).
  apply list_elem_of_In, filter_In in Hy as [Hy _].
  apply list_elem_of_fmap. exists y. split; [done|by apply list_elem_of_In].
Qed.

Lemma concerns_of_filled v :
  forallb is_text_or_na v = true ->
  exists all_concerns,
    mapM concerns_of_cell (fillna "" v) = Ok all_concerns /\
    concat all_concerns = concerns_in v.
Proof.
  induction v as [|c v IH]; [by eexists|].
  cbn [forallb]. intros [Hc Hv]%andb_true_iff.
  destruct (IH Hv) as (rest & Hrest & Hcat).
  change (fillna "" (c :: v)) with ((if isna c then CStr "" else c) :: fillna "" v).
  cbn [mapM]. rewrite Hrest.
  destruct c as [s|q|t|]; try done.
  - eexists. split; [reflexivity|]. cbn [concat concerns_in flat_map].
    by rewrite Hcat.
  - eexists. split; [reflexivity|]. cbn [concat concerns_in flat_map].
    by rewrite Hcat.
Qed.

Lemma concerns_of_other v :
  forallb is_text_or_na v = false ->
  mapM concerns_of_cell (fillna "" v) = Raise AttributeError.
Proof.
  induction v as [|c v IH]; [done|].
  cbn [forallb].
  change (fillna "" (c :: v)) with ((if isna c then CStr "" else c) :: fillna "" v).
  cbn [mapM].
  destruct c as [s|q|t|]; try done.
  - cbn [is_text_or_na andb isna concerns_of_cell]. intros Hv. by rewrite (IH Hv).
  - cbn [is_text_or_na andb isna concerns_of_cell]. intros Hv. by rewrite (IH Hv).
Qed.

Lemma top_concerns_value df concern_counts :
  value (get_top_concerns df) = Ok concern_counts ->
  exists v, columns df !! "Improvement Feedback Categories" = Some v /\
            forallb is_text_or_na v = true /\
            concern_counts = value_counts (concerns_in v).
Proof.
  unfold get_top_concerns. unfold bind at 1.
  destruct (columns df !! "Improvement Feedback Categories") as [v|] eqn:Hv.
  - rewrite (getitem_some _ _ _ Hv). unfold bind at 1. unfold lift at 1.
    destruct (forallb is_text_or_na v) eqn:Hall.
    + destruct (concerns_of_filled v Hall) as (ac & -> & Hcat).
      unfold value. simpl. intros [= <-]. exists v. by rewrite Hcat.
    + by rewrite (concerns_of_other v Hall).
  - by rewrite (getitem_none _ _ Hv).
Qed.

(** X10. Where the improvement column holds texts or nothing,
    [get_top_concerns] does not fail and leaves the table as it is; its
    table has each tag of the column once, with the number of its
    occurrences, the larger count first. A missing value has no tag. *)
Theorem top_concerns_counts df v :
  columns df !! "Improvement Feedback Categories" = Some v ->
  forallb is_text_or_na v = true ->
  exists concern_counts,
    get_top_concerns df = (Ok concern_counts, df) /\
    NoDup (map fst concern_counts) /\
    StronglySorted count_ge concern_counts /\
    forall s n, (s, n) ∈ concern_counts <->
                (0 < n)%nat /\ n = token_count s (concerns_in v).
Proof.
  intros Hv Hall. destruct (concerns_of_filled v Hall) as (ac & Hac & Hcat).
  exists (value_counts (concerns_in v)). split.
  - unfold get_top_concerns. unfold bind at 1. rewrite (getitem_some _ _ _ Hv).
    unfold bind at 1. unfold lift at 1. rewrite Hac. by rewrite Hcat.
  - apply value_counts_spec.
Qed.

Lemma top_concerns_counts_witness :
  exists concern_counts,
    get_top_concerns four_responses = (Ok concern_counts, four_responses) /\
    NoDup (map fst concern_counts) /\
    StronglySorted count_ge concern_counts /\
    forall s n, (s, n) ∈ concern_counts <->
                (0 < n)%nat /\ n = token_count s (concerns_in four_improvement_tags).
Proof.
  apply (top_concerns_counts four_responses four_improvement_tags); by vm_compute.
Defined.

(** X11. [get_top_concerns] fails in two ways only: with [KeyError]
    when the improvement column is missing, and with [AttributeError]
    when the column has a value that is neither a text nor missing. *)
Theorem top_concerns_failure df e :
  value (get_top_concerns df) = Raise e ->
  (e = KeyError /\ columns df !! "Improvement Feedback Categories" = None) \/
  (e = AttributeError /\
   exists v c, columns df !! "Improvement Feedback Categories" = Some v /\
               c ∈ v /\ is_text_or_na c = false).
Proof.
  unfold get_top_concerns. unfold bind at 1.
  destruct (columns df !! "Improvement Feedback Categories") as [v|] eqn:Hv.
  - rewrite (getitem_some _ _ _ Hv). unfold bind at 1. unfold lift at 1.
    destruct (forallb is_text_or_na v) eqn:Hall.
    + destruct (concerns_of_filled v Hall) as (ac & -> & _). done.
    + rewrite (concerns_of_other v Hall). unfold value. simpl. intros [= <-].
      right. split; [done|].
      assert (exists c, c ∈ v /\ is_text_or_na c = false) as (c & Hc & Hn).
      { clear -Hall. induction v as [|c v IH]; [done|]. simpl in Hall.
        apply andb_false_iff in Hall as [H|H].
        - exists c. split; [set_solver|done].
        - destruct (IH H) as (c' & ? & ?). exists c'. split; [set_solver|done]. }
      by exists v, c.
  - rewrite (getitem_none _ _ Hv). unfold value. simpl. intros [= <-]. by left.
Qed.

Lemma top_concerns_failure_witness :
  (KeyError = KeyError /\
   columns labels_no_rows !! "Improvement Feedback Categories" = None) \/
  (KeyError = AttributeError /\
   exists v c, columns labels_no_rows !! "Improvement Feedback Categories" = Some v /\
               c ∈ v /\ is_text_or_na c = false).
Proof.
  apply (top_concerns_failure labels_no_rows KeyError). by vm_compute.
Defined.

Section CategoryFacts.
Context {rt : Runtime}.

Lemma feedback_chart_value df chart :
  value (analyze_feedback_categories df) = Ok chart ->
  exists v1 v2,
    columns df !! "NPS Feedback Categories" = Some v1 /\
    columns df !! "Improvement Feedback Categories" = Some v2 /\
    chart = firstn 10
              (List.filter (fun kv : string * nat => negb (String.eqb (fst kv) "nan"))
                 (value_counts (categories_in v1 v2))).
Proof.
  intros Hrun.
  destruct (columns df !! "NPS Feedback Categories") as [v1|] eqn:H1.
  - destruct (columns df !! "Improvement Feedback Categories") as [v2|] eqn:H2.
    + exists v1, v2. split; [done|]. split; [done|].
      revert Hrun. unfold analyze_feedback_categories, feedback_category_counts.
      unfold bind at 1. unfold bind at 1. rewrite (collect_both df v1 v2 H1 H2).
      unfold value. simpl. by intros [= <-].
    + exfalso. revert Hrun.
      unfold analyze_feedback_categories, feedback_category_counts.
      unfold bind at 1. unfold bind at 1. unfold feedback_columns. cbn [for_each].
      unfold bind at 1. rewrite (collect_categories_some _ _ _ _ H1).
      unfold bind at 1. rewrite collect_categories_none; [done|].
      simpl. by rewrite lookup_insert_ne.
  - exfalso. revert Hrun.
    unfold analyze_feedback_categories, feedback_category_counts.
    unfold bind at 1. unfold bind at 1. unfold feedback_columns. cbn [for_each].
    unfold bind at 1. by rewrite (collect_categories_none _ _ _ H1).
Qed.

(** X12. The chart of [analyze_feedback_categories], on a table with
    the two tag columns: at most ten entries, no tag twice, the larger
    count first, never the tag "nan", each tag with the number of its
    occurrences among the tokens of the two columns; and a tag left out
    of the chart is left out because ten tags are there that occur at
    least as often. *)
Theorem feedback_chart_top_ten df v1 v2 :
  columns df !! "NPS Feedback Categories" = Some v1 ->
  columns df !! "Improvement Feedback Categories" = Some v2 ->
  exists chart,
    value (analyze_feedback_categories df) = Ok chart /\
    (length chart <= 10)%nat /\
    NoDup (map fst chart) /\
    StronglySorted count_ge chart /\
    (forall s n, (s, n) ∈ chart ->
       s <> "nan" /\ (0 < n)%nat /\ n = token_count s (categories_in v1 v2)) /\
    (forall s, s <> "nan" -> s ∈ categories_in v1 v2 -> s ∉ map fst chart ->
       length chart = 10%nat /\
       forall s' n', (s', n') ∈ chart -> (token_count s (categories_in v1 v2) <= n')%nat).
Proof.
  intros H1 H2.
  set (tokens := categories_in v1 v2).
  set (table := List.filter (fun kv : string * nat => negb (String.eqb (fst kv) "nan"))
                  (value_counts tokens)).
  destruct (value_counts_spec tokens) as (Hnd & Hsorted & Hspec).
  assert (forall s n, (s, n) ∈ table <->
            s <> "nan" /\ (0 < n)%nat /\ n = token_count s tokens) as Htable.
  { intros s n. unfold table. rewrite list_elem_of_In, filter_In, <- list_elem_of_In, Hspec.
    simpl. destruct (String.eqb_spec s "nan"); simpl; split; intros; try tauto.
    destruct H as [_ [=]]. }
  assert (NoDup (map fst table)) as Hnd' by by apply filter_keys_nodup.
  assert (StronglySorted count_ge table) as Hs' by by apply filter_sorted.
  exists (firstn 10 table).
  pose proof (firstn_skipn 10 table) as Hsplit.
  split; [|split; [|split; [|split; [|split]]]].
  - unfold analyze_feedback_categories, feedback_category_counts.
    unfold bind at 1. unfold bind at 1. by rewrite (collect_both df v1 v2 H1 H2).
  - apply firstn_le_length.
  - rewrite <- Hsplit, map_app in Hnd'. by apply NoDup_app in Hnd' as [? _].
  - rewrite <- Hsplit in Hs'. by apply StronglySorted_app_1_l in Hs'.
  - intros s n Hin. apply Htable. rewrite <- Hsplit. apply elem_of_app. by left.
  - intros s Hne Hin Hout.
    assert ((s, token_count s tokens) ∈ table) as Hrow.
    { apply Htable. split; [done|]. split; [by apply token_count_pos|done]. }
    rewrite <- Hsplit in Hrow. apply elem_of_app in Hrow as [Hrow|Hrow].
    { exfalso. apply Hout. by apply (list_elem_of_fmap_2 fst) in Hrow. }
    split.
    + rewrite length_firstn. destruct (Nat.le_gt_cases (length table) 10) as [Hle|]; [|lia].
      rewrite skipn_all2 in Hrow by done. by apply elem_of_nil in Hrow.
    + intros s' n' Hin'. rewrite <- Hsplit in Hs'.
      apply (StronglySorted_app_1_elem_of _ _ _ _ _ Hs' Hin' Hrow).
Qed.

Lemma collect_loop_again cols :
  forall acc df r df1,
    for_each cols collect_categories acc df = (r, df1) ->
    for_each cols collect_categories acc df1 = (r, df1).
Proof.
  induction cols as [|c0 rest IH]; intros acc df r df1 Hr; simpl in Hr.
  { injection Hr as <- <-. done. }
  unfold bind at 1 in Hr.
  destruct (columns df !! c0) as [v0|] eqn:E0.
  2:{ rewrite (collect_categories_none _ _ _ E0) in Hr. injection Hr as <- <-.
      simpl. unfold bind at 1. by rewrite (collect_categories_none _ _ _ E0). }
  rewrite (collect_categories_some _ _ _ _ E0) in Hr.
  set (df0 := mkDataFrame (nrows df) (<[c0 := fillna "" v0]> (columns df))) in *.
  destruct (collect_loop rest _ df0 _ Hr) as (Hn & _ & Hany & _).
  assert (columns df1 !! c0 = Some (fillna "" v0)) as E1.
  { destruct (Hany c0) as [H|H]; simpl in H; rewrite H; simpl;
      rewrite lookup_insert_eq; [done|]. simpl. by rewrite fillna_idem. }
  simpl. unfold bind at 1. rewrite (collect_categories_some _ _ _ _ E1).
  rewrite fillna_idem.
  assert (mkDataFrame (nrows df1) (<[c0 := fillna "" v0]> (columns df1)) = df1) as ->.
  { destruct df1 as [n cs]. simpl in *. f_equal. by apply insert_id. }
  by apply (IH _ df0).
Qed.

Lemma feedback_categories_again df r df1 :
  analyze_feedback_categories df = (r, df1) ->
  analyze_feedback_categories df1 = (r, df1).
Proof.
  unfold analyze_feedback_categories, feedback_category_counts.
  unfold bind at 1. unfold bind at 1.
  destruct (for_each feedback_columns collect_categories [] df) as [r0 df0] eqn:Hloop.
  apply collect_loop_again in Hloop.
  destruct r0 as [t|e]; cbn [ret]; intros [= <- <-];
    unfold bind at 1; unfold bind at 1; by rewrite Hloop.
Qed.

(** X13. A second call of [analyze_feedback_categories] on the table
    the first has left returns what the first returned, result or
    exception, and leaves that table as it is: the fill of the tag
    columns happens once. *)
Theorem feedback_categories_second_run df :
  analyze_feedback_categories (frame (analyze_feedback_categories df))
  = analyze_feedback_categories df.
Proof.
  destruct (analyze_feedback_categories df) as [r df1] eqn:Hrun.
  apply (feedback_categories_again df r df1 Hrun).
Qed.

End CategoryFacts.

Lemma feedback_chart_top_ten_witness :
  exists chart,
    value (@analyze_feedback_categories example_runtime four_responses) = Ok chart /\
    (length chart <= 10)%nat /\
    NoDup (map fst chart) /\
    StronglySorted count_ge chart /\
    (forall s n, (s, n) ∈ chart ->
       s <> "nan" /\ (0 < n)%nat /\
       n = token_count s (@categories_in example_runtime four_nps_tags four_improvement_tags)) /\
    (forall s, s <> "nan" ->
       s ∈ @categories_in example_runtime four_nps_tags four_improvement_tags ->
       s ∉ map fst chart ->
       length chart = 10%nat /\
       forall s' n', (s', n') ∈ chart ->
         (token_count s (@categories_in example_runtime four_nps_tags four_improvement_tags)
          <= n')%nat).
Proof.
  apply (@feedback_chart_top_ten example_runtime four_responses four_nps_tags
           four_improvement_tags); by vm_compute.
Defined.

(** ** The shape of a tag *)

Lemma split_no_sep sep s piece :
  piece ∈ split sep s -> has_char sep piece = false.
Proof.
  revert piece. induction s as [|c s IH]; intros piece; simpl.
  - by intros ->%list_elem_of_singleton.
  - destruct (Ascii.eqb c sep) eqn:E.
    + intros [->|H]%elem_of_cons; [done|by apply IH].
    + destruct (split sep s) as [|h t] eqn:Es.
      * intros ->%list_elem_of_singleton. simpl. by rewrite E.
      * intros [->|H]%elem_of_cons.
        -- simpl. rewrite E. apply IH. set_solver.
        -- apply IH. set_solver.
Qed.

Lemma lstrip_has_char p c s : has_char c (lstrip p s) = true -> has_char c s = true.
Proof.
  induction s as [|a s IH]; simpl; [done|].
  destruct (p a); [|done]. intros H. rewrite (IH H). apply orb_true_r.
Qed.

Lemma rstrip_has_char p c s : has_char c (rstrip p s) = true -> has_char c s = true.
Proof.
  induction s as [|a s IH]; simpl; [done|].
  destruct (p a && is_empty (rstrip p s)); [done|]. simpl.
  intros [H|H]%orb_true_iff; apply orb_true_iff; [by left|right; by apply IH].
Qed.

Lemma strip_no_char p c s : has_char c s = false -> has_char c (strip p s) = false.
Proof.
  intros H. unfold strip. destruct (has_char c (rstrip p (lstrip p s))) eqn:E; [|done].
  apply rstrip_has_char, lstrip_has_char in E. congruence.
Qed.

Lemma lstrip_starts p s : starts_with p (lstrip p s) = false.
Proof.
  induction s as [|a s IH]; simpl; [done|]. destruct (p a) eqn:E; [done|]. simpl. done.
Qed.

Lemma rstrip_starts p s : starts_with p s = false -> starts_with p (rstrip p s) = false.
Proof.
  destruct s as [|a s]; simpl; [done|]. intros H. rewrite H. simpl. exact H.
Qed.

Lemma rstrip_ends p s : ends_with p (rstrip p s) = false.
Proof.
  induction s as [|a s IH]; [done|]. cbn [rstrip].
  destruct (rstrip p s) as [|b r] eqn:Er.
  - cbn [is_empty]. rewrite andb_true_r. by destruct (p a) eqn:E.
  - cbn [is_empty]. rewrite andb_false_r. exact IH.
Qed.

Lemma strip_dquote_trimmed s :
  has_char comma s = false -> trimmed_tag (strip is_dquote s).
Proof.
  intros H. split; [by apply strip_no_char|]. split.
  - unfold strip. apply rstrip_starts, lstrip_starts.
  - apply rstrip_ends.
Qed.

Lemma concern_tokens_trimmed x s : s ∈ concern_tokens x -> trimmed_tag s.
Proof.
  unfold concern_tokens. intros (c & -> & Hc)%list_elem_of_fmap.
  apply list_elem_of_In, filter_In in Hc as [Hc _]. apply list_elem_of_In in Hc.
  apply strip_dquote_trimmed, strip_no_char. by apply (split_no_sep _ x).
Qed.

Lemma concerns_in_trimmed v s : s ∈ concerns_in v -> trimmed_tag s.
Proof.
  unfold concerns_in. intros Hs. apply list_elem_of_In, in_flat_map in Hs as (c & _ & Hs).
  destruct c as [x|q|t|]; try done. apply list_elem_of_In in Hs.
  by apply (concern_tokens_trimmed (strip is_dquote x)).
Qed.

Section TagShape.
Context {rt : Runtime}.

Lemma row_categories_trimmed row s : s ∈ row_categories row -> trimmed_tag s.
Proof.
  unfold row_categories. destruct (truthy row); [|by intros H%elem_of_nil].
  intros (c & -> & Hc)%list_elem_of_fmap.
  apply list_elem_of_In, filter_In in Hc as [Hc _]. apply list_elem_of_In in Hc.
  apply strip_dquote_trimmed. by apply (split_no_sep _ (py_str row)).
Qed.

Lemma categories_in_trimmed v1 v2 s : s ∈ categories_in v1 v2 -> trimmed_tag s.
Proof.
  unfold categories_in. intros [H|H]%elem_of_app;
    apply list_elem_of_In, in_flat_map in H as (c & _ & H);
    apply list_elem_of_In in H; by apply (row_categories_trimmed c).
Qed.

(** X14. No tag counted by [get_top_concerns] or shown by
    [analyze_feedback_categories] has a comma in it or a double quote
    at its start or at its end. *)
Theorem tags_are_trimmed df :
  (forall concern_counts s n,
     value (get_top_concerns df) = Ok concern_counts ->
     (s, n) ∈ concern_counts -> trimmed_tag s) /\
  (forall chart s n,
     value (analyze_feedback_categories df) = Ok chart ->
     (s, n) ∈ chart -> trimmed_tag s).
Proof.
  split.
  - intros counts s n Hrun Hin.
    destruct (top_concerns_value _ _ Hrun) as (v & _ & _ & ->).
    apply (concerns_in_trimmed v). by apply (value_counts_key _ _ n).
  - intros chart s n Hrun Hin.
    destruct (feedback_chart_value _ _ Hrun) as (v1 & v2 & _ & _ & ->).
    apply (categories_in_trimmed v1 v2). apply (value_counts_key _ _ n).
    assert ((s, n) ∈ List.filter (fun kv : string * nat => negb (String.eqb (fst kv) "nan"))
                       (value_counts (categories_in v1 v2))) as Hin'.
    { rewrite <- (firstn_skipn 10). apply elem_of_app. by left. }
    apply list_elem_of_In. apply list_elem_of_In in Hin'.
    by apply filter_In in Hin' as [Hin' _].
Qed.

End TagShape.

Lemma tags_are_trimmed_witness :
  trimmed_tag "Fees" /\ trimmed_tag "Teachers".
Proof.
  destruct (@tags_are_trimmed example_runtime four_responses) as [Hconcerns Hchart].
  split.
  - apply (Hconcerns (value_counts (concerns_in four_improvement_tags)) "Fees" 2%nat).
    + by vm_compute.
    + apply (bool_decide_unpack _). by vm_compute.
  - apply (Hchart
             (firstn 10
                (List.filter (fun kv : string * nat => negb (String.eqb (fst kv) "nan"))
                   (value_counts
                      (@categories_in example_runtime four_nps_tags four_improvement_tags))))
             "Teachers" 2%nat).
    + by vm_compute.
    + apply (bool_decide_unpack _). by vm_compute.
Defined.
